(** * SwarmPage: the wildfire / drone-swarm simulation core of [reactcode.jsx]

    A shallow embedding of the classes [Cell], [Environment] and [DroneSwarm]
    and of the tick function [step_sim], followed by the properties of the
    simulation that the specification states and by further properties of
    the code.

    Conventions of the embedding.
    - JavaScript numbers that the program only ever uses as integers (grid
      coordinates, loop counters, cooldowns, water units, timers, the tick
      index) are [Z]; array lengths and agent indices are [nat].
    - The remaining numbers (elevations, probabilities, positions, velocities,
      the simulation clock) are exact rationals [Q]: the rounding of IEEE
      doubles is not modelled.  Fitness values additionally range over
      [+Infinity], which the program produces when the grid has no water
      cell.
    - [Math.random()] reads the next element of a sequence of draws.
    - [Math.sqrt] is the host's; it is a parameter of the development.
    - Objects mutated in place (the cells of the grid, the arrays of the
      swarm, the one-element array holding the clock) are threaded through the
      functions as state.  No two names of the program alias the same cell or
      array entry, so a field assignment is an update at one index.
    - A function returns [None] where the JavaScript raises a [TypeError]
      (indexing [undefined]) or reads an array slot that does not exist.  The
      grid keeps its [height] x [width] shape and the arrays of the swarm
      their [num_drones] entries, so neither happens in a run of the
      simulation ([initSim_total], [step_sim_returns]). *)

From Stdlib Require Import ZArith QArith Qround Qminmax Lia Lqa.
From stdpp Require Import base option list strings.

Open Scope Z_scope.

(** ** Constants (lines 3-7) *)

Definition DRONE_SPEED : Q := 10.
Definition CELL_SIZE : Q := 10.
Definition REFILL_TIME : Z := 30.
Definition EXTINGUISH_TIME : Q := 40.
Definition MAX_WATER_CAPACITY : Z := 3.

(** ** Numbers *)

(** [a < b] on rationals, as a boolean. *)
Definition Qltb (a b : Q) : bool := negb (Qle_bool b a).

(** [Math.random()]: the sequence of draws and the position of the next one. *)
Record Rng := mkRng { draws : nat -> Q; cursor : nat }.

Definition random (g : Rng) : Q * Rng :=
  (draws g (cursor g), mkRng (draws g) (S (cursor g))).

(** ** class Cell (lines 9-27) *)

Record Cell := mkCell {
  tree : bool;
  fire : bool;
  burnt : bool;
  water : bool;
  elevation : Q;
  fire_cooldown : Z;
  extinguished_by_drone : bool
}.

Definition new_Cell (elev : Q) : Cell :=
  mkCell true false false false elev 0 false.

Definition set_tree (b : bool) (c : Cell) : Cell :=
  mkCell b (fire c) (burnt c) (water c) (elevation c) (fire_cooldown c)
         (extinguished_by_drone c).
Definition set_fire (b : bool) (c : Cell) : Cell :=
  mkCell (tree c) b (burnt c) (water c) (elevation c) (fire_cooldown c)
         (extinguished_by_drone c).
Definition set_burnt (b : bool) (c : Cell) : Cell :=
  mkCell (tree c) (fire c) b (water c) (elevation c) (fire_cooldown c)
         (extinguished_by_drone c).
Definition set_water (b : bool) (c : Cell) : Cell :=
  mkCell (tree c) (fire c) (burnt c) b (elevation c) (fire_cooldown c)
         (extinguished_by_drone c).
Definition set_fire_cooldown (n : Z) (c : Cell) : Cell :=
  mkCell (tree c) (fire c) (burnt c) (water c) (elevation c) n
         (extinguished_by_drone c).
Definition set_extinguished_by_drone (b : bool) (c : Cell) : Cell :=
  mkCell (tree c) (fire c) (burnt c) (water c) (elevation c) (fire_cooldown c) b.

(** ** class Environment (lines 29-162) *)

Record Environment := mkEnv {
  width : Z;
  height : Z;
  grid : list (list Cell);          (* grid[y][x] *)
  wind : Z * Z;
  active_fires : list (Z * Z)       (* entries [x, y] *)
}.

Definition set_grid (g : list (list Cell)) (env : Environment) : Environment :=
  mkEnv (width env) (height env) g (wind env) (active_fires env).
Definition set_active_fires (l : list (Z * Z)) (env : Environment) : Environment :=
  mkEnv (width env) (height env) (grid env) (wind env) l.

(** The test [x >= 0 && x < this.width && y >= 0 && y < this.height]. *)
Definition in_bounds (env : Environment) (x y : Z) : bool :=
  (0 <=? x) && (x <? width env) && (0 <=? y) && (y <? height env).

(** The test [x < 0 || x >= width || y < 0 || y >= height] of [fitness] and of
    the suppression pass of [step]. *)
Definition out_of_bounds (env : Environment) (x y : Z) : bool :=
  (x <? 0) || (width env <=? x) || (y <? 0) || (height env <=? y).

(** [this.grid[y][x]]; [None] where JavaScript yields [undefined] or throws. *)
Definition cell_at (env : Environment) (x y : Z) : option Cell :=
  if (0 <=? x) && (0 <=? y)
  then grid env !! Z.to_nat y ≫= λ row, row !! Z.to_nat x
  else None.

(** Assignments to fields of the object [this.grid[y][x]]. *)
Definition update_cell (f : Cell -> Cell) (x y : Z) (env : Environment) : Environment :=
  set_grid (alter (alter f (Z.to_nat x)) (Z.to_nat y) (grid env)) env.

(** The guard [cell.tree && !cell.fire && !cell.burnt && !cell.water]. *)
Definition ignitable (c : Cell) : bool :=
  tree c && negb (fire c) && negb (burnt c) && negb (water c).

(** *** constructor (lines 30-42)

    Rows are filled for [y = 0 .. height-1], each for [x = 0 .. width-1], with
    one draw per cell. *)

Fixpoint new_row (n : nat) (g : Rng) : list Cell * Rng :=
  match n with
  | O => ([], g)
  | S n' =>
      let (r, g) := random g in
      let (row, g) := new_row n' g in
      (new_Cell (r * 100) :: row, g)
  end.

Fixpoint new_grid (h w : nat) (g : Rng) : list (list Cell) * Rng :=
  match h with
  | O => ([], g)
  | S h' =>
      let (row, g) := new_row w g in
      let (rows, g) := new_grid h' w g in
      (row :: rows, g)
  end.

Definition new_Environment (w h : Z) (g : Rng) : Environment * Rng :=
  let (rows, g) := new_grid (Z.to_nat h) (Z.to_nat w) g in
  (mkEnv w h rows (1, 0) [], g).

(** *** add_water_blobs (lines 44-60) *)

(** [Math.floor(Math.random() * k) + base] *)
Definition random_int (k : Q) (base : Z) (g : Rng) : Z * Rng :=
  let (r, g) := random g in (Qfloor (r * k) + base, g).

Fixpoint water_walk (steps : nat) (x y : Z) (st : Environment * Rng)
  : option (Environment * Rng) :=
  match steps with
  | O => Some st
  | S steps' =>
      let (env, g) := st in
      env ← (if in_bounds env x y then
               _ ← cell_at env x y;
               Some (update_cell (set_tree false) x y
                       (update_cell (set_water true) x y env))
             else Some env);
      let (sx, g) := random_int 3 (-1) g in
      let (sy, g) := random_int 3 (-1) g in
      water_walk steps' (x + sx) (y + sy) (env, g)
  end.

Fixpoint water_blobs (n : nat) (st : Environment * Rng) : option (Environment * Rng) :=
  match n with
  | O => Some st
  | S n' =>
      let (env, g) := st in
      let (cx, g) := random_int (inject_Z (width env - 8)) 4 g in
      let (cy, g) := random_int (inject_Z (height env - 8)) 4 g in
      let (steps, g) := random_int 15 15 g in
      st ← water_walk (Z.to_nat steps) cx cy (env, g);
      water_blobs n' st
  end.

Definition add_water_blobs (count : Z) (st : Environment * Rng)
  : option (Environment * Rng) :=
  let (env, g) := st in
  let (num_blobs, g) := random_int (inject_Z (count - 1)) 2 g in
  water_blobs (Z.to_nat num_blobs) (env, g).

(** *** ignite (lines 62-71) *)

Definition ignite (x y : Z) (env : Environment) : option Environment :=
  if in_bounds env x y then
    cell ← cell_at env x y;
    if ignitable cell then
      let env := update_cell (set_fire true) x y env in
      let env := update_cell (set_fire_cooldown 3) x y env in
      Some (set_active_fires (active_fires env ++ [(x, y)]) env)
    else Some env
  else Some env.

(** *** spread_fire (lines 73-114) *)

(** The probability compared with the draw on line 99. *)
Definition ignition_probability (env : Environment) (cell ncell : Cell) (dx dy : Z) : Q :=
  let elev_diff := (elevation ncell - elevation cell)%Q in
  let base_prob := (0.05 + elev_diff * 0.003)%Q in
  let base_prob :=
    if (dx =? fst (wind env)) && (dy =? snd (wind env))
    then (base_prob + 0.08)%Q else base_prob in
  Qmin (Qmax base_prob 0.005) 0.4.

(** State of the loop over [this.active_fires]. *)
Record SpreadState := mkSpread {
  sp_env : Environment;
  new_fires : list (Z * Z);
  still_active : list (Z * Z);
  sp_rng : Rng
}.

(** Body of the two inner loops (lines 91-105) for the burning cell [(x, y)]
    and the offset [(dx, dy)]. *)
Definition try_spread (x y dx dy : Z) (st : SpreadState) : option SpreadState :=
  if (dx =? 0) && (dy =? 0) then Some st else
  let env := sp_env st in
  let nx := x + dx in
  let ny := y + dy in
  if in_bounds env nx ny then
    cell ← cell_at env x y;
    ncell ← cell_at env nx ny;
    if ignitable ncell then
      let (r, g) := random (sp_rng st) in
      if Qltb r (ignition_probability env cell ncell dx dy) then
        let env := update_cell (set_fire true) nx ny env in
        let env := update_cell (set_fire_cooldown 2) nx ny env in
        Some (mkSpread env (new_fires st ++ [(nx, ny)]) (still_active st) g)
      else Some (mkSpread env (new_fires st) (still_active st) g)
    else Some st
  else Some st.

(** [for (dx = -1 .. 1) for (dy = -1 .. 1)] as the list of offsets in
    iteration order. *)
Definition offsets : list (Z * Z) :=
  dx ← [-1; 0; 1]; dy ← [-1; 0; 1]; [(dx, dy)].

Fixpoint spread_neighbours (x y : Z) (ds : list (Z * Z)) (st : SpreadState)
  : option SpreadState :=
  match ds with
  | [] => Some st
  | (dx, dy) :: ds' => st ← try_spread x y dx dy st; spread_neighbours x y ds' st
  end.

(** Body of the loop over the active fires (lines 78-110). *)
Definition spread_from (xy : Z * Z) (st : SpreadState) : option SpreadState :=
  let (x, y) := xy in
  let env := sp_env st in
  cell ← cell_at env x y;
  let env := if 0 <? fire_cooldown cell
             then update_cell (set_fire_cooldown (fire_cooldown cell - 1)) x y env
             else env in
  let (r, g) := random (sp_rng st) in
  if Qltb r 0.03 then
    let env := update_cell (set_fire false) x y env in
    let env := update_cell (set_burnt true) x y env in
    let env := update_cell (set_extinguished_by_drone false) x y env in
    Some (mkSpread env (new_fires st) (still_active st) g)
  else
    cell ← cell_at env x y;
    st ← (if fire_cooldown cell =? 0 then
            st ← spread_neighbours x y offsets
                   (mkSpread env (new_fires st) (still_active st) g);
            Some (mkSpread (update_cell (set_fire_cooldown 2) x y (sp_env st))
                           (new_fires st) (still_active st) (sp_rng st))
          else Some (mkSpread env (new_fires st) (still_active st) g));
    Some (mkSpread (sp_env st) (new_fires st) (still_active st ++ [(x, y)]) (sp_rng st)).

Fixpoint spread_loop (fs : list (Z * Z)) (st : SpreadState) : option SpreadState :=
  match fs with
  | [] => Some st
  | xy :: fs' => st ← spread_from xy st; spread_loop fs' st
  end.

(** The predicate of the final [filter]: [this.grid[y][x].fire].  Every
    coordinate it is applied to was read successfully by the loop. *)
Definition burning_at (env : Environment) (xy : Z * Z) : bool :=
  match cell_at env xy.1 xy.2 with
  | Some c => fire c
  | None => false
  end.

Definition spread_fire (env : Environment) (g : Rng) : option (Environment * Rng) :=
  st ← spread_loop (active_fires env) (mkSpread env [] [] g);
  let env := sp_env st in
  Some (set_active_fires
          (filter (λ xy, burning_at env xy) (still_active st) ++ new_fires st) env,
        sp_rng st).

(** Everything from here on may call [Math.sqrt]. *)
Section Host.

Variable Math_sqrt : Q -> Q.

(** *** extinguish_fire_at (lines 116-137)

    [drone_pos] and [simulation_time] default to [null]; the clock is advanced
    only when both are given.  The result is the returned boolean, the
    environment and the clock after the call. *)

Definition travel_time (x y : Z) (drone_pos : Z * Z) : Q :=
  let dx := x - drone_pos.1 in
  let dy := y - drone_pos.2 in
  let distance := (Math_sqrt (inject_Z (dx * dx + dy * dy)) * CELL_SIZE)%Q in
  (distance / DRONE_SPEED)%Q.

Definition extinguish_fire_at (x y : Z) (drone_pos : option (Z * Z))
    (simulation_time : option Q) (env : Environment)
  : option (bool * Environment * option Q) :=
  if in_bounds env x y then
    cell ← cell_at env x y;
    if fire cell then
      let simulation_time :=
        match simulation_time, drone_pos with
        | Some t, Some p => Some (t + (travel_time x y p + EXTINGUISH_TIME))%Q
        | _, _ => simulation_time
        end in
      let env := update_cell (set_fire false) x y env in
      let env := update_cell (set_burnt true) x y env in
      let env := update_cell (set_tree false) x y env in
      let env := update_cell (set_fire_cooldown 0) x y env in
      let env := update_cell (set_extinguished_by_drone true) x y env in
      let env := set_active_fires
                   (filter (λ f, negb ((f.1 =? x) && (f.2 =? y)))
                           (active_fires env)) env in
      Some (true, env, simulation_time)
    else Some (false, env, simulation_time)
  else Some (false, env, simulation_time).

(** *** get_attraction_matrix (lines 139-150)

    The matrix has [height] rows of [width] entries; entry [y][x] is read
    from [this.grid[y][x]]. *)

Definition attraction (c : Cell) : Z :=
  if fire c then 5 else if burnt c then 4 else if water c then 3 else 0.

Definition get_attraction_matrix (env : Environment) : option (list (list Z)) :=
  mapM (λ y, mapM (λ x, attraction <$> cell_at env x y) (seqZ 0 (width env)))
       (seqZ 0 (height env)).

(** *** count_trees (lines 152-161) *)

Definition count_cell (acc : Z * Z) (cell : Cell) : Z * Z :=
  let (saved, burnt_n) := acc in
  if tree cell then (saved + 1, burnt_n)
  else if burnt cell then (saved, burnt_n + 1)
  else acc.

Definition count_trees (env : Environment) : Z * Z :=
  fold_left (λ acc row, fold_left count_cell row acc) (grid env) (0, 0).

(** ** class DroneSwarm (lines 164-303) *)

(** Fitness values: a rational or [Infinity]. *)
Inductive num := Fin (q : Q) | Infinity.

Definition num_ltb (a b : num) : bool :=
  match a, b with
  | Fin x, Fin y => Qltb x y
  | Fin _, Infinity => true
  | Infinity, _ => false
  end.

Definition num_eqb (a b : num) : bool :=
  match a, b with
  | Fin x, Fin y => Qeq_bool x y
  | Infinity, Infinity => true
  | _, _ => false
  end.

Definition num_min (a b : num) : num :=
  match a, b with
  | Fin x, Fin y => Fin (Qmin x y)
  | Fin x, Infinity => Fin x
  | Infinity, b => b
  end.

Definition num_add (a b : num) : num :=
  match a, b with
  | Fin x, Fin y => Fin (x + y)
  | _, _ => Infinity
  end.

Record DroneSwarm := mkSwarm {
  num_drones : nat;
  positions : list (Q * Q);
  velocities : list (Q * Q);
  pbest_positions : list (Q * Q);
  pbest_values : list num;
  gbest_position : Q * Q;
  gbest_value : num;
  water_left : list Z;
  refill_timers : list Z;
  omega : Q;
  phi_p : Q;
  phi_g : Q
}.

Definition set_positions (l : list (Q * Q)) (s : DroneSwarm) : DroneSwarm :=
  mkSwarm (num_drones s) l (velocities s) (pbest_positions s) (pbest_values s)
          (gbest_position s) (gbest_value s) (water_left s) (refill_timers s)
          (omega s) (phi_p s) (phi_g s).
Definition set_velocities (l : list (Q * Q)) (s : DroneSwarm) : DroneSwarm :=
  mkSwarm (num_drones s) (positions s) l (pbest_positions s) (pbest_values s)
          (gbest_position s) (gbest_value s) (water_left s) (refill_timers s)
          (omega s) (phi_p s) (phi_g s).
Definition set_pbest (i : nat) (p : Q * Q) (v : num) (s : DroneSwarm) : DroneSwarm :=
  mkSwarm (num_drones s) (positions s) (velocities s)
          (<[i:=p]> (pbest_positions s)) (<[i:=v]> (pbest_values s))
          (gbest_position s) (gbest_value s) (water_left s) (refill_timers s)
          (omega s) (phi_p s) (phi_g s).
Definition set_gbest (p : Q * Q) (v : num) (s : DroneSwarm) : DroneSwarm :=
  mkSwarm (num_drones s) (positions s) (velocities s) (pbest_positions s)
          (pbest_values s) p v (water_left s) (refill_timers s)
          (omega s) (phi_p s) (phi_g s).
Definition set_water_left (l : list Z) (s : DroneSwarm) : DroneSwarm :=
  mkSwarm (num_drones s) (positions s) (velocities s) (pbest_positions s)
          (pbest_values s) (gbest_position s) (gbest_value s) l (refill_timers s)
          (omega s) (phi_p s) (phi_g s).
Definition set_refill_timers (l : list Z) (s : DroneSwarm) : DroneSwarm :=
  mkSwarm (num_drones s) (positions s) (velocities s) (pbest_positions s)
          (pbest_values s) (gbest_position s) (gbest_value s) (water_left s) l
          (omega s) (phi_p s) (phi_g s).
Definition set_params (w pp pg : Q) (s : DroneSwarm) : DroneSwarm :=
  mkSwarm (num_drones s) (positions s) (velocities s) (pbest_positions s)
          (pbest_values s) (gbest_position s) (gbest_value s) (water_left s)
          (refill_timers s) w pp pg.

(** *** fitness (lines 189-231) *)

(** The pairs [[yy, xx]] with [matrix[yy][xx] === v], in row-major order. *)
Definition positions_with (v : Z) (matrix : list (list Z)) : list (Z * Z) :=
  mjoin (imap (λ yy row,
           mjoin (imap (λ xx c, if c =? v then [(Z.of_nat yy, Z.of_nat xx)] else [])
                       row))
         matrix).

(** [Math.sqrt((px - x) ** 2 + (py - y) ** 2)] for the pair [[py, px]]. *)
Definition dist_to (x y : Z) (p : Z * Z) : Q :=
  let (py, px) := p in
  Math_sqrt (inject_Z ((px - x) ^ 2 + (py - y) ^ 2)).

Definition min_dist (x y : Z) (ps : list (Z * Z)) : num :=
  fold_left (λ m p, num_min m (Fin (dist_to x y p))) ps Infinity.

Definition fitness (env : Environment) (pos : Q * Q) : option num :=
  let (px, py) := pos in
  let x := Qfloor px in
  let y := Qfloor py in
  if out_of_bounds env x y
  then Some (Fin 1000000)
  else
    matrix ← get_attraction_matrix env;
    cell_value ← matrix !! Z.to_nat y ≫= λ row, row !! Z.to_nat x;
    let water_positions := positions_with 3 matrix in
    let min_dist_water := min_dist x y water_positions in
    if cell_value =? 5 then Some (num_add (Fin (-100)) min_dist_water)
    else if cell_value =? 3 then Some (Fin (-10))
    else if cell_value =? 4 then Some (Fin 1000)
    else
      let fire_positions := positions_with 5 matrix in
      let min_dist_fire :=
        match fire_positions with
        | [] => Fin 0
        | _ => min_dist x y fire_positions
        end in
      Some (match fire_positions with [] => Fin 100 | _ => min_dist_fire end).

(** *** constructor (lines 165-187) *)

Fixpoint random_pairs (f : Q -> Q) (h : Q -> Q) (n : nat) (g : Rng)
  : list (Q * Q) * Rng :=
  match n with
  | O => ([], g)
  | S n' =>
      let (a, g) := random g in
      let (b, g) := random g in
      let (l, g) := random_pairs f h n' g in
      ((f a, h b) :: l, g)
  end.

(** [values.indexOf(Math.min(...values))] *)
Definition index_of_min (values : list num) : option nat :=
  let m := fold_left num_min values Infinity in
  fst <$> list_find (λ v, num_eqb v m = true) values.

Definition new_DroneSwarm (env : Environment) (n : nat) (g : Rng)
  : option (DroneSwarm * Rng) :=
  let (ps, g) :=
    random_pairs (λ r, r * inject_Z (width env - 1))%Q
                 (λ r, r * inject_Z (height env - 1))%Q n g in
  let (vs, g) :=
    random_pairs (λ r, (r - 0.5) * 3)%Q (λ r, (r - 0.5) * 3)%Q n g in
  values ← mapM (fitness env) ps;
  best_idx ← index_of_min values;
  gp ← ps !! best_idx;
  gv ← values !! best_idx;
  Some (mkSwarm n ps vs ps values gp gv
                (replicate n MAX_WATER_CAPACITY) (replicate n 0) 0.7 1.5 1.5, g).

(** *** step (lines 233-302) *)

(** First loop (lines 234-253): velocity and position of drone [i]. *)
Definition move_drone (env : Environment) (i : nat) (st : DroneSwarm * Rng)
  : option (DroneSwarm * Rng) :=
  let (sw, g) := st in
  let (r_p, g) := random g in
  let (r_g, g) := random g in
  v ← velocities sw !! i;
  pb ← pbest_positions sw !! i;
  p ← positions sw !! i;
  let gb := gbest_position sw in
  let vx := (omega sw * v.1 + phi_p sw * r_p * (pb.1 - p.1)
             + phi_g sw * r_g * (gb.1 - p.1))%Q in
  let vy := (omega sw * v.2 + phi_p sw * r_p * (pb.2 - p.2)
             + phi_g sw * r_g * (gb.2 - p.2))%Q in
  let px := (p.1 + vx)%Q in
  let py := (p.2 + vy)%Q in
  let px := Qmax 0 (Qmin (inject_Z (width env - 1)) px) in
  let py := Qmax 0 (Qmin (inject_Z (height env - 1)) py) in
  Some (set_positions (<[i:=(px, py)]> (positions sw))
          (set_velocities (<[i:=(vx, vy)]> (velocities sw)) sw), g).

(** Second loop (lines 255-265): personal and global best of drone [i]. *)
Definition evaluate_drone (env : Environment) (i : nat) (sw : DroneSwarm)
  : option DroneSwarm :=
  p ← positions sw !! i;
  f ← fitness env p;
  pbv ← pbest_values sw !! i;
  if num_ltb f pbv then
    let sw := set_pbest i p f sw in
    if num_ltb f (gbest_value sw) then Some (set_gbest p f sw) else Some sw
  else Some sw.

(** One call [this.env.extinguish_fire_at(nx, ny, [x, y], simulation_time)]
    as the third loop makes it; kept in call order for the statements about
    the arguments of these calls. *)
Record ExtinguishCall := mkCall {
  call_drone : nat;
  call_target : Z * Z;
  call_drone_pos : Z * Z;
  call_result : bool
}.

(** State of the third loop (lines 267-299). *)
Record SuppressState := mkSuppress {
  su_env : Environment;
  su_swarm : DroneSwarm;
  su_time : option Q;
  extinguished_count : Z;
  extinguished_local : Z;
  su_calls : list ExtinguishCall
}.

(** Body of the inner loop (lines 290-296); [true] in the result is the
    [break]. *)
Definition scan_cell (i : nat) (x y dx dy : Z) (st : SuppressState)
  : option (bool * SuppressState) :=
  w ← water_left (su_swarm st) !! i;
  if (3 <=? extinguished_local st) || (w <=? 0) then Some (true, st) else
  let nx := x + dx in
  let ny := y + dy in
  '(ok, env, t) ← extinguish_fire_at nx ny (Some (x, y)) (su_time st) (su_env st);
  let calls := su_calls st ++ [mkCall i (nx, ny) (x, y) ok] in
  if ok : bool then
    Some (false,
          mkSuppress env (set_water_left (<[i:=w - 1]> (water_left (su_swarm st)))
                                         (su_swarm st))
                     t (extinguished_count st + 1) (extinguished_local st + 1) calls)
  else
    Some (false,
          mkSuppress env (su_swarm st) t (extinguished_count st)
                     (extinguished_local st) calls).

Fixpoint scan_column (i : nat) (x y dx : Z) (dys : list Z) (st : SuppressState)
  : option SuppressState :=
  match dys with
  | [] => Some st
  | dy :: dys' =>
      '(brk, st) ← scan_cell i x y dx dy st;
      if brk : bool then Some st else scan_column i x y dx dys' st
  end.

Fixpoint scan_neighbourhood (i : nat) (x y : Z) (dxs : list Z) (st : SuppressState)
  : option SuppressState :=
  match dxs with
  | [] => Some st
  | dx :: dxs' =>
      st ← scan_column i x y dx [-1; 0; 1] st;
      scan_neighbourhood i x y dxs' st
  end.

(** Body of the third loop for drone [i]. *)
Definition suppress_drone (i : nat) (st : SuppressState) : option SuppressState :=
  let env := su_env st in
  let sw := su_swarm st in
  '(px, py) ← positions sw !! i;
  let x := Qfloor px in
  let y := Qfloor py in
  if out_of_bounds env x y
  then Some st
  else
    cell ← cell_at env x y;
    w ← water_left sw !! i;
    if w =? 0 then
      if water cell then
        t ← refill_timers sw !! i;
        let sw := set_refill_timers (<[i:=t + 1]> (refill_timers sw)) sw in
        if REFILL_TIME <=? t + 1 then
          Some (mkSuppress env
                  (set_refill_timers (<[i:=0]> (refill_timers sw))
                     (set_water_left (<[i:=MAX_WATER_CAPACITY]> (water_left sw)) sw))
                  (su_time st) (extinguished_count st) (extinguished_local st)
                  (su_calls st))
        else
          Some (mkSuppress env sw (su_time st) (extinguished_count st)
                           (extinguished_local st) (su_calls st))
      else Some st
    else
      scan_neighbourhood i x y [-1; 0; 1]
        (mkSuppress env sw (su_time st) (extinguished_count st) 0 (su_calls st)).

(** [for (let i = 0; i < this.num_drones; i++) body]. *)
Fixpoint for_drones {St : Type} (body : nat -> St -> option St) (ids : list nat)
    (s : St) : option St :=
  match ids with
  | [] => Some s
  | i :: ids' => s ← body i s; for_drones body ids' s
  end.

(** Result of [step]: the environment, the swarm, the clock, the returned
    [extinguished_count], the generator, and the calls of the third loop. *)
Record StepResult := mkStep {
  st_env : Environment;
  st_swarm : DroneSwarm;
  st_time : option Q;
  st_extinguished : Z;
  st_rng : Rng;
  st_calls : list ExtinguishCall
}.

Definition step (env : Environment) (sw : DroneSwarm) (simulation_time : option Q)
    (g : Rng) : option StepResult :=
  let drones := seq 0 (num_drones sw) in
  '(sw, g) ← for_drones (move_drone env) drones (sw, g);
  sw ← for_drones (evaluate_drone env) drones sw;
  st ← for_drones suppress_drone drones (mkSuppress env sw simulation_time 0 0 []);
  Some (mkStep (su_env st) (su_swarm st) (su_time st) (extinguished_count st) g
               (su_calls st)).

(** ** The tick orchestrator (lines 305-419)

    The refs of the component.  Rendering is left out; the statistics shown
    on the page are those of [updateStats] below. *)

Record Sim := mkSim {
  envRef : option Environment;        (* null before initSim *)
  simRef : option DroneSwarm;         (* null until tick 10 *)
  stepCountRef : Z;
  simTimeRef : option Q;              (* the one-element array [t] *)
  totalExtinguishedRef : Z;
  sim_rng : Rng
}.

(** The loop of [initSim] that lights the first fires (lines 328-332). *)
Fixpoint ignite_random (n : nat) (st : Environment * Rng) : option (Environment * Rng) :=
  match n with
  | O => Some st
  | S n' =>
      let (env, g) := st in
      let (rx, g) := random g in
      let x := Qfloor (rx * (inject_Z (width env) / 3)) + Qfloor (inject_Z (width env) / 3) in
      let (ry, g) := random g in
      let y := Qfloor (ry * (inject_Z (height env) / 3)) + Qfloor (inject_Z (height env) / 3) in
      env ← ignite x y env;
      ignite_random n' (env, g)
  end.

Definition initSim (g : Rng) : option Sim :=
  let (env, g) := new_Environment 40 20 g in
  '(env, g) ← add_water_blobs 3 (env, g);
  '(env, g) ← ignite_random 5 (env, g);
  Some (mkSim (Some env) None 0 (Some 0%Q) 0 g).

(** [step_sim] (lines 377-419); [w], [pp], [pg] are the slider values
    [omega], [phiP], [phiG] at the time of the tick. *)
Definition step_sim (w pp pg : Q) (s : Sim) : option Sim :=
  match envRef s with
  | None => Some s
  | Some env =>
      '(env, g) ← spread_fire env (sim_rng s);
      '(sim, time, g) ←
         (if stepCountRef s =? 10 then
            '(swarm, g) ← new_DroneSwarm env 20 g;
            Some (Some (set_params w pp pg swarm), Some 0%Q, g)
          else Some (simRef s, simTimeRef s, g));
      '(env, sim, time, total, g) ←
         match sim with
         | Some swarm =>
             r ← step env (set_params w pp pg swarm) time g;
             Some (st_env r, Some (st_swarm r), st_time r,
                   totalExtinguishedRef s + st_extinguished r, st_rng r)
         | None => Some (env, sim, time, totalExtinguishedRef s, g)
         end;
      '(env, g) ←
         (if Z.rem (stepCountRef s) 15 =? 0 then
            let (r, g) := random g in
            if Qltb r 0.3 then
              let (x, g) := random_int (inject_Z (width env)) 0 g in
              let (y, g) := random_int (inject_Z (height env)) 0 g in
              env ← ignite x y env;
              Some (env, g)
            else Some (env, g)
          else Some (env, g));
      Some (mkSim (Some env) sim (stepCountRef s + 1) time total g)
  end.

(** The suppression pass of drone [i] alone, [n] ticks in a row. *)
Definition suppress_ticks (i : nat) (n : nat) (st : SuppressState)
  : option SuppressState :=
  Nat.iter n (λ o, o ≫= suppress_drone i) (Some st).

(** The state after [initSim] and [n] ticks with fixed slider values. *)
Definition ticks (g : Rng) (w pp pg : Q) (n : nat) : option Sim :=
  Nat.iter n (λ o, o ≫= step_sim w pp pg) (initSim g).

(** ** Data for the concrete evaluations *)

(** A rational stand-in for [Math.sqrt], used where a statement is evaluated
    on concrete data: the root rounded down to 52 binary digits after the
    point, exact on squares of such numbers. *)
Definition sqrt_approx (q : Q) : Q :=
  Z.sqrt (Qnum q * 2 ^ 104 / Z.pos (Qden q)) # 2 ^ 52.

(** Every draw is [r]. *)
Definition constant_draws (r : Q) : Rng := mkRng (λ _, r) 0.

(** A 2 x 1 grid: a burning cell at [(0, 0)] with elevation 2 and cooldown 0,
    and a forest cell at [(1, 0)], downwind, with elevation 97. *)
Definition steep_env : Environment :=
  mkEnv 2 1 [[mkCell true true false false 2 0 false; new_Cell 97]] (1, 0) [(0, 0)].

(** A 4 x 3 forest with one burning cell at [(2, 0)], and a swarm of one drone
    at [(0.5, 0.5)] flying right at two cells per tick, with full tank. *)
Definition forest_row : list Cell := replicate 4 (new_Cell 50).

Definition scout_env : Environment :=
  mkEnv 4 3
    [[new_Cell 50; new_Cell 50; mkCell true true false false 50 3 false; new_Cell 50];
     forest_row; forest_row] (1, 0) [(2, 0)].

Definition scout_swarm : DroneSwarm :=
  mkSwarm 1 [(0.5, 0.5)%Q] [(2, 0)%Q] [(0.5, 0.5)%Q] [Fin 2] (0.5, 0.5)%Q (Fin 2)
          [3] [0] 1 1.5 1.5.

(** The probability of claim C1 as the specification words it: the clamp
    first, the wind bonus added to the clamped value. *)
Definition clamp_then_bonus (env : Environment) (cell ncell : Cell) (dx dy : Z) : Q :=
  let clamped :=
    Qmin (Qmax (0.05 + (elevation ncell - elevation cell) * 0.003)%Q 0.005) 0.4 in
  if (dx =? fst (wind env)) && (dy =? snd (wind env))
  then (clamped + 0.08)%Q else clamped.

(** ** Well-formedness and invariants *)

(** The grid has [height] rows of [width] cells, as the constructor builds
    it. *)
Definition grid_ok (env : Environment) : Prop :=
  length (grid env) = Z.to_nat (height env) ∧
  Forall (λ row, length row = Z.to_nat (width env)) (grid env).

(** The Active Fire Set lists every burning cell once and nothing else. *)
Definition fires_ok (env : Environment) : Prop :=
  NoDup (active_fires env) ∧
  ∀ xy, xy ∈ active_fires env ↔ burning_at env xy = true.

(** A water cell is neither forest, nor burning, nor burnt. *)
Definition water_dry (env : Environment) : Prop :=
  ∀ x y c, cell_at env x y = Some c → water c = true →
    tree c = false ∧ fire c = false ∧ burnt c = false.

(** The coordinates of the grid and the number of burning cells. *)
Definition coords (env : Environment) : list (Z * Z) :=
  y ← seqZ 0 (height env); (λ x, (x, y)) <$> seqZ 0 (width env).

Definition count_burning (env : Environment) : nat :=
  length (filter (λ c, fire c) (concat (grid env))).

(** Effect of the five field assignments of lines 127-131. *)
Definition suppressed (c : Cell) : Cell :=
  mkCell false false true (water c) (elevation c) 0 true.

(** An assignment that leaves [fire], [tree], [burnt] and [water] alone. *)
Definition keeps_flags (f : Cell → Cell) : Prop :=
  ∀ c, fire (f c) = fire c ∧ tree (f c) = tree c ∧
       burnt (f c) = burnt c ∧ water (f c) = water c.

(** The dimensions, the wind and the terrain of every cell (its [water] flag
    and its elevation) are as before. *)
Definition same_terrain (env env' : Environment) : Prop :=
  width env' = width env ∧ height env' = height env ∧ wind env' = wind env ∧
  ∀ x y, (λ c, (water c, elevation c)) <$> cell_at env' x y
         = (λ c, (water c, elevation c)) <$> cell_at env x y.

Definition pending (st : SpreadState) (rest : list (Z * Z)) : list (Z * Z) :=
  still_active st ++ new_fires st ++ rest.

(** Invariant of the loop over the active fires; [rest] are the entries still
    to be visited. *)
Definition spread_inv (rest : list (Z * Z)) (st : SpreadState) : Prop :=
  grid_ok (sp_env st) ∧ water_dry (sp_env st) ∧
  NoDup (pending st rest) ∧
  ∀ xy, xy ∈ pending st rest ↔ burning_at (sp_env st) xy = true.

(** The invariant of the environment between operations. *)
Definition env_inv (env : Environment) : Prop :=
  grid_ok env ∧ fires_ok env ∧ water_dry env.

(** [b] is [a] or strictly below it. *)
Definition not_above (a b : num) : Prop := b = a ∨ num_ltb b a = true.

(** Number of successful calls of drone [i] among [calls]. *)
Definition successes (i : nat) (calls : list ExtinguishCall) : Z :=
  Z.of_nat (length (filter (λ c, call_drone c = i ∧ call_result c = true) calls)).

(** The swarm but for the water units and the refill timers. *)
Definition same_flight (sw sw' : DroneSwarm) : Prop :=
  num_drones sw' = num_drones sw ∧ positions sw' = positions sw ∧
  velocities sw' = velocities sw ∧ pbest_positions sw' = pbest_positions sw ∧
  pbest_values sw' = pbest_values sw ∧ gbest_position sw' = gbest_position sw ∧
  gbest_value sw' = gbest_value sw ∧ omega sw' = omega sw ∧
  phi_p sw' = phi_p sw ∧ phi_g sw' = phi_g sw ∧
  length (water_left sw') = length (water_left sw) ∧
  length (refill_timers sw') = length (refill_timers sw).

(** What scanning cells for drone [i], floored at [(x, y)], does to the state
    of the third loop. *)
Definition scan_post (i : nat) (x y : Z) (st st' : SuppressState) : Prop :=
  ∃ w new,
    water_left (su_swarm st) !! i = Some w ∧
    su_calls st' = su_calls st ++ new ∧
    Forall (λ c, call_drone c = i ∧ call_drone_pos c = (x, y)) new ∧
    same_flight (su_swarm st) (su_swarm st') ∧
    water_left (su_swarm st') = <[i:=w - successes i new]> (water_left (su_swarm st)) ∧
    refill_timers (su_swarm st') = refill_timers (su_swarm st) ∧
    extinguished_local st' = extinguished_local st + successes i new ∧
    extinguished_count st' = extinguished_count st + successes i new ∧
    Z.min w 0 ≤ w - successes i new ∧
    extinguished_local st' ≤ Z.max (extinguished_local st) 3 ∧
    same_terrain (su_env st) (su_env st') ∧
    (env_inv (su_env st) → env_inv (su_env st')).

(** The drone at [p] is inside the grid and over a water cell. *)
Definition over_water (env : Environment) (p : Q * Q) : Prop :=
  out_of_bounds env (Qfloor p.1) (Qfloor p.2) = false ∧
  ∃ c, cell_at env (Qfloor p.1) (Qfloor p.2) = Some c ∧ water c = true.

(** How the suppression pass changes the water units [w] and the refill timer
    [t] of one drone that made [k] successful suppressions. *)
Definition water_transition (over : Prop) (k w t w' t' : Z) : Prop :=
  (w ≠ 0 ∧ w' = w - k ∧ t' = t ∧ Z.min w 0 ≤ w' ∧ 0 ≤ k ≤ 3) ∨
  (w = 0 ∧ k = 0 ∧ over ∧ REFILL_TIME ≤ t + 1 ∧ w' = MAX_WATER_CAPACITY ∧ t' = 0) ∨
  (w = 0 ∧ k = 0 ∧ over ∧ t + 1 < REFILL_TIME ∧ w' = 0 ∧ t' = t + 1) ∨
  (w = 0 ∧ k = 0 ∧ ¬ over ∧ w' = 0 ∧ t' = t).

(** What the body of the third loop does for drone [i]. *)
Definition drone_post (i : nat) (st st' : SuppressState) : Prop :=
  ∃ p new,
    positions (su_swarm st) !! i = Some p ∧
    su_calls st' = su_calls st ++ new ∧
    Forall (λ c, call_drone c = i ∧ call_drone_pos c = (Qfloor p.1, Qfloor p.2)) new ∧
    same_flight (su_swarm st) (su_swarm st') ∧
    extinguished_count st' = extinguished_count st + successes i new ∧
    same_terrain (su_env st) (su_env st') ∧
    (env_inv (su_env st) → env_inv (su_env st')) ∧
    (∀ j, j ≠ i →
       water_left (su_swarm st') !! j = water_left (su_swarm st) !! j ∧
       refill_timers (su_swarm st') !! j = refill_timers (su_swarm st) !! j) ∧
    (∀ w t, water_left (su_swarm st) !! i = Some w →
            refill_timers (su_swarm st) !! i = Some t →
       ∃ w' t', water_left (su_swarm st') !! i = Some w' ∧
                refill_timers (su_swarm st') !! i = Some t' ∧
                water_transition (over_water (su_env st) p) (successes i new) w t w' t').

(** Invariant of the third loop before drone [k], for a pass started from the
    environment [env0] and the swarm [sw0] with an empty call list. *)
Definition suppress_inv (env0 : Environment) (sw0 : DroneSwarm) (k : nat)
    (st : SuppressState) : Prop :=
  same_flight sw0 (su_swarm st) ∧
  same_terrain env0 (su_env st) ∧
  (env_inv env0 → env_inv (su_env st)) ∧
  Forall (λ c, (call_drone c < k)%nat ∧
               ∃ p, positions sw0 !! call_drone c = Some p ∧
                    call_drone_pos c = (Qfloor p.1, Qfloor p.2)) (su_calls st) ∧
  extinguished_count st
    = Z.of_nat (length (filter (λ c, call_result c = true) (su_calls st))) ∧
  (∀ j, (k ≤ j)%nat →
     water_left (su_swarm st) !! j = water_left sw0 !! j ∧
     refill_timers (su_swarm st) !! j = refill_timers sw0 !! j) ∧
  (∀ j, (j < k)%nat → is_Some (positions sw0 !! j)) ∧
  (∀ j p w t, (j < k)%nat → positions sw0 !! j = Some p →
     water_left sw0 !! j = Some w → refill_timers sw0 !! j = Some t →
     ∃ w' t', water_left (su_swarm st) !! j = Some w' ∧
              refill_timers (su_swarm st) !! j = Some t' ∧
              water_transition (over_water env0 p) (successes j (su_calls st)) w t w' t').

(** The water units stay within the tank and the refill timer below
    [REFILL_TIME]; the timer of a drone that has water is 0. *)
Definition water_ok (sw : DroneSwarm) : Prop :=
  ∀ i w t, water_left sw !! i = Some w → refill_timers sw !! i = Some t →
    0 ≤ w ≤ MAX_WATER_CAPACITY ∧ 0 ≤ t < REFILL_TIME ∧ (0 < w → t = 0).

(** What one cell adds to [(saved, burnt)]. *)
Definition cell_count (c : Cell) : Z * Z :=
  if tree c then (1, 0) else if burnt c then (0, 1) else (0, 0).

Definition pair_add (a b : Z * Z) : Z * Z := (a.1 + b.1, a.2 + b.2).

(** An environment before the first ignition: nothing burns or is burnt, and
    a water cell is no forest. *)
Definition blank (env : Environment) : Prop :=
  grid_ok env ∧ active_fires env = [] ∧
  ∀ x y c, cell_at env x y = Some c →
    fire c = false ∧ burnt c = false ∧ (water c = true → tree c = false).

(** The arrays of the swarm have [num_drones] entries. *)
Definition swarm_ok (sw : DroneSwarm) : Prop :=
  length (positions sw) = num_drones sw ∧
  length (velocities sw) = num_drones sw ∧
  length (pbest_positions sw) = num_drones sw ∧
  length (pbest_values sw) = num_drones sw ∧
  length (water_left sw) = num_drones sw ∧
  length (refill_timers sw) = num_drones sw.

(** The position lies within [[0, width - 1] x [0, height - 1]]. *)
Definition in_range (env : Environment) (p : Q * Q) : Prop :=
  (0 <= p.1 <= inject_Z (width env - 1))%Q ∧
  (0 <= p.2 <= inject_Z (height env - 1))%Q.

(** States of the simulation that [initSim] and [step_sim] produce. *)
Inductive reachable : Sim → Prop :=
  | reach_init g s : initSim g = Some s → reachable s
  | reach_tick w pp pg s s' :
      reachable s → step_sim w pp pg s = Some s' → reachable s'.

(** The invariant of the simulation between ticks. *)
Definition sim_inv (s : Sim) : Prop :=
  ∃ env, envRef s = Some env ∧ env_inv env ∧ width env = 40 ∧ height env = 20 ∧
         (simRef s = None ↔ stepCountRef s ≤ 10) ∧
         match simRef s with
         | None => True
         | Some sw => swarm_ok sw ∧ water_ok sw ∧
                      ∀ i p, positions sw !! i = Some p → in_range env p
         end.

(** ** What the page shows of a state *)

(** [Cell.display] (lines 20-26). *)
Definition display (c : Cell) : string :=
  if fire c then "🔥"
  else if burnt c then (if extinguished_by_drone c then "🟩" else "⬛")
  else if water c then "🔷"
  else if tree c then "🌲"
  else " ".

(** The [stats] state of the component, and [updateStats] (lines 344-353). *)
Record Stats := mkStats {
  stats_fires : Z;
  stats_extinguished : Z;
  stats_saved : Z;
  stats_burnt : Z;
  stats_elapsed_time : Q
}.

Definition updateStats (env : Environment) (extCount : Z) (elapsed : Q) : Stats :=
  let (saved, burnt_n) := count_trees env in
  mkStats (Z.of_nat (length (active_fires env))) extCount saved burnt_n elapsed.

(** The statistics on the page once [initSim] or a tick of [step_sim] has
    run: both end with [updateStats] on the environment, the total of
    extinguished fires and the clock (lines 340 and 414). *)
Definition shown_stats (s : Sim) : option Stats :=
  env ← envRef s;
  t ← simTimeRef s;
  Some (updateStats env (totalExtinguishedRef s) t).

(** The number shown as "Efficiency" before it is formatted (line 549). *)
Definition efficiency (st : Stats) : Q :=
  if 0 <? stats_saved st + stats_burnt st
  then (inject_Z (stats_saved st)
        / inject_Z (stats_saved st + stats_burnt st) * 100)%Q
  else 0%Q.

(** ** What the operations make of one cell *)

(** The cooldown after line 79. *)
Definition cooled (k : Z) : Z := if 0 <? k then k - 1 else k.

(** A burning cell after lines 79 and 82-84: it burns out. *)
Definition burnt_out (c : Cell) : Cell :=
  mkCell (tree c) false true (water c) (elevation c) (cooled (fire_cooldown c)) false.

(** A burning cell after lines 79 and 88-109: it burns on. *)
Definition kept_burning (c : Cell) : Cell :=
  set_fire_cooldown
    (if cooled (fire_cooldown c) =? 0 then 2 else cooled (fire_cooldown c)) c.

(** A cell set on fire with cooldown [n] (lines 66-67 and 100-101). *)
Definition lit (n : Z) (c : Cell) : Cell := set_fire_cooldown n (set_fire true c).

(** Two different cells that touch, diagonals included. *)
Definition adjacent (a b : Z * Z) : Prop :=
  a ≠ b ∧ -1 ≤ a.1 - b.1 ≤ 1 ∧ -1 ≤ a.2 - b.2 ≤ 1.

(** A burning cell whose cooldown lets it spread in the coming pass. *)
Definition hot (env : Environment) (xy : Z * Z) : Prop :=
  ∃ c, cell_at env xy.1 xy.2 = Some c ∧ fire c = true ∧ fire_cooldown c ≤ 1.

(** What one pass of [spread_fire] over [env] makes of the cell [c] at
    [xy]. *)
Definition spread_outcome (env : Environment) (xy : Z * Z) (c c' : Cell) : Prop :=
  if fire c then c' = burnt_out c ∨ c' = kept_burning c
  else c' = c ∨
       (ignitable c = true ∧ c' = lit 2 c ∧ ∃ src, adjacent xy src ∧ hot env src).

(** The environment [env'] is [env] but for neighbours of [(x, y)] that were
    set on fire. *)
Definition lights (x y : Z) (env env' : Environment) : Prop :=
  ∀ a b, cell_at env' a b = cell_at env a b ∨
         (adjacent (a, b) (x, y) ∧
          ∃ n, cell_at env a b = Some n ∧ ignitable n = true ∧
               cell_at env' a b = Some (lit 2 n)).

(** Invariant of the loop of [spread_fire] on the cells, [done] being the
    active fires visited so far. *)
Definition spread_cells (env : Environment) (done : list (Z * Z))
    (env' : Environment) : Prop :=
  ∀ x y c, cell_at env x y = Some c →
    ∃ c', cell_at env' x y = Some c' ∧
      if fire c then
        if decide ((x, y) ∈ done)
        then c' = burnt_out c ∨ c' = kept_burning c else c' = c
      else c' = c ∨
           (ignitable c = true ∧ c' = lit 2 c ∧
            ∃ src, src ∈ done ∧ adjacent (x, y) src ∧ hot env src).

(** ** The suppression pass of [step], call by call *)

(** Every call of [extinguish_fire_at] that the pass can make keeps the
    property [I] of the environment, the clock, the calls made so far and
    their count. *)
Definition kept_by_calls
    (I : Environment → option Q → list ExtinguishCall → Z → Prop) : Prop :=
  ∀ env t calls n i x y dx dy ok env' t',
    I env t calls n → -1 ≤ dx ≤ 1 → -1 ≤ dy ≤ 1 →
    extinguish_fire_at (x + dx) (y + dy) (Some (x, y)) t env = Some (ok, env', t') →
    I env' t' (calls ++ [mkCall i (x + dx, y + dy) (x, y) ok])
      (if ok then n + 1 else n).

Definition holds_in
    (I : Environment → option Q → list ExtinguishCall → Z → Prop)
    (st : SuppressState) : Prop :=
  I (su_env st) (su_time st) (su_calls st) (extinguished_count st).

(** The targets of the calls that returned [true], in call order. *)
Definition quenched (calls : list ExtinguishCall) : list (Z * Z) :=
  call_target <$> filter (λ c, call_result c = true) calls.

(** The environment [env] is [env0] after the successful calls among
    [calls], [n] of them. *)
Definition quench_inv (env0 env : Environment) (calls : list ExtinguishCall)
    (n : Z) : Prop :=
  n = Z.of_nat (length (quenched calls)) ∧
  NoDup (quenched calls) ∧
  Forall (λ xy, burning_at env0 xy = true) (quenched calls) ∧
  (∀ a b, cell_at env a b =
          if decide ((a, b) ∈ quenched calls)
          then suppressed <$> cell_at env0 a b else cell_at env0 a b) ∧
  active_fires env = filter (λ xy, xy ∉ quenched calls) (active_fires env0) ∧
  width env = width env0 ∧ height env = height env0 ∧ wind env = wind env0.

(** What a call adds to the clock (lines 121-125). *)
Definition call_cost (c : ExtinguishCall) : Q :=
  if call_result c
  then (travel_time (call_target c).1 (call_target c).2 (call_drone_pos c)
        + EXTINGUISH_TIME)%Q
  else 0%Q.

Definition charged (calls : list ExtinguishCall) : Q :=
  fold_right (λ c acc, (call_cost c + acc)%Q) 0%Q calls.

(** The clock [t] is [t0] advanced by the cost of [calls]; a missing clock
    stays missing. *)
Definition clock_inv (t0 t : option Q) (calls : list ExtinguishCall) : Prop :=
  match t0, t with
  | Some a, Some b => (b == a + charged calls)%Q
  | None, None => True
  | _, _ => False
  end.

(** ** The phases of a cell *)

(** The five combinations of flags that the simulation produces. *)
Inductive Phase := Forest | Burning | BurntOut | Suppressed | Water.

Definition phase_of (c : Cell) : option Phase :=
  match tree c, fire c, burnt c, water c, extinguished_by_drone c with
  | true, false, false, false, false => Some Forest
  | true, true, false, false, false => Some Burning
  | true, false, true, false, false => Some BurntOut
  | false, false, true, false, true => Some Suppressed
  | false, false, false, true, false => Some Water
  | _, _, _, _, _ => None
  end.

(** The cell is in one of the five phases, with a cooldown that fits it. *)
Definition cell_ok (c : Cell) : Prop :=
  match phase_of c with
  | Some Burning => 1 ≤ fire_cooldown c ≤ 3
  | Some BurntOut => 0 ≤ fire_cooldown c ≤ 2
  | Some _ => fire_cooldown c = 0
  | None => False
  end.

Definition cells_ok (env : Environment) : Prop :=
  ∀ x y c, cell_at env x y = Some c → cell_ok c.

(** The order in which a cell passes through the phases. *)
Definition phase_step (p p' : Phase) : bool :=
  match p, p' with
  | Forest, (Forest | Burning | BurntOut | Suppressed) => true
  | Burning, (Burning | BurntOut | Suppressed) => true
  | BurntOut, BurntOut => true
  | Suppressed, Suppressed => true
  | Water, Water => true
  | _, _ => false
  end.

(** The legend of the page (lines 574-578). *)
Definition glyph (p : Phase) : string :=
  match p with
  | Forest => "🌲"
  | Burning => "🔥"
  | BurntOut => "⬛"
  | Suppressed => "🟩"
  | Water => "🔷"
  end.

(** The cell [c'] is a later state of the cell [c]. *)
Definition grows (c c' : Cell) : Prop :=
  cell_ok c' ∧ elevation c' = elevation c ∧
  ∃ p p', phase_of c = Some p ∧ phase_of c' = Some p' ∧ phase_step p p' = true.

Definition env_grows (env env' : Environment) : Prop :=
  width env' = width env ∧ height env' = height env ∧
  ∀ x y c, cell_at env x y = Some c → ∃ c', cell_at env' x y = Some c' ∧ grows c c'.

(** A cell under water (lines 53-54). *)
Definition watered (c : Cell) : Cell := set_tree false (set_water true c).

(** The environment [env'] is [env] with some more cells under water. *)
Definition floods (env env' : Environment) : Prop :=
  width env' = width env ∧ height env' = height env ∧ wind env' = wind env ∧
  active_fires env' = active_fires env ∧
  ∀ a b, cell_at env' a b = cell_at env a b ∨
         cell_at env' a b = watered <$> cell_at env a b.

(** ** The stages of a tick

    [step_sim] after [spread_fire]: the deployment of the swarm (lines
    383-390), the step of the swarm (lines 392-404) and the spontaneous
    ignition (lines 406-410). *)

Definition deploy (w pp pg : Q) (s : Sim) (env : Environment) (g : Rng)
  : option (option DroneSwarm * option Q * Rng) :=
  if stepCountRef s =? 10 then
    '(swarm, g) ← new_DroneSwarm env 20 g;
    Some (Some (set_params w pp pg swarm), Some 0%Q, g)
  else Some (simRef s, simTimeRef s, g).

Definition swarm_tick (w pp pg : Q) (s : Sim) (env : Environment)
    (sim : option DroneSwarm) (time : option Q) (g : Rng)
  : option (Environment * option DroneSwarm * option Q * Z * Rng) :=
  match sim with
  | Some swarm =>
      r ← step env (set_params w pp pg swarm) time g;
      Some (st_env r, Some (st_swarm r), st_time r,
            totalExtinguishedRef s + st_extinguished r, st_rng r)
  | None => Some (env, sim, time, totalExtinguishedRef s, g)
  end.

Definition random_ignition (s : Sim) (env : Environment) (g : Rng)
  : option (Environment * Rng) :=
  if Z.rem (stepCountRef s) 15 =? 0 then
    let (r, g) := random g in
    if Qltb r 0.3 then
      let (x, g) := random_int (inject_Z (width env)) 0 g in
      let (y, g) := random_int (inject_Z (height env)) 0 g in
      env ← ignite x y env;
      Some (env, g)
    else Some (env, g)
  else Some (env, g).

(** The number of water cells. *)
Definition count_water (env : Environment) : nat :=
  length (filter (λ c, water c) (concat (grid env))).

(** The cells as one list, row after row. *)
Definition cells (env : Environment) : list Cell := concat (grid env).

(** The cells of [env'] relate to those of [env], position by position. *)
Definition cellwise (R : Cell → Cell → Prop) (env env' : Environment) : Prop :=
  Forall2 (Forall2 R) (grid env) (grid env').

(** The flags that [count_trees] reads are the same in [c'] as in [c]. *)
Definition counted_alike (c c' : Cell) : Prop :=
  tree c' = tree c ∧ (tree c = false → burnt c' = burnt c).

(** What the counters of the component say of the environment. *)
Definition tally_inv (s : Sim) : Prop :=
  ∃ env t, envRef s = Some env ∧ simTimeRef s = Some t ∧ cells_ok env ∧
    0 ≤ totalExtinguishedRef s ∧
    (count_trees env).2 = totalExtinguishedRef s ∧
    (stepCountRef s ≤ 10 → t = 0%Q).

(** The target of a call is the requester's cell or one that touches it. *)
Definition call_near (c : ExtinguishCall) : Prop :=
  -1 ≤ (call_target c).1 - (call_drone_pos c).1 ≤ 1 ∧
  -1 ≤ (call_target c).2 - (call_drone_pos c).2 ≤ 1.

(** The squared distance, in cells, between the target of a call and the
    requester. *)
Definition call_sq_dist (c : ExtinguishCall) : Z :=
  let dx := (call_target c).1 - (call_drone_pos c).1 in
  let dy := (call_target c).2 - (call_drone_pos c).2 in
  dx * dx + dy * dy.

(** ** What fitness reads *)

(** [a ≤ b] on fitness values. *)
Definition num_le (a b : num) : Prop := num_ltb b a = false.

(** The cell at row [yx.1] and column [yx.2] is marked [v] in the attraction
    matrix. *)
Definition marked (env : Environment) (v : Z) (yx : Z * Z) : Prop :=
  ∃ c, cell_at env yx.2 yx.1 = Some c ∧ attraction c = v.

(** [d] is the least distance from [(x, y)] to a cell marked [v], and
    [Infinity] if no cell is. *)
Definition nearest (env : Environment) (v : Z) (x y : Z) (d : num) : Prop :=
  match d with
  | Infinity => ∀ yx, ¬ marked env v yx
  | Fin q => ∃ yx, marked env v yx ∧ q = dist_to x y yx ∧
                   ∀ yx', marked env v yx' → (q <= dist_to x y yx')%Q
  end.

(** The global best is the least of the personal bests, and is held by a
    drone whose personal best position is the global best position. *)
Definition best_ok (sw : DroneSwarm) : Prop :=
  (∀ i v, pbest_values sw !! i = Some v → num_le (gbest_value sw) v) ∧
  ∃ i, pbest_values sw !! i = Some (gbest_value sw) ∧
       pbest_positions sw !! i = Some (gbest_position sw).

(** ** The first loop of [step], drone by drone *)

(** The velocity assigned on lines 238-246, for the draws [r_p] and [r_g]. *)
Definition new_velocity (sw : DroneSwarm) (r_p r_g : Q) (v pb p : Q * Q) : Q * Q :=
  ((omega sw * v.1 + phi_p sw * r_p * (pb.1 - p.1)
    + phi_g sw * r_g * ((gbest_position sw).1 - p.1))%Q,
   (omega sw * v.2 + phi_p sw * r_p * (pb.2 - p.2)
    + phi_g sw * r_g * ((gbest_position sw).2 - p.2))%Q).

(** The position assigned on lines 248-252. *)
Definition new_position (env : Environment) (p v : Q * Q) : Q * Q :=
  (Qmax 0 (Qmin (inject_Z (width env - 1)) (p.1 + v.1)),
   Qmax 0 (Qmin (inject_Z (height env - 1)) (p.2 + v.2))).

(** The swarm [sw'] is [sw] but for positions and velocities. *)
Definition same_bests (sw sw' : DroneSwarm) : Prop :=
  num_drones sw' = num_drones sw ∧
  pbest_positions sw' = pbest_positions sw ∧ pbest_values sw' = pbest_values sw ∧
  gbest_position sw' = gbest_position sw ∧ gbest_value sw' = gbest_value sw ∧
  water_left sw' = water_left sw ∧ refill_timers sw' = refill_timers sw ∧
  omega sw' = omega sw ∧ phi_p sw' = phi_p sw ∧ phi_g sw' = phi_g sw ∧
  length (positions sw') = length (positions sw) ∧
  length (velocities sw') = length (velocities sw).

(** The swarm [sw'] is [sw] but for the personal and global bests. *)
Definition same_motion (sw sw' : DroneSwarm) : Prop :=
  num_drones sw' = num_drones sw ∧
  positions sw' = positions sw ∧ velocities sw' = velocities sw ∧
  water_left sw' = water_left sw ∧ refill_timers sw' = refill_timers sw ∧
  omega sw' = omega sw ∧ phi_p sw' = phi_p sw ∧ phi_g sw' = phi_g sw ∧
  length (pbest_positions sw') = length (pbest_positions sw) ∧
  length (pbest_values sw') = length (pbest_values sw).

(** Invariant of the first loop before drone [k], started from [sw] and [g]. *)
Definition move_inv (env : Environment) (sw : DroneSwarm) (g : Rng) (k : nat)
    (st : DroneSwarm * Rng) : Prop :=
  same_bests sw st.1 ∧
  st.2 = mkRng (draws g) (cursor g + 2 * k) ∧
  (∀ i, (k ≤ i)%nat →
     positions st.1 !! i = positions sw !! i ∧
     velocities st.1 !! i = velocities sw !! i) ∧
  ∀ i, (i < k)%nat →
    ∃ v pb p,
      velocities sw !! i = Some v ∧ pbest_positions sw !! i = Some pb ∧
      positions sw !! i = Some p ∧
      let v' := new_velocity sw (draws g (cursor g + 2 * i)%nat)
                             (draws g (cursor g + 2 * i + 1)%nat) v pb p in
      velocities st.1 !! i = Some v' ∧
      positions st.1 !! i = Some (new_position env p v').

(** Invariant of the second loop before drone [k], started from [sw]. *)
Definition evaluate_inv (env : Environment) (sw : DroneSwarm) (k : nat)
    (sw' : DroneSwarm) : Prop :=
  same_motion sw sw' ∧
  (∀ i, (k ≤ i)%nat →
     pbest_values sw' !! i = pbest_values sw !! i ∧
     pbest_positions sw' !! i = pbest_positions sw !! i) ∧
  (∀ i, (i < k)%nat →
     ∃ p f pbv,
       positions sw !! i = Some p ∧ fitness env p = Some f ∧
       pbest_values sw !! i = Some pbv ∧
       pbest_values sw' !! i = Some (if num_ltb f pbv then f else pbv) ∧
       pbest_positions sw' !! i
         = if num_ltb f pbv then <[i:=p]> (pbest_positions sw) !! i
           else pbest_positions sw !! i) ∧
  not_above (gbest_value sw) (gbest_value sw') ∧
  (length (pbest_positions sw) = length (pbest_values sw) → best_ok sw → best_ok sw').

(** What holds of the swarm of the component once it is deployed. *)
Definition fleet_inv (s : Sim) : Prop :=
  ∀ sw, simRef s = Some sw → num_drones sw = 20%nat ∧ best_ok sw.

(** Every draw lies in [[0, 1)], as [Math.random] promises. *)
Definition unit_draws (g : Rng) : Prop := ∀ k, (0 <= draws g k < 1)%Q.

(** ** Comparison of rationals *)

Lemma Qltb_lt a b : Qltb a b = true ↔ (a < b)%Q.
Proof.
  unfold Qltb. rewrite negb_true_iff. split.
  - intros H. apply Qnot_le_lt. intros Hle. apply Qle_bool_iff in Hle. congruence.
  - intros H. destruct (Qle_bool b a) eqn:E; [|done].
    apply Qle_bool_iff in E. exfalso. by apply (Qlt_not_le a b).
Qed.

(** ** Cells and updates *)

(** The boolean bounds tests, to and from inequalities on integers. *)
Ltac destruct_bounds H :=
  unfold in_bounds, out_of_bounds in H;
  repeat first [apply andb_prop in H as [H ?] | apply orb_false_iff in H as [H ?]].

Ltac solve_bounds :=
  unfold in_bounds, out_of_bounds;
  repeat first [apply andb_true_intro; split | apply orb_false_iff; split];
  lia.

Lemma update_cell_active_fires f x y env :
  active_fires (update_cell f x y env) = active_fires env.
Proof. reflexivity. Qed.

Lemma update_cell_grid_ok f x y env : grid_ok env → grid_ok (update_cell f x y env).
Proof.
  intros [Hh Hw]. split; cbn.
  - by rewrite length_alter.
  - apply Forall_alter; [done|]. intros row _ Hrow. by rewrite length_alter.
Qed.

Lemma cell_at_nonneg env x y c : cell_at env x y = Some c → 0 ≤ x ∧ 0 ≤ y.
Proof.
  unfold cell_at. destruct (0 <=? x) eqn:Hx, (0 <=? y) eqn:Hy; cbn; try done.
  intros _. lia.
Qed.

Lemma cell_at_in_bounds env x y :
  grid_ok env → in_bounds env x y = true → is_Some (cell_at env x y).
Proof.
  intros [Hh Hw] Hb. destruct_bounds Hb. unfold cell_at.
  replace (0 <=? x) with true by (symmetry; lia).
  replace (0 <=? y) with true by (symmetry; lia). cbn.
  destruct (lookup_lt_is_Some_2 (grid env) (Z.to_nat y)) as [row Hrow]; [lia|].
  rewrite Hrow. cbn. apply lookup_lt_is_Some_2.
  rewrite Forall_lookup in Hw. rewrite (Hw _ _ Hrow). lia.
Qed.

Lemma cell_at_Some_in_bounds env x y c :
  grid_ok env → cell_at env x y = Some c → in_bounds env x y = true.
Proof.
  intros [Hh Hw] Hc. pose proof (cell_at_nonneg _ _ _ _ Hc) as [Hx Hy].
  unfold cell_at in Hc.
  replace (0 <=? x) with true in Hc by (symmetry; lia).
  replace (0 <=? y) with true in Hc by (symmetry; lia). cbn in Hc.
  destruct (grid env !! Z.to_nat y) as [row|] eqn:Hrow; [|done]. cbn in Hc.
  apply lookup_lt_Some in Hrow as Hlt. apply lookup_lt_Some in Hc as Hlt'.
  rewrite Forall_lookup in Hw. rewrite (Hw _ _ Hrow) in Hlt'.
  solve_bounds.
Qed.

(** Reading a cell after an assignment to a field of [grid[y][x]]. *)
Lemma cell_at_update_cell f x y env a b :
  0 ≤ x → 0 ≤ y →
  cell_at (update_cell f x y env) a b =
    if decide (a = x ∧ b = y) then f <$> cell_at env a b else cell_at env a b.
Proof.
  intros Hx Hy. unfold cell_at, update_cell. cbn.
  destruct (0 <=? a) eqn:Ha, (0 <=? b) eqn:Hb; cbn;
    try by (case_decide).
  destruct (decide (Z.to_nat b = Z.to_nat y)) as [Hby|Hby].
  - rewrite Hby, list_lookup_alter_eq.
    destruct (grid env !! Z.to_nat y) as [row|]; cbn; [|by case_decide].
    destruct (decide (Z.to_nat a = Z.to_nat x)) as [Hax|Hax].
    + rewrite Hax, list_lookup_alter_eq. rewrite decide_True by lia. done.
    + rewrite list_lookup_alter_ne by done. rewrite decide_False by lia. done.
  - rewrite list_lookup_alter_ne by done. rewrite decide_False by lia. done.
Qed.

Lemma cell_at_update_cell_eq f x y env c :
  cell_at env x y = Some c → cell_at (update_cell f x y env) x y = Some (f c).
Proof.
  intros Hc. pose proof (cell_at_nonneg _ _ _ _ Hc) as [Hx Hy].
  rewrite cell_at_update_cell by done. rewrite decide_True by done.
  by rewrite Hc.
Qed.

Lemma cell_at_update_cell_ne f x y env a b :
  0 ≤ x → 0 ≤ y → (a, b) ≠ (x, y) →
  cell_at (update_cell f x y env) a b = cell_at env a b.
Proof.
  intros Hx Hy Hne. rewrite cell_at_update_cell by done.
  rewrite decide_False; [done|]. intros [-> ->]. done.
Qed.

Lemma cell_at_set_active_fires l env x y :
  cell_at (set_active_fires l env) x y = cell_at env x y.
Proof. reflexivity. Qed.

Lemma burning_at_set_active_fires l env xy :
  burning_at (set_active_fires l env) xy = burning_at env xy.
Proof. reflexivity. Qed.

Lemma set_active_fires_grid_ok l env : grid_ok env → grid_ok (set_active_fires l env).
Proof. done. Qed.

(** ** extinguish_fire_at *)

Lemma extinguish_fire_at_burning x y p t env c :
  in_bounds env x y = true → cell_at env x y = Some c → fire c = true →
  ∃ env',
    extinguish_fire_at x y p t env =
      Some (true, env',
            match t, p with
            | Some t, Some p => Some (t + (travel_time x y p + EXTINGUISH_TIME))%Q
            | _, _ => t
            end) ∧
    width env' = width env ∧ height env' = height env ∧ wind env' = wind env ∧
    cell_at env' x y = Some (suppressed c) ∧
    (∀ a b, (a, b) ≠ (x, y) → cell_at env' a b = cell_at env a b) ∧
    active_fires env' = filter (λ f, f ≠ (x, y)) (active_fires env) ∧
    (grid_ok env → grid_ok env').
Proof.
  intros Hb Hc Hf. pose proof (cell_at_nonneg _ _ _ _ Hc) as [Hx Hy].
  unfold extinguish_fire_at. rewrite Hb, Hc. cbn [mbind option_bind]. rewrite Hf.
  eexists. split; [reflexivity|].
  split; [done|]. split; [done|]. split; [done|].
  split; [|split; [|split]].
  - rewrite cell_at_set_active_fires, !cell_at_update_cell by done.
    rewrite !decide_True by done. rewrite Hc. reflexivity.
  - intros a b Hne.
    by rewrite cell_at_set_active_fires, !cell_at_update_cell_ne.
  - cbn [active_fires set_active_fires]. rewrite !update_cell_active_fires.
    apply list_filter_iff. intros [a b]. cbn.
    destruct (a =? x) eqn:Ha, (b =? y) eqn:Hb'; cbn; split; intros H; try done.
    + apply H. f_equal; lia.
    + intros [=]. lia.
    + intros [=]. lia.
    + intros [=]. lia.
  - intros Hok. apply set_active_fires_grid_ok.
    by repeat apply update_cell_grid_ok.
Qed.

(** ** Invariants of the grid under field assignments *)

Lemma burning_at_update_cell f x y env xy :
  0 ≤ x → 0 ≤ y →
  burning_at (update_cell f x y env) xy =
    if decide (xy = (x, y))
    then match cell_at env x y with Some c => fire (f c) | None => false end
    else burning_at env xy.
Proof.
  intros Hx Hy. destruct xy as [a b]. unfold burning_at. cbn [fst snd].
  rewrite cell_at_update_cell by done.
  destruct (decide (a = x ∧ b = y)) as [[-> ->]|Hne].
  - rewrite decide_True by done. by destruct (cell_at env x y).
  - rewrite decide_False; [done|]. intros [=]. tauto.
Qed.

Lemma burning_at_Some env xy :
  burning_at env xy = true ↔ ∃ c, cell_at env xy.1 xy.2 = Some c ∧ fire c = true.
Proof.
  unfold burning_at. destruct (cell_at env xy.1 xy.2) as [c|]; split.
  - intros H. by exists c.
  - by intros (c' & [= <-] & H).
  - done.
  - by intros (c' & [=] & _).
Qed.

Lemma keeps_flags_set_fire_cooldown n : keeps_flags (set_fire_cooldown n).
Proof. by intros c. Qed.

Lemma keeps_flags_set_extinguished_by_drone b :
  keeps_flags (set_extinguished_by_drone b).
Proof. by intros c. Qed.

Lemma burning_at_keeps_flags f x y env xy :
  0 ≤ x → 0 ≤ y → keeps_flags f →
  burning_at (update_cell f x y env) xy = burning_at env xy.
Proof.
  intros Hx Hy Hf. rewrite burning_at_update_cell by done.
  case_decide as Heq; [|done]. subst xy. unfold burning_at. cbn [fst snd].
  destruct (cell_at env x y) as [c|]; [|done]. apply Hf.
Qed.

Lemma water_dry_update_cell f x y env :
  0 ≤ x → 0 ≤ y → water_dry env →
  (∀ c, cell_at env x y = Some c → water (f c) = true →
        tree (f c) = false ∧ fire (f c) = false ∧ burnt (f c) = false) →
  water_dry (update_cell f x y env).
Proof.
  intros Hx Hy Hdry Hf a b c. rewrite cell_at_update_cell by done.
  case_decide as Heq; [|apply Hdry]. destruct Heq as [-> ->].
  destruct (cell_at env x y) as [c0|] eqn:Hc0; [|done].
  intros [= <-]. by apply Hf.
Qed.

Lemma water_dry_keeps_flags f x y env :
  0 ≤ x → 0 ≤ y → keeps_flags f → water_dry env →
  water_dry (update_cell f x y env).
Proof.
  intros Hx Hy Hf Hdry. apply water_dry_update_cell; [done..|].
  intros c Hc. destruct (Hf c) as (-> & -> & -> & ->). by apply Hdry in Hc.
Qed.

Lemma same_terrain_refl env : same_terrain env env.
Proof. by repeat split. Qed.

Lemma same_terrain_trans e1 e2 e3 :
  same_terrain e1 e2 → same_terrain e2 e3 → same_terrain e1 e3.
Proof.
  intros (? & ? & ? & H12) (? & ? & ? & H23). repeat split; congruence.
Qed.

Lemma same_terrain_update_cell f x y env :
  0 ≤ x → 0 ≤ y →
  (∀ c, water (f c) = water c ∧ elevation (f c) = elevation c) →
  same_terrain env (update_cell f x y env).
Proof.
  intros Hx Hy Hf. repeat split. intros a b. rewrite cell_at_update_cell by done.
  case_decide; [|done]. destruct (cell_at env a b) as [c|]; [|done]. cbn.
  by destruct (Hf c) as [-> ->].
Qed.

Lemma same_terrain_set_active_fires l env : same_terrain env (set_active_fires l env).
Proof. by repeat split. Qed.

Lemma same_terrain_is_Some env env' x y :
  same_terrain env env' → is_Some (cell_at env x y) → is_Some (cell_at env' x y).
Proof.
  intros (_ & _ & _ & H) [c Hc]. specialize (H x y). rewrite Hc in H.
  destruct (cell_at env' x y); [done|]. done.
Qed.

(** ** spread_fire preserves the invariants *)

Lemma Permutation_snoc_middle {A} (a : A) l1 l2 l3 :
  l1 ++ (l2 ++ [a]) ++ l3 ≡ₚ a :: l1 ++ l2 ++ l3.
Proof. rewrite <- !app_assoc. cbn. by rewrite <- !Permutation_middle. Qed.

Lemma Permutation_snoc_front {A} (a : A) l1 l2 l3 :
  (l1 ++ [a]) ++ l2 ++ l3 ≡ₚ l1 ++ l2 ++ a :: l3.
Proof. rewrite <- !app_assoc. cbn. by rewrite <- !Permutation_middle. Qed.

Lemma ignitable_not_burning c : ignitable c = true → fire c = false ∧ water c = false.
Proof.
  unfold ignitable. destruct (tree c), (fire c), (burnt c), (water c); by cbn.
Qed.

Lemma try_spread_inv x y dx dy rest st :
  spread_inv rest st → is_Some (cell_at (sp_env st) x y) →
  ∃ st', try_spread x y dx dy st = Some st' ∧ spread_inv rest st' ∧
         same_terrain (sp_env st) (sp_env st') ∧
         still_active st' = still_active st ∧
         active_fires (sp_env st') = active_fires (sp_env st).
Proof.
  intros Hinv [cell Hcell]. pose proof Hinv as (Hok & Hdry & Hnd & Hin).
  assert (Hskip : ∃ st', Some st = Some st' ∧ spread_inv rest st' ∧
                    same_terrain (sp_env st) (sp_env st') ∧
                    still_active st' = still_active st ∧
                    active_fires (sp_env st') = active_fires (sp_env st)).
  { exists st. split; [done|]. split; [done|]. split; [apply same_terrain_refl|done]. }
  unfold try_spread.
  destruct ((dx =? 0) && (dy =? 0)); [done|].
  destruct (in_bounds (sp_env st) (x + dx) (y + dy)) eqn:Hb; [|done].
  destruct (cell_at_in_bounds _ _ _ Hok Hb) as [ncell Hn].
  pose proof (cell_at_nonneg _ _ _ _ Hn) as [Hx Hy].
  rewrite Hcell, Hn. cbn [mbind option_bind].
  destruct (ignitable ncell) eqn:Hi; [|done].
  destruct (ignitable_not_burning _ Hi) as [Hfire Hwater].
  unfold random. cbn [fst snd].
  destruct (Qltb _ _).
  2:{ eexists. split; [reflexivity|]. split; [done|].
      split; [apply same_terrain_refl|done]. }
  eexists. split; [reflexivity|]. cbn [sp_env new_fires still_active].
  assert (Hnotin : (x + dx, y + dy) ∉ pending st rest).
  { rewrite Hin. unfold burning_at. cbn [fst snd]. rewrite Hn, Hfire. done. }
  split; [|split; [|done]].
  - split; [by repeat apply update_cell_grid_ok|].
    split; [|split].
    + apply water_dry_keeps_flags; [done..|apply keeps_flags_set_fire_cooldown|].
      apply water_dry_update_cell; [done..|].
      intros c. rewrite Hn. intros [= <-]. cbn. congruence.
    + unfold pending. cbn [sp_env new_fires still_active].
      rewrite Permutation_snoc_middle. by apply NoDup_cons.
    + intros xy. unfold pending. cbn [sp_env new_fires still_active].
      rewrite Permutation_snoc_middle, elem_of_cons.
      rewrite burning_at_keeps_flags
        by (try done; apply keeps_flags_set_fire_cooldown).
      rewrite burning_at_update_cell by done. rewrite Hn. cbn.
      case_decide as Heq.
      * tauto.
      * rewrite <- Hin. unfold pending. tauto.
  - eapply same_terrain_trans; apply same_terrain_update_cell; done.
Qed.

Lemma spread_neighbours_inv x y ds rest st :
  spread_inv rest st → is_Some (cell_at (sp_env st) x y) →
  ∃ st', spread_neighbours x y ds st = Some st' ∧ spread_inv rest st' ∧
         same_terrain (sp_env st) (sp_env st') ∧
         still_active st' = still_active st ∧
         active_fires (sp_env st') = active_fires (sp_env st).
Proof.
  revert st. induction ds as [|[dx dy] ds IH]; intros st Hinv Hc.
  { exists st. split; [done|]. split; [done|]. split; [apply same_terrain_refl|done]. }
  destruct (try_spread_inv x y dx dy rest st Hinv Hc)
    as (st1 & Hrun1 & Hinv1 & Hter1 & Hst1 & Haf1).
  destruct (IH st1 Hinv1) as (st2 & Hrun2 & Hinv2 & Hter2 & Hst2 & Haf2).
  { by eapply same_terrain_is_Some. }
  exists st2. cbn. rewrite Hrun1. cbn. rewrite Hrun2.
  split; [done|]. split; [done|]. split; [by eapply same_terrain_trans|].
  split; congruence.
Qed.

Lemma spread_inv_keeps_flags f x y rest env nf sa g g' :
  0 ≤ x → 0 ≤ y → keeps_flags f →
  spread_inv rest (mkSpread env nf sa g) →
  spread_inv rest (mkSpread (update_cell f x y env) nf sa g').
Proof.
  intros Hx Hy Hf (Hok & Hdry & Hnd & Hin).
  split; [by apply update_cell_grid_ok|].
  split; [by apply water_dry_keeps_flags|]. split; [done|].
  intros xy. cbn [sp_env]. rewrite burning_at_keeps_flags by done. apply Hin.
Qed.

(** The natural burn-out of lines 82-84 at a burning cell. *)
Lemma spread_inv_burnout x y rest env nf sa g g' :
  spread_inv ((x, y) :: rest) (mkSpread env nf sa g) →
  spread_inv rest
    (mkSpread (update_cell (set_extinguished_by_drone false) x y
                 (update_cell (set_burnt true) x y
                    (update_cell (set_fire false) x y env))) nf sa g').
Proof.
  intros (Hok & Hdry & Hnd & Hin). cbn [sp_env] in *.
  assert (Hperm : pending (mkSpread env nf sa g) ((x, y) :: rest)
                  ≡ₚ (x, y) :: pending (mkSpread env nf sa g') rest).
  { unfold pending. cbn. by rewrite <- !Permutation_middle. }
  rewrite Hperm in Hnd. apply NoDup_cons in Hnd as [Hnotin Hnd].
  assert (Hburn : burning_at env (x, y) = true).
  { apply Hin. rewrite Hperm. apply elem_of_cons. by left. }
  apply burning_at_Some in Hburn as (c & Hc & Hfire). cbn [fst snd] in Hc.
  pose proof (cell_at_nonneg _ _ _ _ Hc) as [Hx Hy].
  assert (Hw : water c = false).
  { destruct (water c) eqn:Hw; [|done]. apply Hdry in Hc as (_ & Hf & _); congruence. }
  split; [by repeat apply update_cell_grid_ok|]. split; [|split].
  - apply water_dry_keeps_flags;
      [done..|apply keeps_flags_set_extinguished_by_drone|].
    apply water_dry_update_cell; [done..| |].
    + apply water_dry_update_cell; [done..|].
      intros c0 Hc0 Hw0. cbn in Hw0. apply Hdry in Hc0 as (? & ? & ?); done.
    + intros c0. rewrite cell_at_update_cell_eq with (c := c) by done.
      intros [= <-]. cbn. congruence.
  - done.
  - intros xy. cbn [sp_env].
    rewrite burning_at_keeps_flags
      by (try done; apply keeps_flags_set_extinguished_by_drone).
    rewrite burning_at_update_cell by done.
    rewrite cell_at_update_cell_eq with (c := c) by done.
    rewrite burning_at_update_cell by done. rewrite Hc.
    cbn [fire set_burnt set_fire].
    case_decide as Heq.
    + subst xy. split; done.
    + rewrite <- Hin, Hperm, elem_of_cons. tauto.
Qed.

Lemma spread_inv_still_active x y rest env nf sa g :
  spread_inv ((x, y) :: rest) (mkSpread env nf sa g) →
  spread_inv rest (mkSpread env nf (sa ++ [(x, y)]) g).
Proof.
  intros (Hok & Hdry & Hnd & Hin). split; [done|]. split; [done|].
  assert (Hperm : pending (mkSpread env nf (sa ++ [(x, y)]) g) rest
                  ≡ₚ pending (mkSpread env nf sa g) ((x, y) :: rest)).
  { unfold pending. cbn. apply Permutation_snoc_front. }
  split; [by rewrite Hperm|]. intros xy. rewrite Hperm. apply Hin.
Qed.

Lemma spread_from_inv xy rest st :
  spread_inv (xy :: rest) st →
  ∃ st', spread_from xy st = Some st' ∧ spread_inv rest st' ∧
         same_terrain (sp_env st) (sp_env st') ∧
         active_fires (sp_env st') = active_fires (sp_env st).
Proof.
  destruct xy as [x y]. destruct st as [env nf sa g]. intros Hinv.
  pose proof Hinv as (Hok & Hdry & Hnd & Hin). cbn [sp_env] in *.
  assert (Hburn : burning_at env (x, y) = true).
  { apply Hin. unfold pending. cbn. rewrite !elem_of_app, elem_of_cons. tauto. }
  apply burning_at_Some in Hburn as (c & Hc & Hfire). cbn [fst snd] in Hc.
  pose proof (cell_at_nonneg _ _ _ _ Hc) as [Hx Hy].
  unfold spread_from. cbn [sp_env sp_rng new_fires still_active].
  rewrite Hc. cbn [mbind option_bind].
  set (env1 := if 0 <? fire_cooldown c
               then update_cell (set_fire_cooldown (fire_cooldown c - 1)) x y env
               else env).
  assert (Hinv1 : ∀ g', spread_inv ((x, y) :: rest) (mkSpread env1 nf sa g')).
  { intros g'. subst env1. destruct (0 <? fire_cooldown c); [|done].
    apply (spread_inv_keeps_flags _ x y _ env nf sa g);
      [done..|apply keeps_flags_set_fire_cooldown|done]. }
  assert (Hter1 : same_terrain env env1).
  { subst env1. destruct (0 <? fire_cooldown c); [|apply same_terrain_refl].
    by apply same_terrain_update_cell. }
  assert (Haf1 : active_fires env1 = active_fires env).
  { subst env1. by destruct (0 <? fire_cooldown c). }
  destruct (same_terrain_is_Some env env1 x y Hter1) as [c1 Hc1]; [done|].
  clearbody env1. unfold random. cbn [fst snd].
  destruct (Qltb _ 0.03).
  { eexists. split; [reflexivity|].
    split; [apply (spread_inv_burnout x y rest env1 nf sa g), Hinv1|].
    split; [|done]. cbn [sp_env].
    eapply same_terrain_trans; [exact Hter1|].
    eapply same_terrain_trans; [|by apply same_terrain_update_cell].
    eapply same_terrain_trans; by apply same_terrain_update_cell. }
  rewrite Hc1. cbn [mbind option_bind].
  destruct (fire_cooldown c1 =? 0).
  - destruct (spread_neighbours_inv x y offsets ((x, y) :: rest)
                (mkSpread env1 nf sa (mkRng (draws g) (S (cursor g)))))
      as (st2 & Hrun2 & Hinv2 & Hter2 & Hsa2 & Haf2); [done|by cbn|].
    rewrite Hrun2. cbn [mbind option_bind sp_env new_fires still_active sp_rng] in *.
    eexists. split; [reflexivity|]. destruct st2 as [env2 nf2 sa2 g2].
    cbn [sp_env new_fires still_active sp_rng] in *. subst sa2.
    split; [|split].
    + apply spread_inv_still_active.
      apply (spread_inv_keeps_flags _ x y _ env2 nf2 sa g2);
        [done..|apply keeps_flags_set_fire_cooldown|done].
    + eapply same_terrain_trans; [exact Hter1|].
      eapply same_terrain_trans; [exact Hter2|]. by apply same_terrain_update_cell.
    + cbn. congruence.
  - cbn [mbind option_bind sp_env new_fires still_active sp_rng].
    eexists. split; [reflexivity|]. split; [|done].
    by apply spread_inv_still_active.
Qed.

Lemma spread_loop_inv fs st :
  spread_inv fs st →
  ∃ st', spread_loop fs st = Some st' ∧ spread_inv [] st' ∧
         same_terrain (sp_env st) (sp_env st') ∧
         active_fires (sp_env st') = active_fires (sp_env st).
Proof.
  revert st. induction fs as [|xy fs IH]; intros st Hinv.
  { exists st. split; [done|]. split; [done|]. split; [apply same_terrain_refl|done]. }
  destruct (spread_from_inv xy fs st Hinv) as (st1 & Hrun1 & Hinv1 & Hter1 & Haf1).
  destruct (IH st1 Hinv1) as (st2 & Hrun2 & Hinv2 & Hter2 & Haf2).
  exists st2. cbn. rewrite Hrun1. cbn. split; [done|]. split; [done|].
  split; [by eapply same_terrain_trans|congruence].
Qed.

Lemma filter_all {A} (P : A → Prop) `{∀ x, Decision (P x)} (l : list A) :
  Forall P l → filter P l = l.
Proof.
  induction 1 as [|x l Hx _ IH]; [done|]. by rewrite filter_cons_True, IH.
Qed.

Lemma spread_fire_inv env g :
  env_inv env →
  ∃ env' g', spread_fire env g = Some (env', g') ∧ env_inv env' ∧
             same_terrain env env'.
Proof.
  intros (Hok & [Hnd Hin] & Hdry).
  destruct (spread_loop_inv (active_fires env) (mkSpread env [] [] g))
    as ([env1 nf sa g1] & Hrun & (Hok1 & Hdry1 & Hnd1 & Hin1) & Hter & _).
  { split; [done|]. split; [done|]. split; [done|]. done. }
  unfold pending in *. cbn [sp_env new_fires still_active sp_rng] in *.
  rewrite app_nil_r in Hnd1. setoid_rewrite app_nil_r in Hin1.
  unfold spread_fire. rewrite Hrun. cbn [mbind option_bind sp_env new_fires still_active sp_rng].
  eexists _, _. split; [reflexivity|].
  rewrite filter_all.
  2:{ apply Forall_forall. intros xy Hxy. apply Is_true_true, Hin1.
      apply elem_of_app. by left. }
  split; [|by eapply same_terrain_trans; [exact Hter|apply same_terrain_set_active_fires]].
  split; [done|]. split; [|done]. split; [done|]. intros xy. apply Hin1.
Qed.

(** ** ignite and extinguish_fire_at preserve the invariants *)

Lemma extinguish_fire_at_idle x y p t env :
  (in_bounds env x y = false ∨ ∃ c, cell_at env x y = Some c ∧ fire c = false) →
  extinguish_fire_at x y p t env = Some (false, env, t).
Proof.
  intros [Hb | (c & Hc & Hf)]; unfold extinguish_fire_at.
  - by rewrite Hb.
  - destruct (in_bounds env x y); [|done]. rewrite Hc. cbn. by rewrite Hf.
Qed.

Lemma ignite_inv x y env :
  env_inv env →
  ∃ env', ignite x y env = Some env' ∧ env_inv env' ∧ same_terrain env env'.
Proof.
  intros Hinv. pose proof Hinv as (Hok & [Hnd Hin] & Hdry).
  assert (Hskip : ∃ env', Some env = Some env' ∧ env_inv env' ∧ same_terrain env env').
  { exists env. split; [done|]. split; [done|apply same_terrain_refl]. }
  unfold ignite. destruct (in_bounds env x y) eqn:Hb; [|done].
  destruct (cell_at_in_bounds _ _ _ Hok Hb) as [c Hc].
  pose proof (cell_at_nonneg _ _ _ _ Hc) as [Hx Hy].
  rewrite Hc. cbn [mbind option_bind].
  destruct (ignitable c) eqn:Hi; [|done].
  destruct (ignitable_not_burning _ Hi) as [Hfire Hwater].
  eexists. split; [reflexivity|].
  assert (Hnotin : (x, y) ∉ active_fires env).
  { rewrite Hin. unfold burning_at. cbn [fst snd]. rewrite Hc, Hfire. done. }
  split; [split; [|split]|].
  - apply set_active_fires_grid_ok. by repeat apply update_cell_grid_ok.
  - split; cbn [active_fires set_active_fires]; rewrite !update_cell_active_fires.
    + apply NoDup_app. split; [done|]. split; [|apply NoDup_singleton].
      intros xy Hxy ->%list_elem_of_singleton. done.
    + intros xy. rewrite burning_at_set_active_fires.
      rewrite burning_at_keeps_flags
        by (try done; apply keeps_flags_set_fire_cooldown).
      rewrite burning_at_update_cell by done. rewrite Hc.
      rewrite elem_of_app, list_elem_of_singleton, Hin.
      cbn [fire set_fire]. case_decide; tauto.
  - intros a b c'. rewrite cell_at_set_active_fires. revert a b c'.
    apply water_dry_keeps_flags; [done..|apply keeps_flags_set_fire_cooldown|].
    apply water_dry_update_cell; [done..|].
    intros c'. rewrite Hc. intros [= <-]. cbn. congruence.
  - eapply same_terrain_trans; [|apply same_terrain_set_active_fires].
    eapply same_terrain_trans; by apply same_terrain_update_cell.
Qed.

Lemma extinguish_fire_at_inv x y p t env :
  env_inv env →
  ∃ ok env' t', extinguish_fire_at x y p t env = Some (ok, env', t') ∧
                env_inv env' ∧ same_terrain env env'.
Proof.
  intros Hinv. pose proof Hinv as (Hok & [Hnd Hin] & Hdry).
  destruct (in_bounds env x y) eqn:Hb.
  2:{ exists false, env, t. split; [apply extinguish_fire_at_idle; by left|].
      split; [done|apply same_terrain_refl]. }
  destruct (cell_at_in_bounds _ _ _ Hok Hb) as [c Hc].
  destruct (fire c) eqn:Hfire.
  2:{ exists false, env, t. split; [apply extinguish_fire_at_idle; right; by exists c|].
      split; [done|apply same_terrain_refl]. }
  destruct (extinguish_fire_at_burning x y p t env c Hb Hc Hfire)
    as (env' & Hrun & Hw & Hh & Hwind & Hcell & Hother & Hfires & Hok').
  exists true, env'. eexists. split; [exact Hrun|].
  assert (Hwater : water c = false).
  { destruct (water c) eqn:Hw'; [|done].
    apply Hdry in Hc as (_ & Hf & _); congruence. }
  assert (Hburn : ∀ xy, burning_at env' xy = true ↔ xy ≠ (x, y) ∧ burning_at env xy = true).
  { intros [a b]. unfold burning_at. cbn [fst snd].
    destruct (decide ((a, b) = (x, y))) as [[= -> ->]|Hne].
    - rewrite Hcell. cbn. split; [done|]. by intros [? _].
    - rewrite Hother by done. tauto. }
  split; [split; [|split]|].
  - by apply Hok'.
  - split; rewrite Hfires.
    + by apply NoDup_filter.
    + intros xy. rewrite list_elem_of_filter, Hburn, Hin. done.
  - intros a b c'. destruct (decide ((a, b) = (x, y))) as [[= -> ->]|Hne].
    + rewrite Hcell. intros [= <-]. cbn. congruence.
    + rewrite Hother by done. apply Hdry.
  - split; [done|]. split; [done|]. split; [done|]. intros a b.
    destruct (decide ((a, b) = (x, y))) as [[= -> ->]|Hne].
    + rewrite Hcell, Hc. done.
    + by rewrite Hother.
Qed.

(** ** Counting the burning cells *)

Lemma length_filter_bind {A B} (P : B → Prop) `{∀ b, Decision (P b)}
    (k : A → list B) (l : list A) :
  length (filter P (l ≫= k)) = sum_list ((λ a, length (filter P (k a))) <$> l).
Proof.
  induction l as [|a l IH]; [done|].
  rewrite bind_cons, filter_app, length_app, IH. done.
Qed.

Lemma length_filter_concat {A} (P : A → Prop) `{∀ a, Decision (P a)}
    (ls : list (list A)) :
  length (filter P (concat ls)) = sum_list ((λ l, length (filter P l)) <$> ls).
Proof.
  induction ls as [|l ls IH]; [done|].
  cbn [concat]. rewrite filter_app, length_app, IH. done.
Qed.

Lemma length_filter_fmap_Some {A B} (f : A → option B)
    (P : A → Prop) `{∀ a, Decision (P a)} (Q : B → Prop) `{∀ b, Decision (Q b)}
    (l : list A) (l' : list B) :
  f <$> l = Some <$> l' → (∀ a b, f a = Some b → (P a ↔ Q b)) →
  length (filter P l) = length (filter Q l').
Proof.
  intros Hl HPQ. revert l' Hl. induction l as [|a l IH]; intros [|b l']; try done.
  rewrite !fmap_cons. intros [= Hab Hl]. specialize (IH _ Hl).
  rewrite !filter_cons. destruct (HPQ _ _ Hab) as [H1 H2].
  destruct (decide (P a)), (decide (Q b)); cbn; try tauto; by rewrite IH.
Qed.

Lemma row_cells env y row :
  grid_ok env → 0 ≤ y → grid env !! Z.to_nat y = Some row →
  (λ x, cell_at env x y) <$> seqZ 0 (width env) = Some <$> row.
Proof.
  intros [Hh Hw] Hy Hrow. rewrite Forall_lookup in Hw. specialize (Hw _ _ Hrow).
  apply list_eq. intros i. rewrite !list_lookup_fmap.
  destruct (decide (Z.of_nat i < width env)) as [Hi|Hi].
  - rewrite lookup_seqZ_lt by done. cbn. unfold cell_at.
    replace (0 <=? 0 + Z.of_nat i) with true by (symmetry; lia).
    replace (0 <=? y) with true by (symmetry; lia). cbn. rewrite Hrow. cbn.
    replace (Z.to_nat (0 + Z.of_nat i)) with i by lia.
    destruct (lookup_lt_is_Some_2 row i) as [c Hc]; [lia|]. by rewrite Hc.
  - rewrite lookup_seqZ_ge by lia. rewrite lookup_ge_None_2; [done|lia].
Qed.

Lemma count_coords env :
  grid_ok env →
  length (filter (λ xy, burning_at env xy) (coords env)) = count_burning env.
Proof.
  intros Hok. unfold coords, count_burning.
  rewrite length_filter_bind, length_filter_concat. f_equal.
  destruct Hok as [Hh Hw]. apply list_eq. intros i. rewrite !list_lookup_fmap.
  destruct (decide (Z.of_nat i < height env)) as [Hi|Hi].
  - rewrite lookup_seqZ_lt by done.
    destruct (lookup_lt_is_Some_2 (grid env) i) as [row Hrow]; [lia|].
    rewrite Hrow. cbn. f_equal.
    apply (length_filter_fmap_Some (λ xy, cell_at env xy.1 xy.2)).
    + rewrite <- list_fmap_compose.
      rewrite <- (row_cells env (Z.of_nat i) row); [done|done|lia|].
      by rewrite Nat2Z.id.
    + intros xy c Hc. unfold burning_at. by rewrite Hc.
  - rewrite lookup_seqZ_ge by lia. rewrite lookup_ge_None_2; [done|lia].
Qed.

Lemma NoDup_coords env : NoDup (coords env).
Proof.
  unfold coords. apply NoDup_bind; [| |apply NoDup_seqZ].
  - intros y1 y2 [a b] _ _.
    rewrite !list_elem_of_fmap. intros (? & [= _ ->] & _) (? & [= _ ->] & _). done.
  - intros y _. apply NoDup_fmap_2; [|apply NoDup_seqZ]. by intros ?? [=].
Qed.

Lemma elem_of_coords env x y : (x, y) ∈ coords env ↔ in_bounds env x y = true.
Proof.
  unfold coords, in_bounds. rewrite list_elem_of_bind. split.
  - intros (y' & (x' & [= -> ->] & Hx)%list_elem_of_fmap & Hy).
    apply elem_of_seqZ in Hx, Hy. solve_bounds.
  - intros H. destruct_bounds H.
    exists y. rewrite list_elem_of_fmap, !elem_of_seqZ.
    split; [exists x; split; [done|]|]; rewrite elem_of_seqZ + idtac; lia.
Qed.

Lemma active_fires_count env :
  grid_ok env → fires_ok env →
  length (active_fires env) = count_burning env.
Proof.
  intros Hok [Hnd Hin]. rewrite <- count_coords by done.
  apply Permutation_length, NoDup_Permutation; [done| |].
  - apply NoDup_filter, NoDup_coords.
  - intros [x y]. rewrite list_elem_of_filter, Hin, elem_of_coords.
    rewrite Is_true_true. split; [|tauto]. intros Hb. split; [done|].
    apply burning_at_Some in Hb as (c & Hc & _).
    by eapply cell_at_Some_in_bounds.
Qed.

(** ** Loops over the drones *)

Lemma for_drones_app {St} (body : nat → St → option St) l1 l2 s :
  for_drones body (l1 ++ l2) s = for_drones body l1 s ≫= for_drones body l2.
Proof.
  revert s. induction l1 as [|i l1 IH]; intros s; [done|].
  cbn. destruct (body i s) as [s'|]; [apply IH|done].
Qed.

(** Partial-correctness rule: [I k] holds before iteration [k]. *)
Lemma for_drones_seq_rule {St} (I : nat → St → Prop) (body : nat → St → option St) n s s' :
  I 0%nat s →
  (∀ k s s', (k < n)%nat → I k s → body k s = Some s' → I (S k) s') →
  for_drones body (seq 0 n) s = Some s' → I n s'.
Proof.
  intros H0 Hstep. revert s'. induction n as [|n IH]; intros s'.
  { intros [= <-]. done. }
  rewrite seq_S, for_drones_app. cbn.
  destruct (for_drones body (seq 0 n) s) as [s1|] eqn:Hrun; [|done]. cbn.
  destruct (body n s1) as [s2|] eqn:Hbody; [|done]. cbn. intros [= <-].
  apply (Hstep n s1); [lia| |done]. apply IH; [|done].
  intros k a b Hk. apply Hstep. lia.
Qed.

(** Total-correctness rule: every iteration returns. *)
Lemma for_drones_seq_total {St} (I : nat → St → Prop) (body : nat → St → option St) n s :
  I 0%nat s →
  (∀ k s, (k < n)%nat → I k s → ∃ s', body k s = Some s' ∧ I (S k) s') →
  ∃ s', for_drones body (seq 0 n) s = Some s' ∧ I n s'.
Proof.
  intros H0 Hstep. induction n as [|n IH].
  { by exists s. }
  destruct IH as (s1 & Hrun & H1). { intros k a Hk. apply Hstep. lia. }
  destruct (Hstep n s1) as (s2 & Hbody & H2); [lia|done|].
  exists s2. rewrite seq_S, for_drones_app, Hrun. cbn. by rewrite Hbody.
Qed.

(** ** The order on fitness values *)

Lemma num_ltb_trans a b c :
  num_ltb a b = true → num_ltb b c = true → num_ltb a c = true.
Proof.
  destruct a as [x|], b as [y|], c as [z|]; cbn; try done.
  rewrite !Qltb_lt. apply Qlt_trans.
Qed.

Lemma not_above_refl a : not_above a a.
Proof. by left. Qed.

Lemma not_above_trans a b c : not_above a b → not_above b c → not_above a c.
Proof.
  intros [->|Hab] [->|Hbc]; [by left|by right|by right|].
  right. by eapply num_ltb_trans.
Qed.

(** ** step: the three loops *)

(** ** The suppression pass *)

Lemma successes_nil i : successes i [] = 0.
Proof. done. Qed.

Lemma successes_app i l1 l2 : successes i (l1 ++ l2) = successes i l1 + successes i l2.
Proof. unfold successes. rewrite filter_app, length_app. lia. Qed.

Lemma successes_nonneg i l : 0 ≤ successes i l.
Proof. unfold successes. lia. Qed.

Lemma same_flight_refl sw : same_flight sw sw.
Proof. by repeat split. Qed.

Lemma same_flight_trans a b c : same_flight a b → same_flight b c → same_flight a c.
Proof.
  intros (? & ? & ? & ? & ? & ? & ? & ? & ? & ? & ? & ?)
         (? & ? & ? & ? & ? & ? & ? & ? & ? & ? & ? & ?).
  repeat split; congruence.
Qed.

Lemma extinguish_fire_at_terrain x y p t env ok env' t' :
  extinguish_fire_at x y p t env = Some (ok, env', t') →
  same_terrain env env' ∧ (env_inv env → env_inv env').
Proof.
  intros Hrun. split.
  - destruct (in_bounds env x y) eqn:Hb.
    2:{ rewrite extinguish_fire_at_idle in Hrun by (by left).
        injection Hrun as <- <- <-. apply same_terrain_refl. }
    destruct (cell_at env x y) as [c|] eqn:Hc.
    2:{ unfold extinguish_fire_at in Hrun. by rewrite Hb, Hc in Hrun. }
    destruct (fire c) eqn:Hfire.
    2:{ rewrite extinguish_fire_at_idle in Hrun by (right; by exists c).
        injection Hrun as <- <- <-. apply same_terrain_refl. }
    destruct (extinguish_fire_at_burning x y p t env c Hb Hc Hfire)
      as (env1 & Hrun1 & Hw & Hh & Hwind & Hcell & Hother & _).
    rewrite Hrun1 in Hrun. injection Hrun as _ <- _.
    split; [done|]. split; [done|]. split; [done|]. intros a b.
    destruct (decide ((a, b) = (x, y))) as [[= -> ->]|Hne].
    + by rewrite Hcell, Hc.
    + by rewrite Hother.
  - intros Hinv. destruct (extinguish_fire_at_inv x y p t env Hinv)
      as (ok1 & env1 & t1 & Hrun1 & Hinv1 & _).
    rewrite Hrun1 in Hrun. by injection Hrun as _ <- _.
Qed.

Lemma scan_post_refl i x y st w :
  water_left (su_swarm st) !! i = Some w → scan_post i x y st st.
Proof.
  intros Hw. exists w, []. rewrite successes_nil, app_nil_r, Z.sub_0_r, !Z.add_0_r.
  rewrite list_insert_id by done.
  split; [done|]. split; [done|]. split; [done|].
  split; [apply same_flight_refl|]. split; [done|]. split; [done|].
  split; [done|]. split; [done|]. split; [lia|]. split; [lia|].
  split; [apply same_terrain_refl|done].
Qed.

Lemma scan_post_trans i x y st1 st2 st3 :
  scan_post i x y st1 st2 → scan_post i x y st2 st3 → scan_post i x y st1 st3.
Proof.
  intros (w1 & new1 & Hw1 & Hc1 & Hf1 & Hs1 & Hwl1 & Hrt1 & Hl1 & Hn1 & Hm1 & Hb1 & Ht1 & Hi1)
         (w2 & new2 & Hw2 & Hc2 & Hf2 & Hs2 & Hwl2 & Hrt2 & Hl2 & Hn2 & Hm2 & Hb2 & Ht2 & Hi2).
  assert (w2 = w1 - successes i new1) as ->.
  { rewrite Hwl1 in Hw2. apply lookup_lt_Some in Hw1.
    rewrite list_lookup_insert_eq in Hw2 by done. congruence. }
  exists w1, (new1 ++ new2). rewrite successes_app.
  split; [done|]. split; [by rewrite Hc2, Hc1, app_assoc|].
  split; [by apply Forall_app|]. split; [by eapply same_flight_trans|].
  split; [rewrite Hwl2, Hwl1, list_insert_insert_eq; f_equal; lia|].
  split; [congruence|]. split; [lia|]. split; [lia|]. split; [lia|]. split; [lia|].
  split; [by eapply same_terrain_trans|tauto].
Qed.

Lemma scan_cell_post i x y dx dy st brk st' :
  scan_cell i x y dx dy st = Some (brk, st') → scan_post i x y st st'.
Proof.
  unfold scan_cell.
  destruct (water_left (su_swarm st) !! i) as [w|] eqn:Hw; [|done]. cbn.
  destruct ((3 <=? extinguished_local st) || (w <=? 0)) eqn:Hbrk.
  { intros [= _ <-]. by eapply scan_post_refl. }
  apply orb_false_iff in Hbrk as [Hl3%Z.leb_gt Hw0%Z.leb_gt].
  destruct (extinguish_fire_at _ _ _ _ _) as [[[ok env'] t']|] eqn:Hrun; [|done].
  cbn. apply extinguish_fire_at_terrain in Hrun as [Hter Hinv].
  destruct ok; intros [= _ <-]; unfold scan_post;
    cbn [su_calls su_swarm su_env extinguished_local extinguished_count].
  - exists w, [mkCall i (x + dx, y + dy) (x, y) true].
    assert (Hk : successes i [mkCall i (x + dx, y + dy) (x, y) true] = 1).
    { unfold successes. rewrite filter_cons_True; done. }
    rewrite Hk. split; [done|]. split; [done|].
    split; [by repeat constructor|].
    split; [repeat split; cbn; by rewrite ?length_insert|].
    split; [done|]. split; [done|]. split; [done|]. split; [done|].
    split; [lia|]. split; [lia|]. done.
  - exists w, [mkCall i (x + dx, y + dy) (x, y) false].
    assert (Hk : successes i [mkCall i (x + dx, y + dy) (x, y) false] = 0).
    { unfold successes. rewrite filter_cons_False; [done|]. by intros [_ ?]. }
    rewrite Hk, Z.sub_0_r, !Z.add_0_r. rewrite list_insert_id by done.
    split; [done|]. split; [done|].
    split; [by repeat constructor|].
    split; [apply same_flight_refl|].
    split; [done|]. split; [done|]. split; [done|]. split; [done|].
    split; [lia|]. split; [lia|]. done.
Qed.

Lemma scan_column_post i x y dx dys st st' w :
  water_left (su_swarm st) !! i = Some w →
  scan_column i x y dx dys st = Some st' → scan_post i x y st st'.
Proof.
  revert st w. induction dys as [|dy dys IH]; intros st w Hw.
  { intros [= <-]. by eapply scan_post_refl. }
  cbn. destruct (scan_cell i x y dx dy st) as [[brk st1]|] eqn:Hcell; [|done].
  cbn. apply scan_cell_post in Hcell. destruct brk.
  - by intros [= <-].
  - intros Hrest. eapply scan_post_trans; [exact Hcell|].
    destruct Hcell as (w1 & new & Hw1 & _ & _ & _ & Hwl & _).
    eapply IH; [|exact Hrest]. rewrite Hwl.
    apply list_lookup_insert_eq. by eapply lookup_lt_Some.
Qed.

Lemma scan_neighbourhood_cons i x y dx dxs st :
  scan_neighbourhood i x y (dx :: dxs) st
    = scan_column i x y dx [-1; 0; 1] st ≫= scan_neighbourhood i x y dxs.
Proof. reflexivity. Qed.

Lemma scan_neighbourhood_post i x y dxs st st' w :
  water_left (su_swarm st) !! i = Some w →
  scan_neighbourhood i x y dxs st = Some st' → scan_post i x y st st'.
Proof.
  revert st w. induction dxs as [|dx dxs IH]; intros st w Hw.
  { intros [= <-]. by eapply scan_post_refl. }
  rewrite scan_neighbourhood_cons.
  destruct (scan_column i x y dx [-1; 0; 1] st) as [st1|] eqn:Hcol; [|done].
  cbn [mbind option_bind]. apply (scan_column_post _ _ _ _ _ _ _ w Hw) in Hcol.
  intros Hrest. eapply scan_post_trans; [exact Hcol|].
  destruct Hcol as (w1 & new & Hw1 & _ & _ & _ & Hwl & _).
  eapply IH; [|exact Hrest]. rewrite Hwl.
  apply list_lookup_insert_eq. by eapply lookup_lt_Some.
Qed.

Lemma over_water_terrain env env' p :
  same_terrain env env' → over_water env p ↔ over_water env' p.
Proof.
  intros (Hw & Hh & _ & Hcells). unfold over_water, out_of_bounds.
  rewrite Hw, Hh. specialize (Hcells (Qfloor p.1) (Qfloor p.2)).
  destruct (cell_at env (Qfloor p.1) (Qfloor p.2)) as [c|],
           (cell_at env' (Qfloor p.1) (Qfloor p.2)) as [c'|]; try done.
  injection Hcells as Hc _. split; intros [? (c0 & [= <-] & ?)];
    (split; [done|]); eexists; (split; [done|]); congruence.
Qed.

Lemma drone_post_idle i st p :
  positions (su_swarm st) !! i = Some p →
  (∀ w, water_left (su_swarm st) !! i = Some w → w = 0 → ¬ over_water (su_env st) p) →
  drone_post i st st.
Proof.
  intros Hp Hover. exists p, []. rewrite app_nil_r, successes_nil, Z.add_0_r.
  split; [done|]. split; [done|]. split; [done|].
  split; [apply same_flight_refl|]. split; [done|].
  split; [apply same_terrain_refl|]. split; [done|]. split; [done|].
  intros w t Hw Ht. exists w, t. split; [done|]. split; [done|].
  destruct (decide (w = 0)) as [->|Hne].
  - right. right. right. repeat split; try done. by eapply Hover.
  - left. repeat split; try done; lia.
Qed.

Lemma suppress_drone_post i st st' :
  suppress_drone i st = Some st' → drone_post i st st'.
Proof.
  intros Hrun. unfold suppress_drone in Hrun.
  destruct (positions (su_swarm st) !! i) as [[px py]|] eqn:Hp in Hrun; [|done].
  cbn [mbind option_bind fst snd] in Hrun.
  destruct (out_of_bounds (su_env st) (Qfloor px) (Qfloor py)) eqn:Hoob in Hrun.
  { injection Hrun as <-. apply (drone_post_idle i st (px, py) Hp).
    intros _ _ _ [Hno _]. cbn in Hno. congruence. }
  destruct (cell_at (su_env st) (Qfloor px) (Qfloor py)) as [cell|] eqn:Hcell in Hrun;
    [|done].
  cbn [mbind option_bind] in Hrun.
  destruct (water_left (su_swarm st) !! i) as [w|] eqn:Hw in Hrun; [|done].
  cbn [mbind option_bind] in Hrun.
  destruct (w =? 0) eqn:Hw0 in Hrun.
  - apply Z.eqb_eq in Hw0 as ->.
    destruct (water cell) eqn:Hwater in Hrun.
    2:{ injection Hrun as <-. apply (drone_post_idle i st (px, py) Hp).
        intros _ _ _ [_ (c & Hc & Hwc)]. cbn in Hc. congruence. }
    destruct (refill_timers (su_swarm st) !! i) as [t|] eqn:Ht in Hrun; [|done].
    cbn [mbind option_bind] in Hrun.
    assert (Hover : over_water (su_env st) (px, py)).
    { split; [done|]. by exists cell. }
    apply lookup_lt_Some in Hw as Hlw. apply lookup_lt_Some in Ht as Hlt.
    destruct (REFILL_TIME <=? t + 1) eqn:Hfull in Hrun; injection Hrun as <-;
      exists (px, py), []; rewrite app_nil_r, successes_nil, Z.add_0_r;
      cbn [su_swarm su_env su_calls extinguished_count water_left refill_timers
           set_refill_timers set_water_left];
      (split; [done|]); (split; [done|]); (split; [done|]);
      (split; [repeat split; cbn; by rewrite ?length_insert|]);
      (split; [done|]); (split; [apply same_terrain_refl|]); (split; [done|]).
    + split.
      * intros j Hj. by rewrite !list_lookup_insert_ne.
      * intros w' t'. rewrite Hw, Ht. intros [= <-] [= <-].
        exists MAX_WATER_CAPACITY, 0.
        rewrite !list_lookup_insert_eq by (by rewrite ?length_insert).
        split; [done|]. split; [done|]. right. left.
        apply Z.leb_le in Hfull. done.
    + split.
      * intros j Hj. by rewrite !list_lookup_insert_ne.
      * intros w' t'. rewrite Hw, Ht. intros [= <-] [= <-]. exists 0, (t + 1).
        rewrite !list_lookup_insert_eq by done.
        split; [done|]. split; [done|]. right. right. left.
        apply Z.leb_gt in Hfull. done.
  - apply Z.eqb_neq in Hw0.
    apply (scan_neighbourhood_post _ _ _ _ _ _ w) in Hrun; [|done].
    destruct Hrun as (w1 & new & Hw1 & Hc & Hf & Hs & Hwl & Hrt & Hl & Hn & Hm & Hb & Ht & Hi).
    cbn [su_swarm su_env su_calls extinguished_count extinguished_local] in *.
    assert (w1 = w) as -> by congruence.
    exists (px, py), new.
    split; [done|]. split; [done|]. split; [done|]. split; [done|].
    split; [done|]. split; [done|]. split; [done|].
    apply lookup_lt_Some in Hw as Hlw. split.
    + intros j Hj. rewrite Hwl, Hrt. by rewrite list_lookup_insert_ne.
    + intros w' t'. rewrite Hw. intros [= <-] Ht'.
      exists (w - successes i new), t'.
      rewrite Hwl, Hrt, list_lookup_insert_eq by done.
      split; [done|]. split; [done|]. left.
      pose proof (successes_nonneg i new). repeat split; try done; lia.
Qed.

Lemma successes_none i l :
  Forall (λ c, call_drone c ≠ i) l → successes i l = 0.
Proof.
  intros Hl. unfold successes.
  replace (filter _ l) with (@nil ExtinguishCall); [done|].
  symmetry. induction Hl as [|c l Hc _ IH]; [done|].
  rewrite filter_cons_False; [done|]. by intros [? _].
Qed.

Lemma successes_own i l :
  Forall (λ c, call_drone c = i) l →
  successes i l = Z.of_nat (length (filter (λ c, call_result c = true) l)).
Proof.
  intros Hl. unfold successes. f_equal. f_equal.
  induction Hl as [|c l Hc _ IH]; [done|]. rewrite !filter_cons, IH.
  destruct (decide (call_result c = true)).
  - by rewrite decide_True.
  - rewrite decide_False; [done|]. by intros [_ ?].
Qed.

Lemma water_transition_iff (P P' : Prop) k w t w' t' :
  (P ↔ P') → water_transition P k w t w' t' → water_transition P' k w t w' t'.
Proof. unfold water_transition. tauto. Qed.

Lemma suppress_inv_init env sw t :
  suppress_inv env sw 0 (mkSuppress env sw t 0 0 []).
Proof.
  split; [apply same_flight_refl|]. split; [apply same_terrain_refl|].
  split; [done|]. split; [done|]. split; [done|]. split; [done|].
  split; intros; lia.
Qed.

Lemma suppress_inv_step env0 sw0 k st st' :
  suppress_inv env0 sw0 k st → suppress_drone k st = Some st' →
  suppress_inv env0 sw0 (S k) st'.
Proof.
  intros (Hfl & Hter & Hinv & Hcalls & Hcount & Hrest & Hpos & Hdone) Hrun.
  apply suppress_drone_post in Hrun
    as (p & new & Hp & Hc' & Hnew & Hfl' & Hcount' & Hter' & Hinv' & Hother & Hown).
  assert (Hp0 : positions sw0 !! k = Some p).
  { destruct Hfl as (_ & <- & _). done. }
  split; [by eapply same_flight_trans|]. split; [by eapply same_terrain_trans|].
  split; [tauto|]. split; [|split; [|split; [|split]]].
  - rewrite Hc'. apply Forall_app. split.
    + eapply Forall_impl; [exact Hcalls|]. cbn. intros c [? ?]. split; [lia|done].
    + eapply Forall_impl; [exact Hnew|]. cbn. intros c [-> ->]. split; [lia|].
      by exists p.
  - rewrite Hcount', Hcount, Hc', filter_app, length_app.
    rewrite (successes_own k new); [lia|].
    eapply Forall_impl; [exact Hnew|]. by intros c [? _].
  - intros j Hj. destruct (Hother j) as [-> ->]; [lia|]. apply Hrest. lia.
  - intros j Hj. destruct (decide (j = k)) as [->|Hne]; [by eexists|].
    apply Hpos. lia.
  - intros j q w t Hj Hq Hw Ht. rewrite Hc', successes_app.
    destruct (decide (j = k)) as [->|Hne].
    + assert (q = p) as -> by congruence.
      destruct (Hrest k) as [Hwk Htk]; [lia|].
      destruct (Hown w t) as (w' & t' & Hw' & Ht' & Htr); [congruence..|].
      exists w', t'. split; [done|]. split; [done|].
      rewrite (successes_none k (su_calls st)).
      2:{ eapply Forall_impl; [exact Hcalls|]. cbn. intros c [? _]. lia. }
      eapply water_transition_iff; [|exact Htr].
      symmetry. by apply over_water_terrain.
    + destruct (Hother j Hne) as [-> ->].
      destruct (Hdone j q w t) as (w' & t' & Hw' & Ht' & Htr); [lia|done..|].
      exists w', t'. split; [done|]. split; [done|].
      rewrite (successes_none j new), Z.add_0_r; [done|].
      eapply Forall_impl; [exact Hnew|]. cbn. intros c [-> _]. done.
Qed.

Lemma suppress_loop_inv env sw t n st :
  for_drones suppress_drone (seq 0 n) (mkSuppress env sw t 0 0 []) = Some st →
  suppress_inv env sw n st.
Proof.
  apply (for_drones_seq_rule (suppress_inv env sw)).
  - apply suppress_inv_init.
  - intros k s s' _. apply suppress_inv_step.
Qed.

(** What the first two loops leave alone. *)
Lemma move_drone_frame env i sw g sw' g' :
  move_drone env i (sw, g) = Some (sw', g') →
  num_drones sw' = num_drones sw ∧ gbest_value sw' = gbest_value sw ∧
  water_left sw' = water_left sw ∧ refill_timers sw' = refill_timers sw ∧
  length (positions sw') = length (positions sw).
Proof.
  unfold move_drone. cbn.
  destruct (velocities sw !! i); [|done]. cbn.
  destruct (pbest_positions sw !! i); [|done]. cbn.
  destruct (positions sw !! i); [|done]. cbn. intros [= <- <-]. cbn.
  by rewrite length_insert.
Qed.

Lemma evaluate_drone_frame env i sw sw' :
  evaluate_drone env i sw = Some sw' →
  num_drones sw' = num_drones sw ∧ not_above (gbest_value sw) (gbest_value sw') ∧
  water_left sw' = water_left sw ∧ refill_timers sw' = refill_timers sw ∧
  positions sw' = positions sw.
Proof.
  unfold evaluate_drone.
  destruct (positions sw !! i) as [p|]; [|done]. cbn.
  destruct (fitness env p) as [f|]; [|done]. cbn.
  destruct (pbest_values sw !! i) as [pbv|]; [|done]. cbn.
  destruct (num_ltb f pbv).
  - cbn. destruct (num_ltb f (gbest_value sw)) eqn:Hlt; intros [= <-].
    + split; [done|]. split; [by right|done].
    + split; [done|]. split; [by left|done].
  - intros [= <-]. split; [done|]. split; [by left|done].
Qed.

Lemma move_loop_frame env n sw g sw' g' :
  for_drones (move_drone env) (seq 0 n) (sw, g) = Some (sw', g') →
  num_drones sw' = num_drones sw ∧ gbest_value sw' = gbest_value sw ∧
  water_left sw' = water_left sw ∧ refill_timers sw' = refill_timers sw ∧
  length (positions sw') = length (positions sw).
Proof.
  apply (for_drones_seq_rule (λ _ s,
    num_drones s.1 = num_drones sw ∧ gbest_value s.1 = gbest_value sw ∧
    water_left s.1 = water_left sw ∧ refill_timers s.1 = refill_timers sw ∧
    length (positions s.1) = length (positions sw))); [done|].
  intros k [s1 g1] [s2 g2] _ (? & ? & ? & ? & ?) Hrun.
  apply move_drone_frame in Hrun as (? & ? & ? & ? & ?). cbn in *.
  repeat split; congruence.
Qed.

Lemma evaluate_loop_frame env n sw sw' :
  for_drones (evaluate_drone env) (seq 0 n) sw = Some sw' →
  num_drones sw' = num_drones sw ∧ not_above (gbest_value sw) (gbest_value sw') ∧
  water_left sw' = water_left sw ∧ refill_timers sw' = refill_timers sw ∧
  positions sw' = positions sw.
Proof.
  apply (for_drones_seq_rule (λ _ s,
    num_drones s = num_drones sw ∧ not_above (gbest_value sw) (gbest_value s) ∧
    water_left s = water_left sw ∧ refill_timers s = refill_timers sw ∧
    positions s = positions sw)).
  { split; [done|]. split; [apply not_above_refl|done]. }
  intros k s1 s2 _ (? & ? & ? & ? & ?) Hrun.
  apply evaluate_drone_frame in Hrun as (? & ? & ? & ? & ?).
  split; [congruence|]. split; [by eapply not_above_trans|].
  repeat split; congruence.
Qed.

(** The three loops of [step], one after the other. *)
Lemma step_loops env sw t g r :
  step env sw t g = Some r →
  ∃ sw1 sw2 st,
    for_drones (move_drone env) (seq 0 (num_drones sw)) (sw, g) = Some (sw1, st_rng r) ∧
    for_drones (evaluate_drone env) (seq 0 (num_drones sw)) sw1 = Some sw2 ∧
    for_drones suppress_drone (seq 0 (num_drones sw)) (mkSuppress env sw2 t 0 0 [])
      = Some st ∧
    r = mkStep (su_env st) (su_swarm st) (su_time st) (extinguished_count st)
               (st_rng r) (su_calls st).
Proof.
  unfold step.
  destruct (for_drones (move_drone env) _ _) as [[sw1 g1]|] eqn:H1; [|done]. cbn.
  destruct (for_drones (evaluate_drone env) _ _) as [sw2|] eqn:H2; [|done]. cbn.
  destruct (for_drones suppress_drone _ _) as [st|] eqn:H3; [|done]. cbn.
  intros [= <-]. exists sw1, sw2, st. cbn. by rewrite H2, H3.
Qed.

Lemma step_swarm env sw t g r :
  step env sw t g = Some r →
  ∃ sw1 sw2,
    for_drones (move_drone env) (seq 0 (num_drones sw)) (sw, g) = Some (sw1, st_rng r) ∧
    for_drones (evaluate_drone env) (seq 0 (num_drones sw)) sw1 = Some sw2 ∧
    suppress_inv env sw2 (num_drones sw)
      (mkSuppress (st_env r) (st_swarm r) (st_time r) (st_extinguished r) 0 (st_calls r)) ∧
    num_drones sw2 = num_drones sw ∧ positions sw2 = positions sw1 ∧
    water_left sw2 = water_left sw ∧ refill_timers sw2 = refill_timers sw ∧
    not_above (gbest_value sw) (gbest_value sw2) ∧
    length (positions sw1) = length (positions sw).
Proof.
  intros (sw1 & sw2 & st & H1 & H2 & H3 & ->)%step_loops. cbn.
  apply move_loop_frame in H1 as Hf1. destruct Hf1 as (Hn1 & Hg1 & Hw1 & Ht1 & Hl1).
  apply evaluate_loop_frame in H2 as Hf2. destruct Hf2 as (Hn2 & Hg2 & Hw2 & Ht2 & Hp2).
  apply suppress_loop_inv in H3.
  exists sw1, sw2. split; [done|]. split; [done|].
  split; [by destruct st|]. rewrite Hg1 in Hg2.
  repeat split; congruence.
Qed.

(** ** count_trees *)

Lemma count_cell_add acc c : count_cell acc c = pair_add acc (cell_count c).
Proof.
  destruct acc as [s b]. unfold count_cell, cell_count, pair_add.
  destruct (tree c), (burnt c); cbn; f_equal; lia.
Qed.

Lemma fold_count_cell_shift row acc d :
  fold_left count_cell row (pair_add acc d) = pair_add (fold_left count_cell row acc) d.
Proof.
  revert acc. induction row as [|c row IH]; intros acc; [done|]. cbn.
  rewrite <- IH. f_equal. destruct acc, d. unfold count_cell, pair_add. cbn.
  destruct (tree c), (burnt c); cbn; f_equal; lia.
Qed.

Lemma fold_count_cell_alter f row i c acc :
  row !! i = Some c →
  pair_add (fold_left count_cell (alter f i row) acc) (cell_count c)
  = pair_add (fold_left count_cell row acc) (cell_count (f c)).
Proof.
  revert i acc. induction row as [|c0 row IH]; intros [|i] acc Hc; try done.
  - injection Hc as ->. cbn. rewrite !count_cell_add, !fold_count_cell_shift.
    destruct (fold_left count_cell row acc), (cell_count c), (cell_count (f c)).
    unfold pair_add. cbn. f_equal; lia.
  - cbn. by apply IH.
Qed.

Lemma fold_rows_shift (g : list (list Cell)) acc d :
  fold_left (λ acc row, fold_left count_cell row acc) g (pair_add acc d)
  = pair_add (fold_left (λ acc row, fold_left count_cell row acc) g acc) d.
Proof.
  revert acc. induction g as [|row g IH]; intros acc; [done|]. cbn.
  by rewrite fold_count_cell_shift, IH.
Qed.

Lemma pair_add_cancel a b d : pair_add a d = pair_add b d → a = b.
Proof.
  destruct a, b, d. unfold pair_add. cbn. intros [= ? ?]. f_equal; lia.
Qed.

Lemma fold_rows_alter f (g : list (list Cell)) i j row c acc :
  g !! j = Some row → row !! i = Some c →
  pair_add (fold_left (λ acc row, fold_left count_cell row acc)
                      (alter (alter f i) j g) acc) (cell_count c)
  = pair_add (fold_left (λ acc row, fold_left count_cell row acc) g acc)
             (cell_count (f c)).
Proof.
  revert j acc. induction g as [|row0 g IH]; intros [|j] acc Hrow Hc; try done.
  - injection Hrow as ->. cbn.
    rewrite <- !fold_rows_shift. f_equal. by apply fold_count_cell_alter.
  - cbn. by apply IH.
Qed.

(** Assigning to the cell [(x, y)] moves [count_trees] by the difference of
    what the cell adds after and before. *)
Lemma count_trees_update_cell f x y env c :
  cell_at env x y = Some c →
  pair_add (count_trees (update_cell f x y env)) (cell_count c)
  = pair_add (count_trees env) (cell_count (f c)).
Proof.
  intros Hc. pose proof (cell_at_nonneg _ _ _ _ Hc) as [Hx Hy].
  unfold cell_at in Hc.
  replace (0 <=? x) with true in Hc by (symmetry; lia).
  replace (0 <=? y) with true in Hc by (symmetry; lia). cbn in Hc.
  destruct (grid env !! Z.to_nat y) as [row|] eqn:Hrow; [|done]. cbn in Hc.
  unfold count_trees, update_cell. cbn. by eapply fold_rows_alter.
Qed.

Lemma count_trees_update_cell_same f x y env c :
  cell_at env x y = Some c → cell_count (f c) = cell_count c →
  count_trees (update_cell f x y env) = count_trees env.
Proof.
  intros Hc Hf. apply (pair_add_cancel _ _ (cell_count c)).
  rewrite (count_trees_update_cell f x y env c Hc). by rewrite Hf.
Qed.

Lemma count_trees_set_active_fires l env :
  count_trees (set_active_fires l env) = count_trees env.
Proof. reflexivity. Qed.

(** ** The initial environment *)

Lemma new_row_fresh n g :
  length (new_row n g).1 = n ∧ Forall (λ c, ∃ e, c = new_Cell e) (new_row n g).1.
Proof.
  revert g. induction n as [|n IH]; intros g; [done|].
  cbn. destruct (new_row n _) as [row g'] eqn:Hrow. cbn.
  specialize (IH (mkRng (draws g) (S (cursor g)))). unfold random in Hrow. cbn in Hrow.
  rewrite Hrow in IH. cbn in IH. destruct IH as [Hlen Hall].
  split; [by rewrite Hlen|]. constructor; [by eexists|done].
Qed.

Lemma new_grid_fresh h w g :
  length (new_grid h w g).1 = h ∧
  Forall (λ row, length row = w ∧ Forall (λ c, ∃ e, c = new_Cell e) row)
         (new_grid h w g).1.
Proof.
  revert g. induction h as [|h IH]; intros g; [done|].
  cbn. pose proof (new_row_fresh w g) as Hrow.
  destruct (new_row w g) as [row g1]. cbn in Hrow.
  specialize (IH g1). destruct (new_grid h w g1) as [rows g2]. cbn in *.
  destruct IH as [Hlen Hall]. split; [by rewrite Hlen|]. by constructor.
Qed.

Lemma cell_at_elem_of env x y c :
  cell_at env x y = Some c → ∃ row, row ∈ grid env ∧ c ∈ row.
Proof.
  unfold cell_at. destruct ((0 <=? x) && (0 <=? y)); [|done].
  destruct (grid env !! Z.to_nat y) as [row|] eqn:Hrow; [|done]. cbn.
  intros Hc. exists row. split; by eapply list_elem_of_lookup_2.
Qed.

Lemma new_Environment_blank w h g :
  blank (new_Environment w h g).1 ∧
  width (new_Environment w h g).1 = w ∧ height (new_Environment w h g).1 = h.
Proof.
  unfold new_Environment. pose proof (new_grid_fresh (Z.to_nat h) (Z.to_nat w) g) as Hg.
  destruct (new_grid _ _ g) as [rows g']. cbn in *. destruct Hg as [Hlen Hall].
  split; [|done]. split; [|split; [done|]].
  - split; [done|]. cbn. eapply Forall_impl; [exact Hall|]. by intros row [? _].
  - intros x y c (row & Hrow & Hc)%cell_at_elem_of. cbn in Hrow.
    rewrite Forall_forall in Hall. destruct (Hall row Hrow) as [_ Hfresh].
    rewrite Forall_forall in Hfresh. destruct (Hfresh c Hc) as [e ->]. done.
Qed.

Lemma blank_env_inv env : blank env → env_inv env.
Proof.
  intros (Hok & Haf & Hcells). split; [done|]. split; [split|].
  - rewrite Haf. constructor.
  - intros xy. rewrite Haf. split; [by intros ?%elem_of_nil|].
    intros (c & Hc & Hf)%burning_at_Some. apply Hcells in Hc as (? & _). congruence.
  - intros x y c Hc Hw. apply Hcells in Hc as (? & ? & ?). auto.
Qed.

(** One step of the walk of [add_water_blobs] (lines 52-55). *)
Lemma blank_water x y env c :
  blank env → cell_at env x y = Some c →
  blank (update_cell (set_tree false) x y (update_cell (set_water true) x y env)).
Proof.
  intros (Hok & Haf & Hcells) Hc. pose proof (cell_at_nonneg _ _ _ _ Hc) as [Hx Hy].
  split; [by repeat apply update_cell_grid_ok|]. split; [done|].
  intros a b c'. rewrite !cell_at_update_cell by done.
  case_decide as Heq; [|apply Hcells]. destruct Heq as [-> ->]. rewrite Hc. cbn.
  intros [= <-]. cbn. apply Hcells in Hc as (? & ? & _). done.
Qed.

Lemma water_walk_blank steps x y env g :
  blank env →
  ∃ env' g', water_walk steps x y (env, g) = Some (env', g') ∧ blank env' ∧
             width env' = width env ∧ height env' = height env.
Proof.
  revert x y env g. induction steps as [|steps IH]; intros x y env g Hblank.
  { by exists env, g. }
  cbn [water_walk].
  assert (Hfirst : ∃ env1,
    (if in_bounds env x y
     then _ ← cell_at env x y;
          Some (update_cell (set_tree false) x y (update_cell (set_water true) x y env))
     else Some env) = Some env1 ∧ blank env1 ∧
    width env1 = width env ∧ height env1 = height env).
  { destruct (in_bounds env x y) eqn:Hb; [|by exists env].
    destruct (cell_at_in_bounds env x y) as [c Hc]; [apply Hblank|done|].
    rewrite Hc. cbn. eexists. split; [done|]. split; [by eapply blank_water|done]. }
  destruct Hfirst as (env1 & -> & Hblank1 & Hw1 & Hh1). cbn [mbind option_bind].
  unfold random_int, random. cbn [fst snd].
  destruct (IH (x + (Qfloor (draws g (cursor g) * 3) + -1))
               (y + (Qfloor (draws g (S (cursor g)) * 3) + -1)) env1
               (mkRng (draws g) (S (S (cursor g)))) Hblank1)
    as (env' & g' & Hrun & Hblank' & Hw' & Hh').
  exists env', g'. split; [exact Hrun|]. split; [done|]. split; congruence.
Qed.

Lemma water_blobs_blank n env g :
  blank env →
  ∃ env' g', water_blobs n (env, g) = Some (env', g') ∧ blank env' ∧
             width env' = width env ∧ height env' = height env.
Proof.
  revert env g. induction n as [|n IH]; intros env g Hblank.
  { by exists env, g. }
  cbn [water_blobs]. unfold random_int, random. cbn [fst snd].
  match goal with |- context [water_walk ?s ?x ?y ?st] =>
    destruct (water_walk_blank s x y env (snd st) Hblank)
      as (env1 & g1 & Hrun1 & Hblank1 & Hw1 & Hh1)
  end.
  cbn [snd] in Hrun1. rewrite Hrun1. cbn [mbind option_bind].
  destruct (IH env1 g1 Hblank1) as (env' & g' & Hrun & Hblank' & Hw' & Hh').
  exists env', g'. split; [exact Hrun|]. split; [done|]. split; congruence.
Qed.

Lemma add_water_blobs_blank count env g :
  blank env →
  ∃ env' g', add_water_blobs count (env, g) = Some (env', g') ∧ blank env' ∧
             width env' = width env ∧ height env' = height env.
Proof.
  intros Hblank. unfold add_water_blobs, random_int, random. cbn [fst snd].
  apply water_blobs_blank, Hblank.
Qed.

Lemma same_terrain_dims env env' :
  same_terrain env env' → width env' = width env ∧ height env' = height env.
Proof. by intros (? & ? & _). Qed.

Lemma ignite_random_inv n env g :
  env_inv env →
  ∃ env' g', ignite_random n (env, g) = Some (env', g') ∧ env_inv env' ∧
             width env' = width env ∧ height env' = height env.
Proof.
  revert env g. induction n as [|n IH]; intros env g Hinv.
  { by exists env, g. }
  cbn [ignite_random]. unfold random. cbn [fst snd].
  match goal with |- context [ignite ?x ?y env] =>
    destruct (ignite_inv x y env Hinv) as (env1 & Hrun1 & Hinv1 & Hter1)
  end.
  rewrite Hrun1. cbn [mbind option_bind].
  apply same_terrain_dims in Hter1 as [Hw1 Hh1].
  match goal with |- context [ignite_random n (env1, ?g1)] =>
    destruct (IH env1 g1 Hinv1) as (env' & g' & Hrun & Hinv' & Hw' & Hh')
  end.
  exists env', g'. split; [exact Hrun|]. split; [done|]. split; congruence.
Qed.

(** ** Every call returns *)

Lemma get_attraction_matrix_total env :
  grid_ok env →
  ∃ m, get_attraction_matrix env = Some m ∧
       ∀ x y, in_bounds env x y = true →
              is_Some (m !! Z.to_nat y ≫= λ row, row !! Z.to_nat x).
Proof.
  intros Hok. unfold get_attraction_matrix.
  assert (Hrows : ∀ y, 0 ≤ y < height env →
    is_Some (mapM (λ x, attraction <$> cell_at env x y) (seqZ 0 (width env)))).
  { intros y Hy. apply mapM_is_Some, Forall_forall. intros x Hx%elem_of_seqZ. cbn.
    destruct (cell_at_in_bounds env x y Hok) as [c ->]; [|by eexists].
    solve_bounds. }
  destruct (mapM_is_Some_2
              (λ y, mapM (λ x, attraction <$> cell_at env x y) (seqZ 0 (width env)))
              (seqZ 0 (height env))) as [m Hm].
  { apply Forall_forall. intros y Hy%elem_of_seqZ. apply Hrows. lia. }
  exists m. split; [done|]. intros x y Hb. destruct_bounds Hb.
  apply mapM_Some_1 in Hm.
  destruct (Forall2_lookup_l _ _ _ (Z.to_nat y) y Hm) as (row & Hrow & Hmap).
  { rewrite lookup_seqZ. lia. }
  rewrite Hrow. cbn. apply length_mapM in Hmap. rewrite length_seqZ in Hmap.
  apply lookup_lt_is_Some_2. lia.
Qed.

Lemma fitness_total env p : grid_ok env → is_Some (fitness env p).
Proof.
  intros Hok. unfold fitness. destruct p as [px py].
  destruct (out_of_bounds env (Qfloor px) (Qfloor py)) eqn:Hoob; [by eexists|].
  destruct (get_attraction_matrix_total env Hok) as (m & -> & Hm). cbn.
  destruct (Hm (Qfloor px) (Qfloor py)) as [v ->].
  { destruct_bounds Hoob. solve_bounds. }
  cbn. repeat (case_match; try by eexists).
Qed.

Lemma random_pairs_length f h n g : length (random_pairs f h n g).1 = n.
Proof.
  revert g. induction n as [|n IH]; intros g; [done|]. cbn.
  specialize (IH (mkRng (draws g) (S (S (cursor g))))).
  destruct (random_pairs f h n _) as [l g']. cbn in *. by rewrite IH.
Qed.

Lemma num_min_cases a b : num_min a b = a ∨ num_min a b = b.
Proof.
  destruct a as [x|], b as [y|]; cbn; auto.
  unfold Qmin, GenericMinMax.gmin. destruct (x ?= y)%Q; auto.
Qed.

Lemma fold_num_min_elem_of l a :
  fold_left num_min l a = a ∨ fold_left num_min l a ∈ l.
Proof.
  revert a. induction l as [|v l IH]; intros a; [by left|]. cbn.
  destruct (IH (num_min a v)) as [->|Hin].
  - destruct (num_min_cases a v) as [->| ->]; [by left|]. right. by left.
  - right. by right.
Qed.

Lemma num_eqb_refl a : num_eqb a a = true.
Proof. destruct a as [x|]; [|done]. cbn. apply Qeq_bool_iff. reflexivity. Qed.

Lemma index_of_min_total values :
  values ≠ [] → ∃ i, index_of_min values = Some i ∧ (i < length values)%nat.
Proof.
  intros Hne. unfold index_of_min.
  set (m := fold_left num_min values Infinity).
  assert (Hm : m ∈ values).
  { subst m. destruct values as [|v l]; [done|]. cbn.
    destruct (fold_num_min_elem_of l v) as [->|Hin]; [by left|by right]. }
  destruct (list_find (λ v, num_eqb v m = true) values) as [[i v]|] eqn:Hfind.
  - exists i. split; [done|]. apply list_find_Some in Hfind as (Hi & _).
    by eapply lookup_lt_Some.
  - exfalso. apply list_find_None in Hfind. rewrite Forall_forall in Hfind.
    apply (Hfind m Hm), num_eqb_refl.
Qed.

Lemma new_DroneSwarm_total env n g :
  grid_ok env → (0 < n)%nat →
  ∃ sw g', new_DroneSwarm env n g = Some (sw, g') ∧
           swarm_ok sw ∧ water_ok sw ∧ num_drones sw = n.
Proof.
  intros Hok Hn. unfold new_DroneSwarm.
  pose proof (random_pairs_length
                (λ r, r * inject_Z (width env - 1))%Q
                (λ r, r * inject_Z (height env - 1))%Q n g) as Hps.
  destruct (random_pairs _ _ n g) as [ps g1]. cbn in Hps.
  pose proof (random_pairs_length (λ r, (r - 0.5) * 3)%Q (λ r, (r - 0.5) * 3)%Q n g1)
    as Hvs.
  destruct (random_pairs _ _ n g1) as [vs g2]. cbn in Hvs.
  destruct (mapM_is_Some_2 (fitness env) ps) as [values Hvalues].
  { apply Forall_forall. intros p _. by apply fitness_total. }
  rewrite Hvalues. cbn [mbind option_bind].
  apply length_mapM in Hvalues as Hlen.
  destruct (index_of_min_total values) as (i & -> & Hi).
  { intros ->. cbn in Hlen. lia. }
  cbn [mbind option_bind].
  destruct (lookup_lt_is_Some_2 ps i) as [gp ->]; [lia|].
  destruct (lookup_lt_is_Some_2 values i) as [gv ->]; [lia|].
  cbn [mbind option_bind]. eexists _, _. split; [reflexivity|].
  split; [|split; [|done]].
  - repeat split; cbn; rewrite ?length_replicate; lia.
  - intros j w t. cbn. intros [-> _]%lookup_replicate [-> _]%lookup_replicate.
    unfold MAX_WATER_CAPACITY, REFILL_TIME. lia.
Qed.

Lemma clamp_in_range (W x : Q) :
  (0 <= W)%Q → (0 <= Qmax 0 (Qmin W x) <= W)%Q.
Proof.
  intros HW. split; [apply Q.le_max_l|].
  apply Q.max_lub; [done|apply Q.le_min_l].
Qed.

Lemma inject_Z_nonneg z : 0 ≤ z → (0 <= inject_Z z)%Q.
Proof. intros Hz. change 0%Q with (inject_Z 0). by rewrite <- Zle_Qle. Qed.

Lemma in_range_not_out_of_bounds env p :
  in_range env p → out_of_bounds env (Qfloor p.1) (Qfloor p.2) = false.
Proof.
  intros [[Hx0 Hx1] [Hy0 Hy1]].
  apply Qfloor_resp_le in Hx0, Hx1, Hy0, Hy1.
  rewrite Qfloor_Z in Hx1, Hy1. change (Qfloor 0) with 0 in Hx0, Hy0.
  solve_bounds.
Qed.

Lemma move_drone_position env i sw g sw' g' :
  1 ≤ width env → 1 ≤ height env →
  move_drone env i (sw, g) = Some (sw', g') →
  length (positions sw') = length (positions sw) ∧
  (∃ p, positions sw' !! i = Some p ∧ in_range env p) ∧
  (∀ j, j ≠ i → positions sw' !! j = positions sw !! j).
Proof.
  intros Hw Hh. unfold move_drone. cbn.
  destruct (velocities sw !! i) as [v|]; [|done]. cbn.
  destruct (pbest_positions sw !! i) as [pb|]; [|done]. cbn.
  destruct (positions sw !! i) as [p|] eqn:Hp; [|done]. cbn.
  intros [= <- <-]. cbn. apply lookup_lt_Some in Hp.
  split; [by rewrite length_insert|]. split.
  - eexists. split; [by apply list_lookup_insert_eq|].
    split; cbn; apply clamp_in_range, inject_Z_nonneg; lia.
  - intros j Hj. by apply list_lookup_insert_ne.
Qed.

Lemma move_loop_positions env n sw g sw' g' :
  1 ≤ width env → 1 ≤ height env →
  for_drones (move_drone env) (seq 0 n) (sw, g) = Some (sw', g') →
  ∀ j, (j < n)%nat → ∃ p, positions sw' !! j = Some p ∧ in_range env p.
Proof.
  intros Hw Hh.
  apply (for_drones_seq_rule (λ k s,
    ∀ j, (j < k)%nat → ∃ p, positions s.1 !! j = Some p ∧ in_range env p)).
  { intros j Hj. lia. }
  intros k [s1 g1] [s2 g2] _ IH Hrun. cbn in *.
  apply move_drone_position in Hrun as (_ & Hk & Hother); [|done..].
  intros j Hj. destruct (decide (j = k)) as [->|Hne]; [done|].
  rewrite Hother by done. apply IH. lia.
Qed.

Lemma scale_in_unit (r W : Q) : (0 <= r < 1)%Q → (0 <= W)%Q → (0 <= r * W <= W)%Q.
Proof.
  intros [Hr0 Hr1] HW. split; [by apply Qmult_le_0_compat|].
  rewrite <- (Qmult_1_l W) at 2. apply Qmult_le_compat_r; [|done].
  by apply Qlt_le_weak.
Qed.

Lemma random_pairs_in_range env n g :
  1 ≤ width env → 1 ≤ height env → (∀ k, 0 <= draws g k < 1)%Q →
  Forall (in_range env)
    (random_pairs (λ r, r * inject_Z (width env - 1))%Q
                  (λ r, r * inject_Z (height env - 1))%Q n g).1.
Proof.
  intros Hw Hh. revert g. induction n as [|n IH]; intros g Hdraws; [by constructor|].
  cbn. specialize (IH (mkRng (draws g) (S (S (cursor g)))) Hdraws).
  destruct (random_pairs _ _ n _) as [l g']. cbn in *. constructor; [|done].
  split; cbn; apply scale_in_unit; try done; apply inject_Z_nonneg; lia.
Qed.

Lemma step_positions_in_range env sw t g r :
  1 ≤ width env → 1 ≤ height env →
  length (positions sw) = num_drones sw →
  step env sw t g = Some r →
  ∀ i p, positions (st_swarm r) !! i = Some p → in_range env p.
Proof.
  intros Hw Hh Hlen (sw1 & sw2 & Hmove & _ & Hsup & _ & Hp2 & _)%step_swarm.
  destruct Hsup as (Hfl & _). cbn in Hfl. destruct Hfl as (_ & Hpos & _).
  intros i p Hp. rewrite Hpos, Hp2 in Hp.
  apply move_loop_frame in Hmove as Hfr. destruct Hfr as (_ & _ & _ & _ & Hl).
  destruct (move_loop_positions _ _ _ _ _ _ Hw Hh Hmove i) as (p' & Hp' & Hin).
  - apply lookup_lt_Some in Hp. lia.
  - congruence.
Qed.

Lemma same_flight_swarm_ok sw sw' : same_flight sw sw' → swarm_ok sw → swarm_ok sw'.
Proof.
  intros (Hn & Hp & Hv & Hpb & Hpv & _ & _ & _ & _ & _ & Hw & Ht)
         (? & ? & ? & ? & ? & ?).
  unfold swarm_ok. rewrite Hn, Hp, Hv, Hpb, Hpv, Hw, Ht. done.
Qed.

Lemma move_drone_total env i sw g :
  swarm_ok sw → (i < num_drones sw)%nat →
  ∃ sw' g', move_drone env i (sw, g) = Some (sw', g') ∧
            swarm_ok sw' ∧ num_drones sw' = num_drones sw.
Proof.
  intros (Hp & Hv & Hpb & Hpv & Hw & Ht) Hi. unfold move_drone. cbn.
  destruct (lookup_lt_is_Some_2 (velocities sw) i) as [v ->]; [lia|].
  destruct (lookup_lt_is_Some_2 (pbest_positions sw) i) as [pb ->]; [lia|].
  destruct (lookup_lt_is_Some_2 (positions sw) i) as [p ->]; [lia|].
  cbn. eexists _, _. split; [reflexivity|]. split; [|done].
  repeat split; cbn; by rewrite ?length_insert.
Qed.

Lemma evaluate_drone_total env i sw :
  grid_ok env → swarm_ok sw → (i < num_drones sw)%nat →
  ∃ sw', evaluate_drone env i sw = Some sw' ∧
         swarm_ok sw' ∧ num_drones sw' = num_drones sw.
Proof.
  intros Hok (Hp & Hv & Hpb & Hpv & Hw & Ht) Hi. unfold evaluate_drone.
  destruct (lookup_lt_is_Some_2 (positions sw) i) as [p ->]; [lia|]. cbn.
  destruct (fitness_total env p Hok) as [f ->]. cbn.
  destruct (lookup_lt_is_Some_2 (pbest_values sw) i) as [pbv ->]; [lia|]. cbn.
  destruct (num_ltb f pbv); [|by exists sw].
  cbn. destruct (num_ltb f (gbest_value sw)); eexists; (split; [reflexivity|]);
    (split; [|done]); repeat split; cbn; by rewrite ?length_insert.
Qed.

Lemma scan_cell_total i x y dx dy st :
  env_inv (su_env st) → is_Some (water_left (su_swarm st) !! i) →
  is_Some (scan_cell i x y dx dy st).
Proof.
  intros Hinv [w Hw]. unfold scan_cell. rewrite Hw. cbn.
  destruct ((3 <=? extinguished_local st) || (w <=? 0)); [by eexists|].
  destruct (extinguish_fire_at_inv (x + dx) (y + dy) (Some (x, y))
              (su_time st) (su_env st) Hinv) as (ok & env' & t' & -> & _).
  cbn. destruct ok; by eexists.
Qed.

Lemma scan_post_ready i x y st st' :
  scan_post i x y st st' → env_inv (su_env st) →
  env_inv (su_env st') ∧ is_Some (water_left (su_swarm st') !! i).
Proof.
  intros (w & new & Hw & _ & _ & _ & Hwl & _ & _ & _ & _ & _ & _ & Hinv) H.
  split; [by apply Hinv|]. rewrite Hwl. eexists.
  apply list_lookup_insert_eq. by eapply lookup_lt_Some.
Qed.

Lemma scan_column_total i x y dx dys st :
  env_inv (su_env st) → is_Some (water_left (su_swarm st) !! i) →
  is_Some (scan_column i x y dx dys st).
Proof.
  revert st. induction dys as [|dy dys IH]; intros st Hinv Hw; [by eexists|].
  cbn. destruct (scan_cell_total i x y dx dy st Hinv Hw) as [[brk st1] Hcell].
  rewrite Hcell. cbn. destruct brk; [by eexists|].
  apply scan_cell_post in Hcell.
  destruct (scan_post_ready _ _ _ _ _ Hcell Hinv). by apply IH.
Qed.

Lemma scan_neighbourhood_total i x y dxs st :
  env_inv (su_env st) → is_Some (water_left (su_swarm st) !! i) →
  is_Some (scan_neighbourhood i x y dxs st).
Proof.
  revert st. induction dxs as [|dx dxs IH]; intros st Hinv Hw; [by eexists|].
  rewrite scan_neighbourhood_cons.
  destruct (scan_column_total i x y dx [-1; 0; 1] st Hinv Hw) as [st1 Hcol].
  rewrite Hcol. cbn [mbind option_bind]. destruct Hw as [w Hw].
  apply (scan_column_post _ _ _ _ _ _ _ w Hw) in Hcol.
  destruct (scan_post_ready _ _ _ _ _ Hcol Hinv). by apply IH.
Qed.

Lemma out_of_bounds_in_bounds env x y :
  out_of_bounds env x y = false → in_bounds env x y = true.
Proof.
  intros H. destruct_bounds H. solve_bounds.
Qed.

Lemma suppress_drone_total i st :
  env_inv (su_env st) → swarm_ok (su_swarm st) → (i < num_drones (su_swarm st))%nat →
  is_Some (suppress_drone i st).
Proof.
  intros Hinv (Hp & Hv & Hpb & Hpv & Hw & Ht) Hi. unfold suppress_drone.
  destruct (lookup_lt_is_Some_2 (positions (su_swarm st)) i) as [[px py] ->]; [lia|].
  cbn [mbind option_bind].
  destruct (out_of_bounds (su_env st) (Qfloor px) (Qfloor py)) eqn:Hoob; [by eexists|].
  destruct (cell_at_in_bounds (su_env st) (Qfloor px) (Qfloor py)) as [cell ->].
  { apply Hinv. } { by apply out_of_bounds_in_bounds. }
  cbn [mbind option_bind].
  destruct (lookup_lt_is_Some_2 (water_left (su_swarm st)) i) as [w Hwi]; [lia|].
  rewrite Hwi. cbn [mbind option_bind].
  destruct (w =? 0).
  - destruct (water cell); [|by eexists].
    destruct (lookup_lt_is_Some_2 (refill_timers (su_swarm st)) i) as [t ->]; [lia|].
    cbn [mbind option_bind]. destruct (REFILL_TIME <=? t + 1); by eexists.
  - apply scan_neighbourhood_total; [done|]. by eexists.
Qed.

Lemma step_total env sw t g :
  env_inv env → swarm_ok sw →
  ∃ r, step env sw t g = Some r ∧ swarm_ok (st_swarm r) ∧ env_inv (st_env r) ∧
       num_drones (st_swarm r) = num_drones sw.
Proof.
  intros Hinv Hsw. unfold step.
  destruct (for_drones_seq_total
              (λ _ s, swarm_ok s.1 ∧ num_drones s.1 = num_drones sw)
              (move_drone env) (num_drones sw) (sw, g))
    as ([sw1 g1] & Hmove & Hsw1 & Hn1); [done| |].
  { intros k [s gs] Hk [Hs Hn]. cbn in *.
    destruct (move_drone_total env k s gs Hs) as (s' & g' & Hrun & Hs' & Hn'); [lia|].
    exists (s', g'). split; [done|]. split; [done|]. cbn. congruence. }
  rewrite Hmove. cbn [mbind option_bind]. cbn in Hsw1, Hn1.
  destruct (for_drones_seq_total
              (λ _ s, swarm_ok s ∧ num_drones s = num_drones sw)
              (evaluate_drone env) (num_drones sw) sw1)
    as (sw2 & Heval & Hsw2 & Hn2); [done| |].
  { intros k s Hk [Hs Hn].
    destruct (evaluate_drone_total env k s) as (s' & Hrun & Hs' & Hn');
      [apply Hinv|done|lia|].
    exists s'. split; [done|]. split; [done|]. congruence. }
  rewrite Heval. cbn [mbind option_bind].
  destruct (for_drones_seq_total
              (λ _ st, env_inv (su_env st) ∧ swarm_ok (su_swarm st) ∧
                       num_drones (su_swarm st) = num_drones sw)
              suppress_drone (num_drones sw) (mkSuppress env sw2 t 0 0 []))
    as (st & Hsup & Hinv3 & Hsw3 & Hn3); [done| |].
  { intros k st Hk (Hi & Hs & Hn).
    destruct (suppress_drone_total k st Hi Hs) as [st' Hrun]; [lia|].
    exists st'. split; [done|].
    apply suppress_drone_post in Hrun
      as (_ & _ & _ & _ & _ & Hfl & _ & _ & Hi' & _).
    split; [by apply Hi'|]. split; [by eapply same_flight_swarm_ok|].
    destruct Hfl as (-> & _). done. }
  rewrite Hsup. cbn [mbind option_bind]. eexists. split; [reflexivity|]. done.
Qed.

(** ** The simulation from tick to tick *)

Lemma step_water_transition env sw clock g r :
  step env sw clock g = Some r →
  water_ok sw →
  ∀ i w t, (i < num_drones sw)%nat →
    water_left sw !! i = Some w → refill_timers sw !! i = Some t →
    ∃ p w' t',
      positions (st_swarm r) !! i = Some p ∧
      water_left (st_swarm r) !! i = Some w' ∧
      refill_timers (st_swarm r) !! i = Some t' ∧
      water_transition (over_water env p) (successes i (st_calls r)) w t w' t'.
Proof.
  intros (sw1 & sw2 & _ & _ & Hsup & Hn & _ & Hw & Ht & _)%step_swarm Hok.
  destruct Hsup as (Hfl & _ & _ & _ & _ & Hrest & Hpos & Hdone).
  cbn [su_swarm su_calls] in *. rewrite Hw, Ht in *.
  intros i w t Hi Hwi Hti. destruct (Hpos i Hi) as [p Hp].
  destruct (Hdone i p w t Hi Hp Hwi Hti) as (w' & t' & Hw' & Ht' & Htr).
  exists p, w', t'. destruct Hfl as (_ & Hposeq & _). by rewrite Hposeq.
Qed.

Lemma step_water_untouched env sw clock g r :
  step env sw clock g = Some r →
  length (water_left (st_swarm r)) = length (water_left sw) ∧
  length (refill_timers (st_swarm r)) = length (refill_timers sw) ∧
  ∀ i, (num_drones sw ≤ i)%nat →
    water_left (st_swarm r) !! i = water_left sw !! i ∧
    refill_timers (st_swarm r) !! i = refill_timers sw !! i.
Proof.
  intros (sw1 & sw2 & _ & _ & Hsup & Hn & _ & Hw & Ht & _)%step_swarm.
  destruct Hsup as (Hfl & _ & _ & _ & _ & Hrest & _).
  cbn [su_swarm su_calls] in *. rewrite Hw, Ht in *.
  destruct Hfl as (_ & _ & _ & _ & _ & _ & _ & _ & _ & _ & Hlw & Hlt).
  rewrite Hw in Hlw. rewrite Ht in Hlt. done.
Qed.

Lemma step_water_ok env sw clock g r :
  water_ok sw → step env sw clock g = Some r → water_ok (st_swarm r).
Proof.
  intros Hok Hrun i w' t' Hw' Ht'.
  destruct (step_water_untouched _ _ _ _ _ Hrun) as (Hlw & Hlt & Hrest).
  destruct (decide (i < num_drones sw)%nat) as [Hi|Hi].
  - destruct (lookup_lt_is_Some_2 (water_left sw) i) as [w Hwi].
    { rewrite <- Hlw. by eapply lookup_lt_Some. }
    destruct (lookup_lt_is_Some_2 (refill_timers sw) i) as [t Hti].
    { rewrite <- Hlt. by eapply lookup_lt_Some. }
    destruct (step_water_transition _ _ _ _ _ Hrun Hok i w t Hi Hwi Hti)
      as (p & w'' & t'' & _ & Hw'' & Ht'' & Htr).
    assert (w'' = w') as -> by congruence. assert (t'' = t') as -> by congruence.
    destruct (Hok i w t Hwi Hti) as (Hw0 & Ht0 & Hwt).
    unfold water_transition, MAX_WATER_CAPACITY, REFILL_TIME in *. lia.
  - destruct (Hrest i) as [Hwi Hti]; [lia|]. rewrite Hwi in Hw'. rewrite Hti in Ht'.
    by apply (Hok i).
Qed.

Lemma in_range_dims env env' p :
  width env' = width env → height env' = height env →
  in_range env p → in_range env' p.
Proof. unfold in_range. by intros -> ->. Qed.

Lemma initSim_total g : ∃ s, initSim g = Some s ∧ sim_inv s.
Proof.
  unfold initSim.
  pose proof (new_Environment_blank 40 20 g) as (Hblank & Hw & Hh).
  destruct (new_Environment 40 20 g) as [env0 g0]. cbn in Hblank, Hw, Hh.
  destruct (add_water_blobs_blank 3 env0 g0 Hblank)
    as (env1 & g1 & -> & Hblank1 & Hw1 & Hh1).
  cbn [mbind option_bind].
  destruct (ignite_random_inv 5 env1 g1 (blank_env_inv _ Hblank1))
    as (env2 & g2 & -> & Hinv2 & Hw2 & Hh2).
  cbn [mbind option_bind]. eexists. split; [reflexivity|].
  exists env2. cbn. split; [done|]. split; [done|]. split; [congruence|].
  split; [congruence|]. split; [|done]. split; [lia|done].
Qed.

Lemma step_sim_total w pp pg s :
  sim_inv s →
  ∃ s', step_sim w pp pg s = Some s' ∧ sim_inv s' ∧
        (∀ env env', envRef s = Some env → envRef s' = Some env' →
                     same_terrain env env') ∧
        (∀ sw, simRef s = Some sw →
           ∃ env1 t g r, step env1 (set_params w pp pg sw) t g = Some r ∧
                         simRef s' = Some (st_swarm r)).
Proof.
  intros (env & Henv & Hinv & Hw & Hh & Hcount & Hsw). unfold step_sim.
  rewrite Henv.
  destruct (spread_fire_inv env (sim_rng s) Hinv) as (env1 & g1 & -> & Hinv1 & Hter1).
  cbn [mbind option_bind].
  apply same_terrain_dims in Hter1 as Hd1. destruct Hd1 as [Hw1 Hh1].
  (* the swarm, created on tick 10 *)
  assert (Hsim : ∃ sim time g2,
    (if stepCountRef s =? 10
     then '(swarm, g) ← new_DroneSwarm env1 20 g1;
          Some (Some (set_params w pp pg swarm), Some 0%Q, g)
     else Some (simRef s, simTimeRef s, g1)) = Some (sim, time, g2) ∧
    (sim = None ↔ stepCountRef s < 10) ∧
    (∀ sw, simRef s = Some sw → sim = Some sw ∧ time = simTimeRef s ∧ g2 = g1) ∧
    match sim with
    | None => True
    | Some sw => swarm_ok sw ∧ water_ok sw
    end).
  { destruct (stepCountRef s =? 10) eqn:Hten.
    - apply Z.eqb_eq in Hten.
      destruct (new_DroneSwarm_total env1 20 g1) as (sw & g2 & -> & Hok & Hwok & _);
        [apply Hinv1|lia|].
      cbn. eexists _, _, _. split; [reflexivity|].
      split; [split; [done|lia]|]. split; [|done].
      intros sw0 Hsw0. rewrite Hsw0 in Hcount. destruct Hcount as [_ Hc].
      specialize (Hc ltac:(lia)). done.
    - apply Z.eqb_neq in Hten. eexists _, _, _. split; [reflexivity|].
      split; [rewrite Hcount; lia|]. split; [done|].
      destruct (simRef s); [|done]. tauto. }
  destruct Hsim as (sim & time & g2 & -> & Hcount1 & Hsame & Hsim).
  cbn [mbind option_bind].
  (* the swarm step *)
  assert (Hstep : ∃ env2 sim2 time2 total2 g3,
    match sim with
    | Some swarm =>
        r ← step env1 (set_params w pp pg swarm) time g2;
        Some (st_env r, Some (st_swarm r), st_time r,
              totalExtinguishedRef s + st_extinguished r, st_rng r)
    | None => Some (env1, sim, time, totalExtinguishedRef s, g2)
    end = Some (env2, sim2, time2, total2, g3) ∧
    env_inv env2 ∧ same_terrain env1 env2 ∧
    (sim2 = None ↔ sim = None) ∧
    (∀ sw, sim = Some sw →
       ∃ r, step env1 (set_params w pp pg sw) time g2 = Some r ∧
            sim2 = Some (st_swarm r)) ∧
    match sim2 with
    | None => True
    | Some sw => swarm_ok sw ∧ water_ok sw ∧
                 ∀ i p, positions sw !! i = Some p → in_range env2 p
    end).
  { destruct sim as [swarm|].
    - destruct Hsim as [Hok Hwok].
      destruct (step_total env1 (set_params w pp pg swarm) time g2)
        as (r & Hrun & Hok' & Hinv' & _); [done|done|].
      rewrite Hrun. cbn. eexists _, _, _, _, _. split; [reflexivity|].
      split; [done|].
      apply step_swarm in Hrun as Hloops.
      destruct Hloops as (_ & _ & _ & _ & (_ & Hter & _) & _). cbn in Hter.
      split; [done|]. split; [done|].
      split; [intros sw [= <-]; by exists r|]. split; [done|].
      split; [apply (step_water_ok env1 (set_params w pp pg swarm) time g2 r Hwok Hrun)|].
      intros i p Hp. apply same_terrain_dims in Hter as [Hw2 Hh2].
      apply (in_range_dims env1); [done..|].
      eapply (step_positions_in_range env1); [lia|lia| |exact Hrun|exact Hp].
      apply Hok.
    - eexists _, _, _, _, _. split; [reflexivity|]. split; [done|].
      split; [apply same_terrain_refl|done]. }
  destruct Hstep
    as (env2 & sim2 & time2 & total2 & g3 & -> & Hinv2 & Hter2 & Hcount2 & Hran & Hsim2).
  cbn [mbind option_bind].
  apply same_terrain_dims in Hter2 as Hd2. destruct Hd2 as [Hw2 Hh2].
  (* the spontaneous ignition *)
  assert (Hign : ∃ env3 g4,
    (if Z.rem (stepCountRef s) 15 =? 0
     then let (r, g) := random g3 in
          if Qltb r 0.3
          then let (x, g) := random_int (inject_Z (width env2)) 0 g in
               let (y, g) := random_int (inject_Z (height env2)) 0 g in
               env ← ignite x y env2; Some (env, g)
          else Some (env2, g)
     else Some (env2, g3)) = Some (env3, g4) ∧
    env_inv env3 ∧ same_terrain env2 env3).
  { destruct (Z.rem (stepCountRef s) 15 =? 0).
    2:{ eexists _, _. split; [reflexivity|]. split; [done|apply same_terrain_refl]. }
    unfold random_int, random. cbn [fst snd]. destruct (Qltb _ 0.3).
    2:{ eexists _, _. split; [reflexivity|]. split; [done|apply same_terrain_refl]. }
    match goal with |- context [ignite ?x ?y env2] =>
      destruct (ignite_inv x y env2 Hinv2) as (env3 & -> & Hinv3 & Hter3)
    end.
    cbn. eexists _, _. split; [reflexivity|]. done. }
  destruct Hign as (env3 & g4 & -> & Hinv3 & Hter3). cbn [mbind option_bind].
  apply same_terrain_dims in Hter3 as Hd3. destruct Hd3 as [Hw3 Hh3].
  eexists. split; [reflexivity|]. split; [|split].
  - exists env3. cbn. split; [done|]. split; [done|]. split; [congruence|].
    split; [congruence|]. split; [rewrite Hcount2, Hcount1; lia|].
    destruct sim2 as [sw|]; [|done].
    destruct Hsim2 as (? & ? & Hpos). split; [done|]. split; [done|].
    intros i p Hp. apply (in_range_dims env2); [done..|]. by eapply Hpos.
  - intros e e'. cbn. intros [= <-] [= <-].
    eapply same_terrain_trans; [exact Hter1|].
    eapply same_terrain_trans; [exact Hter2|exact Hter3].
  - intros sw Hsw0. destruct (Hsame sw Hsw0) as (-> & -> & ->).
    destruct (Hran sw eq_refl) as (r & Hrun & ->). cbn. by eexists _, _, _, r.
Qed.

Lemma reachable_sim_inv s : reachable s → sim_inv s.
Proof.
  induction 1 as [g s Hinit|w pp pg s s' _ IH Hstep].
  - destruct (initSim_total g) as (s0 & Hs0 & Hinv). congruence.
  - destruct (step_sim_total w pp pg s IH) as (s1 & Hs1 & Hinv & _). congruence.
Qed.

Lemma ticks_reachable g w pp pg n s : ticks g w pp pg n = Some s → reachable s.
Proof.
  revert s. induction n as [|n IH]; intros s.
  - apply reach_init.
  - change (ticks g w pp pg n ≫= step_sim w pp pg = Some s → reachable s).
    destruct (ticks g w pp pg n) as [s0|]; [|done].
    apply reach_tick, IH. done.
Qed.

(** A reachable state always has a next tick: no access of [step_sim] fails. *)
Lemma step_sim_returns w pp pg s : reachable s → is_Some (step_sim w pp pg s).
Proof.
  intros Hs%reachable_sim_inv.
  destruct (step_sim_total w pp pg s Hs) as (s' & Hs' & _). by exists s'.
Qed.

(** An empty drone over a water cell: what [n] passes make of its timer. *)
Lemma suppress_ticks_refill i st p c n :
  positions (su_swarm st) !! i = Some p →
  out_of_bounds (su_env st) (Qfloor p.1) (Qfloor p.2) = false →
  cell_at (su_env st) (Qfloor p.1) (Qfloor p.2) = Some c → water c = true →
  water_left (su_swarm st) !! i = Some 0 →
  refill_timers (su_swarm st) !! i = Some 0 →
  0 ≤ Z.of_nat n ≤ REFILL_TIME →
  ∃ st', suppress_ticks i n st = Some st' ∧
         su_env st' = su_env st ∧ positions (su_swarm st') = positions (su_swarm st) ∧
         su_calls st' = su_calls st ∧
         if decide (Z.of_nat n = REFILL_TIME)
         then water_left (su_swarm st') !! i = Some MAX_WATER_CAPACITY ∧
              refill_timers (su_swarm st') !! i = Some 0
         else water_left (su_swarm st') !! i = Some 0 ∧
              refill_timers (su_swarm st') !! i = Some (Z.of_nat n).
Proof.
  intros Hp Hoob Hc Hwater Hw Ht. induction n as [|n IH]; intros Hn.
  { exists st. rewrite decide_False by (unfold REFILL_TIME; lia). by cbn. }
  destruct IH as (st1 & Hrun & Henv & Hpos & Hcalls & Hcase); [lia|].
  rewrite decide_False in Hcase by lia. destruct Hcase as [Hw1 Ht1].
  change (suppress_ticks i (S n) st) with (suppress_ticks i n st ≫= suppress_drone i).
  rewrite Hrun. cbn [mbind option_bind].
  unfold suppress_drone. rewrite Hpos, Hp, Henv.
  destruct p as [px py]. cbn [mbind option_bind fst snd] in *.
  rewrite Hoob, Hc. cbn [mbind option_bind]. rewrite Hw1. cbn [mbind option_bind].
  cbn [Z.eqb]. rewrite Hwater, Ht1. cbn [mbind option_bind].
  apply lookup_lt_Some in Hw1 as Hlw. apply lookup_lt_Some in Ht1 as Hlt.
  destruct (REFILL_TIME <=? Z.of_nat n + 1) eqn:Hfull.
  - apply Z.leb_le in Hfull. eexists. split; [reflexivity|].
    cbn [su_env su_swarm su_calls positions set_refill_timers set_water_left
         water_left refill_timers].
    split; [done|]. split; [done|]. split; [done|].
    rewrite decide_True by lia.
    rewrite !list_lookup_insert_eq by (by rewrite ?length_insert). done.
  - apply Z.leb_gt in Hfull. eexists. split; [reflexivity|].
    cbn [su_env su_swarm su_calls positions set_refill_timers set_water_left
         water_left refill_timers].
    split; [done|]. split; [done|]. split; [done|].
    rewrite decide_False by lia.
    rewrite list_lookup_insert_eq by done. split; [done|]. f_equal. lia.
Qed.

(** ** The claims *)

(** C7. Calling [extinguish_fire_at] on a cell that is not burning, or on
    coordinates outside the grid, returns [false] and leaves the grid, the
    Active Fire Set and the clock as they were. *)
Theorem extinguish_not_burning x y drone_pos simulation_time env :
  (in_bounds env x y = false ∨ ∃ c, cell_at env x y = Some c ∧ fire c = false) →
  extinguish_fire_at x y drone_pos simulation_time env
    = Some (false, env, simulation_time).
Proof.
  intros [Hb | (c & Hc & Hf)]; unfold extinguish_fire_at.
  - by rewrite Hb.
  - destruct (in_bounds env x y); [|done]. rewrite Hc. cbn. by rewrite Hf.
Qed.

(** C3. For an in-bounds burning cell, [extinguish_fire_at] called with a
    requester position and a clock returns [true], clears [fire] and [tree],
    sets [burnt] and [extinguished_by_drone], resets the cooldown to 0, removes
    the coordinate from the Active Fire Set, and advances the clock by the
    travel time [sqrt(dx^2 + dy^2) * CELL_SIZE / DRONE_SPEED] plus
    [EXTINGUISH_TIME]; with the requester on the target cell the advance is
    [EXTINGUISH_TIME] itself. *)
Theorem extinguish_burning x y (p : Z * Z) (t : Q) env c :
  in_bounds env x y = true → cell_at env x y = Some c → fire c = true →
  ∃ env' t',
    extinguish_fire_at x y (Some p) (Some t) env = Some (true, env', Some t') ∧
    (∃ c', cell_at env' x y = Some c' ∧
           fire c' = false ∧ burnt c' = true ∧ tree c' = false ∧
           extinguished_by_drone c' = true ∧ fire_cooldown c' = 0) ∧
    ((x, y) ∉ active_fires env') ∧
    (∀ xy, xy ≠ (x, y) → (xy ∈ active_fires env' ↔ xy ∈ active_fires env)) ∧
    t' = (t + (Math_sqrt (inject_Z ((x - p.1) * (x - p.1) + (y - p.2) * (y - p.2)))
               * CELL_SIZE / DRONE_SPEED + EXTINGUISH_TIME))%Q ∧
    (p = (x, y) → Math_sqrt 0 == 0 → t' == t + 40)%Q.
Proof.
  intros Hb Hc Hf.
  destruct (extinguish_fire_at_burning x y (Some p) (Some t) env c Hb Hc Hf)
    as (env' & Hrun & _ & _ & _ & Hcell & _ & Hfires & _).
  exists env'. eexists. split; [exact Hrun|].
  split; [exists (suppressed c); by repeat split|].
  split; [rewrite Hfires, list_elem_of_filter; tauto|].
  split; [intros xy Hne; rewrite Hfires, list_elem_of_filter; tauto|].
  split; [reflexivity|].
  intros -> H0. unfold travel_time. cbn [fst snd].
  rewrite !Z.sub_diag. change (inject_Z (0 * 0 + 0 * 0)) with 0%Q.
  rewrite H0. unfold CELL_SIZE, DRONE_SPEED, EXTINGUISH_TIME. field.
Qed.

(** C6. A swarm step leaves [gbest_value] as it was or strictly smaller,
    whatever the environment the fitness is evaluated in; so from the tick
    after the swarm is created, every tick of the simulation leaves it as it
    was or strictly smaller. *)
Theorem gbest_value_non_increasing :
  (∀ env sw t g r,
     step env sw t g = Some r →
     gbest_value (st_swarm r) = gbest_value sw ∨
     num_ltb (gbest_value (st_swarm r)) (gbest_value sw) = true) ∧
  (∀ w pp pg s s' sw,
     reachable s → simRef s = Some sw → step_sim w pp pg s = Some s' →
     ∃ sw', simRef s' = Some sw' ∧
            (gbest_value sw' = gbest_value sw ∨
             num_ltb (gbest_value sw') (gbest_value sw) = true)).
Proof.
  assert (Hstep : ∀ env sw t g r,
    step env sw t g = Some r → not_above (gbest_value sw) (gbest_value (st_swarm r))).
  { intros env sw t g r (sw1 & sw2 & _ & _ & Hsup & _ & _ & _ & _ & Hg & _)%step_swarm.
    destruct Hsup as (Hfl & _). destruct Hfl as (_ & _ & _ & _ & _ & _ & Hgv & _).
    cbn in Hgv. rewrite Hgv. exact Hg. }
  split; [exact Hstep|].
  intros w pp pg s s' sw Hreach%reachable_sim_inv Hsw Hrun.
  destruct (step_sim_total w pp pg s Hreach) as (s1 & Hs1 & _ & _ & Hran).
  assert (s1 = s') as -> by congruence.
  destruct (Hran sw Hsw) as (env1 & t & g & r & Hr & Hsw').
  exists (st_swarm r). split; [exact Hsw'|].
  exact (Hstep env1 (set_params w pp pg sw) t g r Hr).
Qed.

(** C2, as the code has it.  Every [extinguish_fire_at] call of the scan is
    passed the floor of the position the drone has after the first loop of
    this step has moved it, which is also its position when the step
    returns. *)
Theorem extinguish_calls_use_moved_position env sw t g r :
  step env sw t g = Some r →
  ∃ sw1,
    for_drones (move_drone env) (seq 0 (num_drones sw)) (sw, g) = Some (sw1, st_rng r) ∧
    positions (st_swarm r) = positions sw1 ∧
    ∀ c, c ∈ st_calls r →
      (call_drone c < num_drones sw)%nat ∧
      ∃ p, positions sw1 !! call_drone c = Some p ∧
           call_drone_pos c = (Qfloor p.1, Qfloor p.2).
Proof.
  intros (sw1 & sw2 & Hmove & _ & Hsup & _ & Hp & _)%step_swarm.
  destruct Hsup as (Hfl & _ & _ & Hcalls & _). cbn in Hfl, Hcalls.
  destruct Hfl as (_ & Hpos & _).
  exists sw1. split; [done|]. split; [congruence|].
  intros c Hc. rewrite Forall_forall in Hcalls. rewrite <- Hp. by apply Hcalls.
Qed.

(** C4. Between ticks every [water_left] entry is within
    [0 .. MAX_WATER_CAPACITY].  Through a swarm step, a drone that had water
    loses one unit per successful suppression it made and nothing else; a
    drone that was empty gains water only by the reset to
    [MAX_WATER_CAPACITY], which happens on the tick its timer, counting the
    ticks it spent empty over a water cell, reaches [REFILL_TIME], and which
    resets the timer to 0.  An empty drone that stays over a water cell has
    timer [n] and no water after [n < REFILL_TIME] passes, and a full tank and
    timer 0 after [REFILL_TIME] passes. *)
Theorem water_left_step :
  (∀ s sw i w,
     reachable s → simRef s = Some sw → water_left sw !! i = Some w →
     0 ≤ w ≤ MAX_WATER_CAPACITY) ∧
  (∀ env sw clock g r,
     water_ok sw → step env sw clock g = Some r →
     water_ok (st_swarm r) ∧
     ∀ i w t, (i < num_drones sw)%nat →
       water_left sw !! i = Some w → refill_timers sw !! i = Some t →
       ∃ p w' t',
         positions (st_swarm r) !! i = Some p ∧
         water_left (st_swarm r) !! i = Some w' ∧
         refill_timers (st_swarm r) !! i = Some t' ∧
         ((0 < w ∧ w' = w - successes i (st_calls r) ∧ t' = t ∧ 0 ≤ w' ∧
           0 ≤ successes i (st_calls r) ≤ 3) ∨
          (w = 0 ∧ successes i (st_calls r) = 0 ∧ over_water env p ∧
           t + 1 = REFILL_TIME ∧ w' = MAX_WATER_CAPACITY ∧ t' = 0) ∨
          (w = 0 ∧ successes i (st_calls r) = 0 ∧ over_water env p ∧
           t + 1 < REFILL_TIME ∧ w' = 0 ∧ t' = t + 1) ∨
          (w = 0 ∧ successes i (st_calls r) = 0 ∧ ¬ over_water env p ∧
           w' = 0 ∧ t' = t))) ∧
  (∀ i st p c n,
     positions (su_swarm st) !! i = Some p →
     out_of_bounds (su_env st) (Qfloor p.1) (Qfloor p.2) = false →
     cell_at (su_env st) (Qfloor p.1) (Qfloor p.2) = Some c → water c = true →
     water_left (su_swarm st) !! i = Some 0 →
     refill_timers (su_swarm st) !! i = Some 0 →
     0 ≤ Z.of_nat n ≤ REFILL_TIME →
     ∃ st', suppress_ticks i n st = Some st' ∧
            if decide (Z.of_nat n = REFILL_TIME)
            then water_left (su_swarm st') !! i = Some MAX_WATER_CAPACITY ∧
                 refill_timers (su_swarm st') !! i = Some 0
            else water_left (su_swarm st') !! i = Some 0 ∧
                 refill_timers (su_swarm st') !! i = Some (Z.of_nat n)).
Proof.
  split; [|split].
  { intros s sw i w (env & _ & _ & _ & _ & _ & Hsw)%reachable_sim_inv Hsim Hw.
    rewrite Hsim in Hsw. destruct Hsw as ((_ & _ & _ & _ & Hlw & Hlt) & Hok & _).
    destruct (lookup_lt_is_Some_2 (refill_timers sw) i) as [t Ht].
    { rewrite Hlt, <- Hlw. by eapply lookup_lt_Some. }
    by destruct (Hok i w t Hw Ht). }
  { intros env sw clock g r.
    intros Hok (sw1 & sw2 & _ & _ & Hsup & Hn & _ & Hw & Ht & _)%step_swarm.
    destruct Hsup as (Hfl & _ & _ & _ & _ & Hrest & Hpos & Hdone).
    cbn [su_swarm su_calls] in *. rewrite Hw, Ht in *.
    assert (Hcases : ∀ i w t, (i < num_drones sw)%nat →
      water_left sw !! i = Some w → refill_timers sw !! i = Some t →
      ∃ p w' t',
        positions (st_swarm r) !! i = Some p ∧
        water_left (st_swarm r) !! i = Some w' ∧
        refill_timers (st_swarm r) !! i = Some t' ∧
        water_transition (over_water env p) (successes i (st_calls r)) w t w' t').
    { intros i w t Hi Hwi Hti. destruct (Hpos i Hi) as [p Hp].
      destruct (Hdone i p w t Hi Hp Hwi Hti) as (w' & t' & Hw' & Ht' & Htr).
      exists p, w', t'. destruct Hfl as (_ & Hposeq & _). by rewrite Hposeq. }
    split.
    - intros i w' t' Hw' Ht'.
      destruct (decide (i < num_drones sw)%nat) as [Hi|Hi].
      + destruct Hfl as (_ & _ & _ & _ & _ & _ & _ & _ & _ & _ & Hlw & Hlt).
        rewrite Hw in Hlw. rewrite Ht in Hlt.
        destruct (lookup_lt_is_Some_2 (water_left sw) i) as [w Hwi].
        { rewrite <- Hlw. by eapply lookup_lt_Some. }
        destruct (lookup_lt_is_Some_2 (refill_timers sw) i) as [t Hti].
        { rewrite <- Hlt. by eapply lookup_lt_Some. }
        destruct (Hcases i w t Hi Hwi Hti) as (p & w'' & t'' & _ & Hw'' & Ht'' & Htr).
        assert (w'' = w') as -> by congruence. assert (t'' = t') as -> by congruence.
        destruct (Hok i w t Hwi Hti) as (Hw0 & Ht0 & Hwt).
        unfold water_transition, MAX_WATER_CAPACITY, REFILL_TIME in *. lia.
      + destruct (Hrest i) as [Hwi Hti]; [lia|]. rewrite Hwi in Hw'. rewrite Hti in Ht'.
        by apply (Hok i).
    - intros i w t Hi Hwi Hti.
      destruct (Hcases i w t Hi Hwi Hti) as (p & w' & t' & Hp & Hw' & Ht' & Htr).
      exists p, w', t'. split; [done|]. split; [done|]. split; [done|].
      destruct (Hok i w t Hwi Hti) as (Hw0 & Ht0 & Hwt).
      unfold water_transition, MAX_WATER_CAPACITY, REFILL_TIME in *.
      destruct Htr as [H|[H|[H|H]]].
      + left. lia.
      + right. left. destruct H as (? & ? & ? & ? & ? & ?).
        split; [done|]. split; [done|]. split; [done|]. split; [lia|done].
      + right. right. left. tauto.
      + right. right. right. tauto. }
  { intros i st p c n Hp Hoob Hc Hwater Hw Ht Hn.
    destruct (suppress_ticks_refill i st p c n Hp Hoob Hc Hwater Hw Ht Hn)
      as (st' & Hrun & _ & _ & _ & Hcase).
    by exists st'. }
Qed.

(** C8. When a burning cell burns out naturally in [spread_fire], its [tree]
    flag is left as it was: for a forest cell it stays [true] while [fire] is
    cleared and [burnt] set, and [count_trees] still counts the cell as saved.
    [extinguish_fire_at] on the same cell clears [tree], and [count_trees]
    then counts it as burnt. *)
Theorem natural_burnout_keeps_tree x y env nf sa g c p t :
  in_bounds env x y = true → cell_at env x y = Some c →
  fire c = true → tree c = true →
  Qltb (random g).1 0.03 = true →
  (∃ st' c',
     spread_from (x, y) (mkSpread env nf sa g) = Some st' ∧
     cell_at (sp_env st') x y = Some c' ∧
     tree c' = true ∧ fire c' = false ∧ burnt c' = true ∧
     extinguished_by_drone c' = false ∧
     count_trees (sp_env st') = count_trees env) ∧
  (∃ env' t' c',
     extinguish_fire_at x y p t env = Some (true, env', t') ∧
     cell_at env' x y = Some c' ∧
     tree c' = false ∧ fire c' = false ∧ burnt c' = true ∧
     extinguished_by_drone c' = true ∧
     count_trees env' = ((count_trees env).1 - 1, (count_trees env).2 + 1)).
Proof.
  intros Hb Hc Hfire Htree Hdraw.
  pose proof (cell_at_nonneg _ _ _ _ Hc) as [Hx Hy]. split.
  - unfold spread_from. cbn [sp_env sp_rng new_fires still_active].
    rewrite Hc. cbn [mbind option_bind].
    set (env1 := if 0 <? fire_cooldown c
                 then update_cell (set_fire_cooldown (fire_cooldown c - 1)) x y env
                 else env).
    assert (H1 : ∃ c1, cell_at env1 x y = Some c1 ∧ tree c1 = true ∧
                       count_trees env1 = count_trees env) .
    { subst env1. destruct (0 <? fire_cooldown c).
      - eexists. split; [by apply cell_at_update_cell_eq|]. split; [done|].
        by eapply count_trees_update_cell_same.
      - by exists c. }
    destruct H1 as (c1 & Hc1 & Htree1 & Hcount1). clearbody env1.
    unfold random in *. cbn [fst snd] in *. rewrite Hdraw.
    eexists _, _. split; [reflexivity|]. cbn [sp_env].
    split; [by repeat apply cell_at_update_cell_eq|].
    split; [done|]. split; [done|]. split; [done|]. split; [done|].
    rewrite <- Hcount1.
    erewrite count_trees_update_cell_same;
      [|by repeat apply cell_at_update_cell_eq|by cbn; unfold cell_count; cbn; rewrite Htree1].
    erewrite count_trees_update_cell_same;
      [|by repeat apply cell_at_update_cell_eq|by cbn; unfold cell_count; cbn; rewrite Htree1].
    erewrite count_trees_update_cell_same;
      [done|done|by cbn; unfold cell_count; cbn; rewrite Htree1].
  - unfold extinguish_fire_at. rewrite Hb, Hc. cbn [mbind option_bind].
    rewrite Hfire. eexists _, _, _. split; [reflexivity|].
    rewrite cell_at_set_active_fires, count_trees_set_active_fires.
    split; [by repeat apply cell_at_update_cell_eq|].
    split; [done|]. split; [done|]. split; [done|]. split; [done|].
    set (e1 := update_cell (set_fire false) x y env).
    set (e2 := update_cell (set_burnt true) x y e1).
    set (e3 := update_cell (set_tree false) x y e2).
    set (e4 := update_cell (set_fire_cooldown 0) x y e3).
    assert (Hc1 : cell_at e1 x y = Some (set_fire false c))
      by by apply cell_at_update_cell_eq.
    assert (Hc2 : cell_at e2 x y = Some (set_burnt true (set_fire false c)))
      by by apply cell_at_update_cell_eq.
    assert (Hc3 : cell_at e3 x y = Some (set_tree false (set_burnt true (set_fire false c))))
      by by apply cell_at_update_cell_eq.
    assert (Hc4 : cell_at e4 x y
              = Some (set_fire_cooldown 0 (set_tree false (set_burnt true (set_fire false c)))))
      by by apply cell_at_update_cell_eq.
    assert (E1 : count_trees e1 = count_trees env).
    { apply count_trees_update_cell_same with c; [done|].
      unfold cell_count. cbn. by rewrite Htree. }
    assert (E2 : count_trees e2 = count_trees e1).
    { eapply count_trees_update_cell_same; [exact Hc1|].
      unfold cell_count. cbn. by rewrite Htree. }
    assert (E3 : pair_add (count_trees e3) (1, 0) = pair_add (count_trees e2) (0, 1)).
    { pose proof (count_trees_update_cell (set_tree false) x y e2 _ Hc2) as H3.
      unfold cell_count in H3. cbn in H3. by rewrite Htree in H3. }
    assert (E4 : count_trees e4 = count_trees e3).
    { eapply count_trees_update_cell_same; [exact Hc3|done]. }
    rewrite (count_trees_update_cell_same _ x y e4 _ Hc4) by done.
    rewrite E4. rewrite E2, E1 in E3.
    destruct (count_trees e3), (count_trees env). unfold pair_add in E3. cbn in *.
    injection E3 as ? ?. f_equal; lia.
Qed.

(** C10. Between ticks every position of the swarm is within
    [[0, width - 1] x [0, height - 1]], so that the out-of-bounds test, which
    guards the 1e6 penalty of [fitness] and the skip of the suppression pass,
    is false for it.  For a grid of at least one cell, the positions the
    constructor draws are within these bounds when the draws are in [[0, 1)],
    and so is every position after a swarm step, whose first loop clamps both
    axes. *)
Theorem positions_stay_in_bounds :
  (∀ s env sw,
     reachable s → envRef s = Some env → simRef s = Some sw →
     ∀ i p, positions sw !! i = Some p →
       in_range env p ∧ out_of_bounds env (Qfloor p.1) (Qfloor p.2) = false) ∧
  (∀ env,
     1 ≤ width env → 1 ≤ height env →
     (∀ n g sw g',
        (∀ k, 0 <= draws g k < 1)%Q →
        new_DroneSwarm env n g = Some (sw, g') →
        ∀ i p, positions sw !! i = Some p →
          in_range env p ∧ out_of_bounds env (Qfloor p.1) (Qfloor p.2) = false) ∧
     (∀ sw t g r,
        length (positions sw) = num_drones sw →
        step env sw t g = Some r →
        width (st_env r) = width env ∧ height (st_env r) = height env ∧
        ∀ i p, positions (st_swarm r) !! i = Some p →
          in_range env p ∧ out_of_bounds env (Qfloor p.1) (Qfloor p.2) = false)).
Proof.
  split.
  { intros s env sw (env0 & Henv0 & _ & _ & _ & _ & Hsw)%reachable_sim_inv Henv Hsim.
    assert (env0 = env) as -> by congruence. rewrite Hsim in Hsw.
    destruct Hsw as (_ & _ & Hpos). intros i p Hp.
    split; [by eapply Hpos|]. eapply in_range_not_out_of_bounds, Hpos, Hp. }
  intros env Hw Hh. split.
  - intros n g sw g' Hdraws. unfold new_DroneSwarm.
    pose proof (random_pairs_in_range env n g Hw Hh Hdraws) as Hps.
    destruct (random_pairs _ _ n g) as [ps g1]. cbn in Hps.
    destruct (random_pairs _ _ n g1) as [vs g2].
    destruct (mapM (fitness env) ps) as [values|]; [|done]. cbn.
    destruct (index_of_min values) as [best_idx|]; [|done]. cbn.
    destruct (ps !! best_idx) as [gp|]; [|done]. cbn.
    destruct (values !! best_idx) as [gv|]; [|done]. cbn.
    intros [= <- _] i p Hp. cbn in Hp.
    rewrite Forall_lookup in Hps. specialize (Hps i p Hp).
    split; [done|]. by apply in_range_not_out_of_bounds.
  - intros sw t g r Hlen Hrun.
    apply step_swarm in Hrun as Hloops.
    destruct Hloops as (_ & sw2 & _ & _ & Hsup & _).
    destruct Hsup as (_ & Hter & _). cbn in Hter.
    apply same_terrain_dims in Hter as [Hw' Hh'].
    split; [done|]. split; [done|]. intros i p Hp.
    pose proof (step_positions_in_range env sw t g r Hw Hh Hlen Hrun i p Hp) as Hin.
    split; [done|]. by apply in_range_not_out_of_bounds.
Qed.

(** C5. Between ticks, whatever the fire advance, the swarm step and the
    spontaneous ignitions did, the Active Fire Set has no duplicate and its
    length is the number of cells of the grid whose [fire] flag is set. *)
Theorem active_fires_consistent s env :
  reachable s → envRef s = Some env →
  NoDup (active_fires env) ∧
  length (active_fires env) = count_burning env ∧
  ∀ x y, (x, y) ∈ active_fires env ↔ ∃ c, cell_at env x y = Some c ∧ fire c = true.
Proof.
  intros (env' & Henv & (Hok & Hfires & _) & _)%reachable_sim_inv Hs.
  assert (env' = env) as -> by congruence.
  split; [apply Hfires|]. split; [by apply active_fires_count|].
  intros x y. destruct Hfires as [_ Hin]. rewrite Hin.
  apply (burning_at_Some env (x, y)).
Qed.

(** C9. In every state the simulation reaches, a water cell is neither
    burning, nor forest, nor burnt; and through a tick, with its fire advance,
    swarm step and spontaneous ignition, every water cell stays such a water
    cell. *)
Theorem water_never_burns s env :
  reachable s → envRef s = Some env →
  (∀ x y c, cell_at env x y = Some c → water c = true →
     fire c = false ∧ tree c = false ∧ burnt c = false) ∧
  (∀ w pp pg s' env' x y c,
     step_sim w pp pg s = Some s' → envRef s' = Some env' →
     cell_at env x y = Some c → water c = true →
     ∃ c', cell_at env' x y = Some c' ∧ water c' = true ∧
           fire c' = false ∧ tree c' = false ∧ burnt c' = false).
Proof.
  intros Hreach Henv. pose proof (reachable_sim_inv s Hreach) as Hinv.
  split.
  - destruct Hinv as (env0 & Henv0 & (_ & _ & Hdry) & _).
    assert (env0 = env) as -> by congruence.
    intros x y c Hc Hw. destruct (Hdry x y c Hc Hw) as (? & ? & ?). done.
  - intros w pp pg s' env' x y c Hstep Henv' Hc Hw.
    destruct (step_sim_total w pp pg s Hinv) as (s1 & Hs1 & Hinv1 & Hter & _).
    assert (s1 = s') as -> by congruence.
    destruct (Hter env env' Henv Henv') as (_ & _ & _ & Hcells).
    specialize (Hcells x y). rewrite Hc in Hcells.
    destruct (cell_at env' x y) as [c'|] eqn:Hc'; [|done].
    injection Hcells as Hwc _. exists c'. split; [done|].
    destruct Hinv1 as (env1 & Henv1 & (_ & _ & Hdry1) & _).
    assert (env1 = env') as -> by congruence.
    assert (Hw' : water c' = true) by congruence.
    destruct (Hdry1 x y c' Hc' Hw') as (? & ? & ?). done.
Qed.

(** ** spread_fire: the ignition draw *)

(** C1, as the code has it.  When a burning cell tries an in-bounds, ignitable
    neighbour at offset [(dx, dy)], the draw is compared with
    [clamp(0.05 + (neighbour.elevation - cell.elevation) * 0.003 + bonus,
    0.005, 0.4)], where [bonus] is 0.08 when [(dx, dy)] is the wind vector and
    absent otherwise: the bonus is added before the clamp.  The neighbour
    ignites, with cooldown 2, exactly when the draw is below that value. *)
Theorem ignition_draw x y dx dy st cell ncell :
  (dx, dy) ≠ (0, 0) →
  in_bounds (sp_env st) (x + dx) (y + dy) = true →
  cell_at (sp_env st) x y = Some cell →
  cell_at (sp_env st) (x + dx) (y + dy) = Some ncell →
  ignitable ncell = true →
  let base := (0.05 + (elevation ncell - elevation cell) * 0.003)%Q in
  let p := Qmin (Qmax (if decide ((dx, dy) = wind (sp_env st))
                       then base + 0.08 else base)%Q 0.005) 0.4 in
  let r := (random (sp_rng st)).1 in
  ∃ st', try_spread x y dx dy st = Some st' ∧
         sp_rng st' = (random (sp_rng st)).2 ∧
         (burning_at (sp_env st') (x + dx, y + dy) = true ↔ (r < p)%Q) ∧
         ((r < p)%Q →
            cell_at (sp_env st') (x + dx) (y + dy)
              = Some (set_fire_cooldown 2 (set_fire true ncell)) ∧
            new_fires st' = new_fires st ++ [(x + dx, y + dy)]) ∧
         (¬ (r < p)%Q → sp_env st' = sp_env st ∧ new_fires st' = new_fires st).
Proof.
  intros Hne Hb Hc Hn Hi base p r.
  pose proof (cell_at_nonneg _ _ _ _ Hn) as [Hx Hy].
  unfold try_spread.
  replace ((dx =? 0) && (dy =? 0)) with false.
  2:{ symmetry. apply andb_false_iff.
      destruct (decide (dx = 0)); [right|left]; [|lia].
      apply Z.eqb_neq. intros ->. by subst. }
  rewrite Hb, Hc. cbn. rewrite Hn. cbn. rewrite Hi.
  assert (Hp : ignition_probability (sp_env st) cell ncell dx dy = p).
  { unfold ignition_probability, p, base. destruct (wind (sp_env st)) as [wx wy].
    cbn [fst snd]. case_decide as Hw.
    - injection Hw as -> ->. by rewrite !Z.eqb_refl.
    - replace ((dx =? wx) && (dy =? wy)) with false; [done|].
      symmetry. apply andb_false_iff.
      destruct (decide (dx = wx)); [right|left]; [|lia].
      apply Z.eqb_neq. intros ->. by subst. }
  rewrite Hp.
  assert (Hr : r = draws (sp_rng st) (cursor (sp_rng st))) by reflexivity.
  unfold random. cbn [fst snd]. rewrite <- Hr. clearbody r.
  destruct (Qltb r p) eqn:Hlt.
  - apply Qltb_lt in Hlt. eexists. split; [reflexivity|]. cbn.
    split; [done|]. unfold burning_at. cbn [fst snd].
    rewrite !cell_at_update_cell by done. rewrite !decide_True by done.
    rewrite Hn. cbn. repeat split; done.
  - assert (¬ (r < p)%Q) as Hnlt.
    { intros H. apply Qltb_lt in H. congruence. }
    eexists. split; [reflexivity|]. cbn. split; [done|].
    unfold burning_at. cbn [fst snd]. rewrite Hn.
    unfold ignitable in Hi. destruct (fire ncell); [by rewrite andb_false_r in Hi|].
    repeat split; done.
Qed.


(** ** Further properties of the code *)

(** *** spread_fire, cell by cell *)

Lemma ignitable_lit n c : ignitable (lit n c) = false.
Proof. unfold ignitable, lit. cbn. by destruct (tree c). Qed.

Lemma lights_refl x y env : lights x y env env.
Proof. intros a b. by left. Qed.

Lemma lights_trans x y e1 e2 e3 :
  lights x y e1 e2 → lights x y e2 e3 → lights x y e1 e3.
Proof.
  intros H12 H23 a b.
  destruct (H23 a b) as [Heq|(Hadj & n & Hn & Hi & Hlit)].
  - rewrite Heq. apply H12.
  - destruct (H12 a b) as [Heq|(_ & n1 & Hn1 & Hi1 & Hlit1)].
    + right. split; [done|]. exists n. by rewrite <- Heq.
    + rewrite Hlit1 in Hn. injection Hn as <-. by rewrite ignitable_lit in Hi.
Qed.

Lemma try_spread_lights x y dx dy st st' :
  -1 ≤ dx ≤ 1 → -1 ≤ dy ≤ 1 →
  try_spread x y dx dy st = Some st' → lights x y (sp_env st) (sp_env st').
Proof.
  intros Hdx Hdy. unfold try_spread.
  destruct ((dx =? 0) && (dy =? 0)) eqn:Hzero.
  { intros [= <-]. apply lights_refl. }
  destruct (in_bounds (sp_env st) (x + dx) (y + dy)); [|intros [= <-]; apply lights_refl].
  destruct (cell_at (sp_env st) x y) as [cell|]; [|done]. cbn [mbind option_bind].
  destruct (cell_at (sp_env st) (x + dx) (y + dy)) as [ncell|] eqn:Hn; [|done].
  cbn [mbind option_bind].
  destruct (ignitable ncell) eqn:Hi; [|intros [= <-]; apply lights_refl].
  unfold random. cbn [fst snd].
  destruct (Qltb _ _); intros [= <-]; cbn [sp_env]; [|apply lights_refl].
  pose proof (cell_at_nonneg _ _ _ _ Hn) as [Hx Hy].
  intros a b. rewrite !cell_at_update_cell by done.
  case_decide as Heq; [|by left]. destruct Heq as [-> ->]. right.
  split.
  - split; [|cbn; lia]. intros [= ? ?].
    apply andb_false_iff in Hzero as [?%Z.eqb_neq|?%Z.eqb_neq]; lia.
  - exists ncell. split; [done|]. split; [done|]. by rewrite Hn.
Qed.

Lemma spread_neighbours_lights x y ds st st' :
  Forall (λ d, -1 ≤ d.1 ≤ 1 ∧ -1 ≤ d.2 ≤ 1) ds →
  spread_neighbours x y ds st = Some st' → lights x y (sp_env st) (sp_env st').
Proof.
  intros Hds. revert st. induction Hds as [|[dx dy] ds [Hdx Hdy] _ IH]; intros st.
  { intros [= <-]. apply lights_refl. }
  cbn [spread_neighbours]. cbn in Hdx, Hdy.
  destruct (try_spread x y dx dy st) as [st1|] eqn:H1; [|done]. cbn [mbind option_bind].
  intros H2. eapply lights_trans; [|by apply IH].
  by apply (try_spread_lights x y dx dy).
Qed.

Lemma offsets_near : Forall (λ d, -1 ≤ d.1 ≤ 1 ∧ -1 ≤ d.2 ≤ 1) offsets.
Proof. repeat constructor; cbn; lia. Qed.

Lemma set_fire_cooldown_same c : set_fire_cooldown (fire_cooldown c) c = c.
Proof. by destruct c. Qed.

Lemma not_adjacent_self xy : ¬ adjacent xy xy.
Proof. by intros [? _]. Qed.

Lemma spread_from_cells env done x y st st' c0 :
  spread_cells env done (sp_env st) → (x, y) ∉ done →
  cell_at env x y = Some c0 → fire c0 = true →
  spread_from (x, y) st = Some st' →
  spread_cells env (done ++ [(x, y)]) (sp_env st').
Proof.
  intros Hinv Hnew Hc0 Hf0 Hrun.
  pose proof (cell_at_nonneg _ _ _ _ Hc0) as [Hx Hy].
  destruct (Hinv x y c0 Hc0) as (c & Hc & Hcur). rewrite Hf0, decide_False in Hcur by done.
  subst c. unfold spread_from in Hrun. rewrite Hc in Hrun. cbn [mbind option_bind] in Hrun.
  set (k' := cooled (fire_cooldown c0)).
  set (env1 := if 0 <? fire_cooldown c0
               then update_cell (set_fire_cooldown (fire_cooldown c0 - 1)) x y (sp_env st)
               else sp_env st) in Hrun.
  assert (H1 : ∀ a b, cell_at env1 a b =
                      if decide (a = x ∧ b = y) then Some (set_fire_cooldown k' c0)
                      else cell_at (sp_env st) a b).
  { intros a b. subst env1 k'. unfold cooled. destruct (0 <? fire_cooldown c0).
    - rewrite cell_at_update_cell by done. case_decide as Heq; [|done].
      destruct Heq as [-> ->]. by rewrite Hc.
    - case_decide as Heq; [|done]. destruct Heq as [-> ->].
      by rewrite set_fire_cooldown_same. }
  clearbody env1. unfold random in Hrun. cbn [fst snd] in Hrun.
  (* what the pass makes of the other cells once [(x, y)] is settled *)
  assert (Hrest : ∀ env', 
    (∀ a b, (a, b) ≠ (x, y) → 
       cell_at env' a b = cell_at (sp_env st) a b ∨
       (adjacent (a, b) (x, y) ∧ fire_cooldown c0 ≤ 1 ∧
        ∃ n, cell_at (sp_env st) a b = Some n ∧ ignitable n = true ∧
             cell_at env' a b = Some (lit 2 n))) →
    (cell_at env' x y = Some (burnt_out c0) ∨ cell_at env' x y = Some (kept_burning c0)) →
    spread_cells env (done ++ [(x, y)]) env').
  { intros env' Hothers Hself a b c Hcab.
    destruct (decide ((a, b) = (x, y))) as [[= -> ->]|Hne].
    - assert (c = c0) as -> by congruence.
      assert (Hin : (x, y) ∈ done ++ [(x, y)]).
      { apply elem_of_app. right. by apply list_elem_of_singleton. }
      destruct Hself as [->| ->]; eexists; (split; [done|]);
        rewrite Hf0, decide_True by done; auto.
    - destruct (Hinv a b c Hcab) as (c' & Hc' & Hcase).
      assert (Hmem : (a, b) ∈ done ++ [(x, y)] ↔ (a, b) ∈ done).
      { rewrite elem_of_app, list_elem_of_singleton. tauto. }
      destruct (Hothers a b Hne) as [Heq|(Hadj & Hk & n & Hn & Hi & Hlit)].
      + exists c'. split; [congruence|]. destruct (fire c).
        * destruct (decide ((a, b) ∈ done)).
          -- by rewrite decide_True by by apply Hmem.
          -- by rewrite decide_False by by rewrite Hmem.
        * destruct Hcase as [->|(? & ? & src & ? & ? & ?)]; [by left|].
          right. split; [done|]. split; [done|]. exists src.
          split; [|done]. apply elem_of_app. by left.
      + assert (n = c') as -> by congruence.
        exists (lit 2 c'). split; [done|]. destruct (fire c) eqn:Hfc.
        * exfalso. destruct (decide ((a, b) ∈ done)).
          -- destruct Hcase as [->| ->]; unfold ignitable in Hi; cbn in Hi;
               rewrite ?Hfc in Hi; by destruct (tree c).
          -- subst c'. unfold ignitable in Hi. rewrite Hfc in Hi. by destruct (tree c).
        * destruct Hcase as [->|(_ & -> & _)]; [|by rewrite ignitable_lit in Hi].
          right. split; [done|]. split; [done|]. exists (x, y).
          split; [apply elem_of_app; right; by apply list_elem_of_singleton|].
          split; [done|]. exists c0. done. }
  destruct (Qltb _ 0.03).
  { injection Hrun as <-. cbn [sp_env]. apply Hrest.
    - intros a b Hne. left. rewrite !cell_at_update_cell_ne by done.
      rewrite H1. rewrite decide_False; [done|]. intros [-> ->]. done.
    - left. rewrite !cell_at_update_cell by done. rewrite !decide_True by done.
      rewrite H1, decide_True by done. reflexivity. }
  rewrite H1, decide_True in Hrun by done. cbn [mbind option_bind] in Hrun.
  cbn [fire_cooldown set_fire_cooldown] in Hrun.
  destruct (k' =? 0) eqn:Hk.
  - apply Z.eqb_eq in Hk.
    destruct (spread_neighbours x y offsets _) as [st2|] eqn:Hnb in Hrun; [|done].
    cbn [mbind option_bind sp_env] in Hrun. injection Hrun as <-. cbn [sp_env].
    apply spread_neighbours_lights in Hnb; [|apply offsets_near]. cbn [sp_env] in Hnb.
    assert (Hk0 : fire_cooldown c0 ≤ 1).
    { subst k'. unfold cooled in Hk. destruct (0 <? fire_cooldown c0) eqn:E; lia. }
    apply Hrest.
    + intros a b Hne. rewrite cell_at_update_cell_ne by done.
      destruct (Hnb a b) as [Heq|(Hadj & n & Hn & Hi & Hlit)].
      * left. rewrite Heq, H1. rewrite decide_False; [done|]. intros [-> ->]. done.
      * right. split; [done|]. split; [done|]. exists n.
        rewrite H1, decide_False in Hn; [done|]. intros [-> ->]. done.
    + right. rewrite cell_at_update_cell by done. rewrite decide_True by done.
      destruct (Hnb x y) as [Heq|(Hadj & _)]; [|by apply not_adjacent_self in Hadj].
      rewrite Heq, H1, decide_True by done. cbn. unfold kept_burning.
      fold k'. rewrite Hk. reflexivity.
  - cbn [mbind option_bind sp_env] in Hrun. injection Hrun as <-. cbn [sp_env].
    apply Hrest.
    + intros a b Hne. left. rewrite H1. rewrite decide_False; [done|].
      intros [-> ->]. done.
    + right. rewrite H1, decide_True by done. unfold kept_burning. fold k'.
      by rewrite Hk.
Qed.

Lemma spread_loop_cells env fs done st st' :
  NoDup (done ++ fs) →
  (∀ xy, xy ∈ fs → burning_at env xy = true) →
  spread_cells env done (sp_env st) →
  spread_loop fs st = Some st' →
  spread_cells env (done ++ fs) (sp_env st').
Proof.
  revert done st. induction fs as [|[x y] fs IH]; intros done st Hnd Hburn Hinv.
  { intros [= <-]. by rewrite app_nil_r. }
  cbn [spread_loop]. destruct (spread_from (x, y) st) as [st1|] eqn:H1; [|done].
  cbn [mbind option_bind]. intros H2.
  replace (done ++ (x, y) :: fs) with ((done ++ [(x, y)]) ++ fs) in *
    by (by rewrite <- app_assoc).
  destruct (proj1 (burning_at_Some env (x, y))) as (c0 & Hc0 & Hf0).
  { apply Hburn. by left. }
  apply (IH (done ++ [(x, y)]) st1); [done| |  |done].
  - intros xy Hxy. apply Hburn. by right.
  - apply (spread_from_cells env done x y st st1 c0); try done.
    apply NoDup_app in Hnd as (Hnd & _). apply NoDup_app in Hnd as (_ & Hnd & _).
    intros Hin. apply (Hnd _ Hin). by apply list_elem_of_singleton.
Qed.

Lemma spread_cells_start env : spread_cells env [] env.
Proof.
  intros x y c Hc. exists c. split; [done|]. destruct (fire c); [|by left].
  rewrite decide_False; [done|]. apply not_elem_of_nil.
Qed.

Lemma spread_fire_cells env g env' g' :
  fires_ok env → spread_fire env g = Some (env', g') →
  ∀ x y c, cell_at env x y = Some c →
    ∃ c', cell_at env' x y = Some c' ∧ spread_outcome env (x, y) c c'.
Proof.
  intros [Hnd Hin]. unfold spread_fire.
  destruct (spread_loop (active_fires env) _) as [st|] eqn:Hloop; [|done].
  cbn [mbind option_bind]. intros [= <- <-] x y c Hc.
  apply (spread_loop_cells env _ []) in Hloop;
    [|done|by intros xy ?%Hin|apply spread_cells_start].
  cbn [app sp_env] in Hloop. destruct (Hloop x y c Hc) as (c' & Hc' & Hcase).
  exists c'. split; [by rewrite cell_at_set_active_fires|].
  unfold spread_outcome. destruct (fire c) eqn:Hf.
  - rewrite decide_True in Hcase; [done|].
    apply Hin, burning_at_Some. by exists c.
  - destruct Hcase as [->|(? & ? & src & _ & ? & ?)]; [by left|].
    right. split; [done|]. split; [done|]. by exists src.
Qed.

(** *** A rule for the suppression pass of step

    A property [I] of the environment, the clock, the calls made so far and
    their count holds after the pass when every call of [extinguish_fire_at]
    that the pass can make keeps it. *)

Section SuppressRule.

Variable I : Environment → option Q → list ExtinguishCall → Z → Prop.

Hypothesis Hcalls : kept_by_calls I.


Lemma scan_cell_rule i x y dx dy st brk st' :
  -1 ≤ dx ≤ 1 → -1 ≤ dy ≤ 1 → holds_in I st →
  scan_cell i x y dx dy st = Some (brk, st') → holds_in I st'.
Proof.
  intros Hdx Hdy HI. unfold scan_cell.
  destruct (water_left (su_swarm st) !! i) as [w|]; [|done]. cbn [mbind option_bind].
  destruct ((3 <=? extinguished_local st) || (w <=? 0)); [by intros [= _ <-]|].
  destruct (extinguish_fire_at _ _ _ _ _) as [[[ok env'] t']|] eqn:Hrun; [|done].
  cbn [mbind option_bind].
  pose proof (Hcalls _ _ _ _ i x y dx dy ok env' t' HI Hdx Hdy Hrun) as HI'.
  destruct ok; intros [= _ <-]; exact HI'.
Qed.

Lemma scan_column_rule i x y dx dys st st' :
  -1 ≤ dx ≤ 1 → Forall (λ dy, -1 ≤ dy ≤ 1) dys → holds_in I st →
  scan_column i x y dx dys st = Some st' → holds_in I st'.
Proof.
  intros Hdx Hdys. revert st. induction Hdys as [|dy dys Hdy _ IH]; intros st HI.
  { by intros [= <-]. }
  cbn [scan_column].
  destruct (scan_cell i x y dx dy st) as [[brk st1]|] eqn:Hcell; [|done].
  cbn [mbind option_bind]. apply scan_cell_rule in Hcell; [|done..].
  destruct brk; [by intros [= <-]|]. by apply IH.
Qed.

Lemma scan_neighbourhood_rule i x y dxs st st' :
  Forall (λ dx, -1 ≤ dx ≤ 1) dxs → holds_in I st →
  scan_neighbourhood i x y dxs st = Some st' → holds_in I st'.
Proof.
  intros Hdxs. revert st. induction Hdxs as [|dx dxs Hdx _ IH]; intros st HI.
  { by intros [= <-]. }
  rewrite scan_neighbourhood_cons.
  destruct (scan_column i x y dx [-1; 0; 1] st) as [st1|] eqn:Hcol; [|done].
  cbn [mbind option_bind]. apply scan_column_rule in Hcol; [by apply IH|done| |done].
  repeat constructor; lia.
Qed.

Lemma suppress_drone_rule i st st' :
  holds_in I st → suppress_drone i st = Some st' → holds_in I st'.
Proof.
  intros HI. unfold suppress_drone.
  destruct (positions (su_swarm st) !! i) as [[px py]|]; [|done].
  cbn [mbind option_bind].
  destruct (out_of_bounds _ _ _); [by intros [= <-]|].
  destruct (cell_at _ _ _) as [cell|]; [|done]. cbn [mbind option_bind].
  destruct (water_left (su_swarm st) !! i) as [w|]; [|done]. cbn [mbind option_bind].
  destruct (w =? 0).
  - destruct (water cell); [|by intros [= <-]].
    destruct (refill_timers (su_swarm st) !! i) as [t|]; [|done].
    cbn [mbind option_bind]. by destruct (REFILL_TIME <=? t + 1); intros [= <-].
  - apply scan_neighbourhood_rule; [|done]. repeat constructor; lia.
Qed.

Lemma suppress_pass_rule ids st st' :
  holds_in I st → for_drones suppress_drone ids st = Some st' → holds_in I st'.
Proof.
  revert st. induction ids as [|i ids IH]; intros st HI; [by intros [= <-]|].
  cbn [for_drones]. destruct (suppress_drone i st) as [st1|] eqn:H1; [|done].
  cbn [mbind option_bind]. apply IH. by eapply suppress_drone_rule.
Qed.

End SuppressRule.

(** *** What the calls of a pass add up to *)

(** The two ways a call of [extinguish_fire_at] returns. *)
Lemma extinguish_fire_at_cases x y p t env ok env' t' :
  extinguish_fire_at x y p t env = Some (ok, env', t') →
  (ok = false ∧ env' = env ∧ t' = t ∧
   (in_bounds env x y = false ∨ ∃ c, cell_at env x y = Some c ∧ fire c = false)) ∨
  (ok = true ∧ ∃ c,
     in_bounds env x y = true ∧ cell_at env x y = Some c ∧ fire c = true ∧
     t' = match t, p with
          | Some t, Some p => Some (t + (travel_time x y p + EXTINGUISH_TIME))%Q
          | _, _ => t
          end ∧
     width env' = width env ∧ height env' = height env ∧ wind env' = wind env ∧
     cell_at env' x y = Some (suppressed c) ∧
     (∀ a b, (a, b) ≠ (x, y) → cell_at env' a b = cell_at env a b) ∧
     active_fires env' = filter (λ f, f ≠ (x, y)) (active_fires env)).
Proof.
  intros Hrun. destruct (in_bounds env x y) eqn:Hb.
  2:{ rewrite extinguish_fire_at_idle in Hrun by (by left).
      injection Hrun as <- <- <-. left. auto. }
  destruct (cell_at env x y) as [c|] eqn:Hc.
  2:{ unfold extinguish_fire_at in Hrun. by rewrite Hb, Hc in Hrun. }
  destruct (fire c) eqn:Hf.
  2:{ rewrite extinguish_fire_at_idle in Hrun by (right; by exists c).
      injection Hrun as <- <- <-. left. split; [done|]. split; [done|].
      split; [done|]. right. by exists c. }
  destruct (extinguish_fire_at_burning x y p t env c Hb Hc Hf)
    as (env1 & Hrun1 & Hw & Hh & Hwind & Hcell & Hother & Hfires & _).
  rewrite Hrun1 in Hrun. injection Hrun as <- <- <-.
  right. split; [done|]. exists c. done.
Qed.

Lemma quenched_snoc calls c :
  quenched (calls ++ [c])
  = quenched calls ++ (if call_result c then [call_target c] else []).
Proof.
  unfold quenched. rewrite filter_app, fmap_app. f_equal.
  destruct (call_result c) eqn:Hr.
  - by rewrite filter_cons_True.
  - rewrite filter_cons_False; [done|]. congruence.
Qed.

Lemma quench_kept env0 :
  kept_by_calls (λ env _ calls n, quench_inv env0 env calls n).
Proof.
  intros env t calls n i x y dx dy ok env' t'
    (Hn & Hnd & Hburn & Hcells & Hfires & Hw & Hh & Hwind) _ _ Hrun.
  apply extinguish_fire_at_cases in Hrun
    as [(-> & -> & _)|(-> & c & Hb & Hc & Hf & _ & Hw' & Hh' & Hwind' & Hcell & Hother & Hfires')].
  { unfold quench_inv. rewrite quenched_snoc. cbn. rewrite app_nil_r. done. }
  set (tgt := (x + dx, y + dy)) in *.
  assert (Hnew : tgt ∉ quenched calls).
  { intros Hin. rewrite Hcells, decide_True in Hc by done.
    destruct (cell_at env0 (x + dx) (y + dy)); [|done]. injection Hc as <-. done. }
  assert (Hmem : ∀ xy, xy ∈ quenched calls ++ [tgt] ↔ xy = tgt ∨ xy ∈ quenched calls).
  { intros xy. rewrite elem_of_app, list_elem_of_singleton. tauto. }
  unfold quench_inv. rewrite quenched_snoc. cbn [call_result call_target].
  split; [rewrite length_app; cbn; lia|]. split; [|split; [|split; [|split]]].
  - apply NoDup_app. split; [done|]. split; [|apply NoDup_singleton].
    intros xy Hin ->%list_elem_of_singleton. done.
  - apply Forall_app. split; [done|]. constructor; [|done].
    apply burning_at_Some. exists c. split; [|done].
    cbn. rewrite <- Hc, Hcells. by rewrite decide_False.
  - intros a b. destruct (decide ((a, b) = tgt)) as [[= -> ->]|Hne].
    + rewrite decide_True by (apply Hmem; by left).
      rewrite Hcell. rewrite Hcells, decide_False in Hc by done. by rewrite Hc.
    + rewrite Hother by done. rewrite Hcells.
      destruct (decide ((a, b) ∈ quenched calls)).
      * rewrite decide_True; [done|]. apply Hmem. by right.
      * rewrite decide_False; [done|]. rewrite Hmem. tauto.
  - rewrite Hfires', Hfires, list_filter_filter. apply list_filter_iff.
    intros xy. rewrite Hmem. tauto.
  - split; [congruence|]. split; congruence.
Qed.

Lemma quench_inv_start env : quench_inv env env [] 0.
Proof.
  split; [done|]. split; [constructor|]. split; [constructor|]. split; [done|].
  split; [|done]. cbn. symmetry. apply filter_all, Forall_forall.
  intros xy _. apply not_elem_of_nil.
Qed.

Lemma charged_snoc calls c : (charged (calls ++ [c]) == charged calls + call_cost c)%Q.
Proof.
  unfold charged. induction calls as [|c0 calls IH]; cbn [app fold_right]; [ring|].
  rewrite IH. ring.
Qed.

Lemma clock_kept t0 : kept_by_calls (λ _ t calls _, clock_inv t0 t calls).
Proof.
  intros env t calls n i x y dx dy ok env' t' Hclock _ _ Hrun.
  unfold clock_inv in *.
  apply extinguish_fire_at_cases in Hrun as [(-> & _ & -> & _)|(-> & c & _ & _ & _ & -> & _)].
  - destruct t0 as [a|], t as [b|]; try done.
    rewrite charged_snoc. unfold call_cost. cbn [call_result]. rewrite Hclock. ring.
  - destruct t0 as [a|], t as [b|]; try done.
    rewrite charged_snoc. unfold call_cost.
    cbn [call_result call_target call_drone_pos fst snd]. rewrite Hclock. ring.
Qed.

(** *** The phases of a cell *)

Lemma grows_refl c : cell_ok c → grows c c.
Proof.
  intros Hok. split; [done|]. split; [done|]. unfold cell_ok in Hok.
  destruct (phase_of c) as [p|]; [|done]. exists p, p. by destruct p.
Qed.

Lemma grows_trans c1 c2 c3 : grows c1 c2 → grows c2 c3 → grows c1 c3.
Proof.
  intros (_ & He1 & p1 & p2 & Hp1 & Hp2 & H12) (Hok & He2 & p2' & p3 & Hp2' & Hp3 & H23).
  split; [done|]. split; [congruence|]. exists p1, p3.
  assert (p2' = p2) as -> by congruence.
  split; [done|]. split; [done|]. by destruct p1, p2, p3.
Qed.

Lemma grows_spread env xy c c' : cell_ok c → spread_outcome env xy c c' → grows c c'.
Proof.
  unfold spread_outcome, grows, cell_ok, phase_of.
  destruct c as [tr fi bu wa e k ebd]. cbn [fire].
  destruct fi.
  - intros Hok [->| ->]; unfold burnt_out, kept_burning, cooled; cbn;
      destruct tr, bu, wa, ebd; try done; cbn in *.
    + destruct (0 <? k) eqn:E; (split; [lia|]); (split; [done|]);
        by exists Burning, BurntOut.
    + destruct (0 <? k) eqn:E; [|lia].
      destruct (k - 1 =? 0) eqn:E'; (split; [lia|]); (split; [done|]);
        by exists Burning, Burning.
  - intros Hok [->|(Hi & -> & _)].
    + apply (grows_refl (mkCell tr false bu wa e k ebd)). exact Hok.
    + unfold ignitable in Hi. cbn in Hi. destruct tr, bu, wa; try done.
      destruct ebd; [done|]. cbn. split; [lia|]. split; [done|].
      by exists Forest, Burning.
Qed.

Lemma grows_suppressed c : cell_ok c → fire c = true → grows c (suppressed c).
Proof.
  unfold grows, cell_ok, phase_of, suppressed. 
  destruct c as [tr fi bu wa e k ebd]. cbn. intros Hok ->.
  destruct tr, bu, wa, ebd; try done. cbn. split; [done|]. split; [done|].
  by exists Burning, Suppressed.
Qed.

Lemma grows_lit c : cell_ok c → ignitable c = true → grows c (lit 3 c).
Proof.
  unfold grows, cell_ok, phase_of, lit, ignitable.
  destruct c as [tr fi bu wa e k ebd]. cbn. intros Hok Hi.
  destruct tr, fi, bu, wa; try done. destruct ebd; [done|]. cbn.
  split; [lia|]. split; [done|]. by exists Forest, Burning.
Qed.

Lemma env_grows_refl env : cells_ok env → env_grows env env.
Proof.
  intros Hok. split; [done|]. split; [done|]. intros x y c Hc. exists c.
  split; [done|]. apply grows_refl. by eapply Hok.
Qed.

Lemma env_grows_trans e1 e2 e3 : env_grows e1 e2 → env_grows e2 e3 → env_grows e1 e3.
Proof.
  intros (Hw1 & Hh1 & H12) (Hw2 & Hh2 & H23).
  split; [congruence|]. split; [congruence|]. intros x y c Hc.
  destruct (H12 x y c Hc) as (c2 & Hc2 & Hg2).
  destruct (H23 x y c2 Hc2) as (c3 & Hc3 & Hg3).
  exists c3. split; [done|]. by eapply grows_trans.
Qed.

Lemma env_grows_cells_ok env env' : env_grows env env' → grid_ok env → grid_ok env' →
  cells_ok env'.
Proof.
  intros (Hw & Hh & Hg) Hok Hok' x y c' Hc'.
  destruct (cell_at_in_bounds env x y Hok) as [c Hc].
  { apply cell_at_Some_in_bounds in Hc'; [|done]. unfold in_bounds in *.
    by rewrite <- Hw, <- Hh. }
  destruct (Hg x y c Hc) as (c2 & Hc2 & Hok2 & _). congruence.
Qed.

(** *** The stages of a tick *)

Lemma step_sim_stages w pp pg s env s' :
  envRef s = Some env → step_sim w pp pg s = Some s' →
  ∃ env1 g1 sim time g2 env2 sim2 time2 total2 g3 env3 g4,
    spread_fire env (sim_rng s) = Some (env1, g1) ∧
    deploy w pp pg s env1 g1 = Some (sim, time, g2) ∧
    swarm_tick w pp pg s env1 sim time g2 = Some (env2, sim2, time2, total2, g3) ∧
    random_ignition s env2 g3 = Some (env3, g4) ∧
    s' = mkSim (Some env3) sim2 (stepCountRef s + 1) time2 total2 g4.
Proof.
  intros Henv. unfold step_sim. rewrite Henv.
  destruct (spread_fire env (sim_rng s)) as [[env1 g1]|] eqn:H1; [|done].
  cbn [mbind option_bind].
  change (if stepCountRef s =? 10 then _ else _) with (deploy w pp pg s env1 g1).
  destruct (deploy w pp pg s env1 g1) as [[[sim time] g2]|] eqn:H2; [|done].
  cbn [mbind option_bind].
  change (match sim with Some _ => _ | None => _ end)
    with (swarm_tick w pp pg s env1 sim time g2).
  destruct (swarm_tick w pp pg s env1 sim time g2)
    as [[[[[env2 sim2] time2] total2] g3]|] eqn:H3; [|done].
  cbn [mbind option_bind].
  change (if Z.rem (stepCountRef s) 15 =? 0 then _ else _)
    with (random_ignition s env2 g3).
  destruct (random_ignition s env2 g3) as [[env3 g4]|] eqn:H4; [|done].
  cbn [mbind option_bind]. intros [= <-].
  by eexists env1, g1, sim, time, g2, env2, sim2, time2, total2, g3, env3, g4.
Qed.

(** *** ignite, cell by cell *)

Lemma ignite_cases x y env env' :
  ignite x y env = Some env' →
  (env' = env ∧
   (in_bounds env x y = false ∨ ∃ c, cell_at env x y = Some c ∧ ignitable c = false)) ∨
  (∃ c, in_bounds env x y = true ∧ cell_at env x y = Some c ∧ ignitable c = true ∧
        cell_at env' x y = Some (lit 3 c) ∧
        (∀ a b, (a, b) ≠ (x, y) → cell_at env' a b = cell_at env a b) ∧
        active_fires env' = active_fires env ++ [(x, y)] ∧
        width env' = width env ∧ height env' = height env ∧ wind env' = wind env).
Proof.
  unfold ignite. destruct (in_bounds env x y) eqn:Hb; [|intros [= <-]; left; auto].
  destruct (cell_at env x y) as [c|] eqn:Hc; [|done]. cbn [mbind option_bind].
  destruct (ignitable c) eqn:Hi.
  2:{ intros [= <-]. left. split; [done|]. right. by exists c. }
  intros [= <-]. right. exists c. 
  pose proof (cell_at_nonneg _ _ _ _ Hc) as [Hx Hy].
  split; [done|]. split; [done|]. split; [done|]. split; [|split; [|done]].
  - rewrite cell_at_set_active_fires, !cell_at_update_cell by done.
    rewrite !decide_True by done. by rewrite Hc.
  - intros a b Hne. by rewrite cell_at_set_active_fires, !cell_at_update_cell_ne.
Qed.

Lemma ignite_grows x y env env' :
  cells_ok env → ignite x y env = Some env' → env_grows env env'.
Proof.
  intros Hok [(-> & _)|(c & _ & Hc & Hi & Hc' & Hother & _ & Hw & Hh & _)]%ignite_cases.
  { by apply env_grows_refl. }
  split; [done|]. split; [done|]. intros a b c0 Hc0.
  destruct (decide ((a, b) = (x, y))) as [[= -> ->]|Hne].
  - assert (c0 = c) as -> by congruence. exists (lit 3 c). split; [done|].
    apply grows_lit; [|done]. by eapply Hok.
  - exists c0. split; [by rewrite Hother|]. apply grows_refl. by eapply Hok.
Qed.

Lemma spread_fire_grows env g env' g' :
  env_inv env → cells_ok env → spread_fire env g = Some (env', g') →
  env_grows env env'.
Proof.
  intros Hinv Hok Hrun.
  destruct (spread_fire_inv env g Hinv) as (env1 & g1 & Hrun1 & _ & Hter).
  rewrite Hrun in Hrun1. injection Hrun1 as <- <-.
  apply same_terrain_dims in Hter as [Hw Hh].
  split; [done|]. split; [done|]. intros x y c Hc.
  destruct (spread_fire_cells env g env' g') with (x := x) (y := y) (c := c)
    as (c' & Hc' & Hout); [apply Hinv|done|done|].
  exists c'. split; [done|]. eapply grows_spread; [|exact Hout]. by eapply Hok.
Qed.

Lemma step_quench env sw t g r :
  step env sw t g = Some r →
  quench_inv env (st_env r) (st_calls r) (st_extinguished r) ∧
  clock_inv t (st_time r) (st_calls r).
Proof.
  intros (sw1 & sw2 & st & _ & _ & Hsup & ->)%step_loops. cbn. split.
  - apply (suppress_pass_rule (λ env' _ calls n, quench_inv env env' calls n)
             (quench_kept env)) in Hsup; [done|]. apply quench_inv_start.
  - apply (suppress_pass_rule (λ _ t' calls _, clock_inv t t' calls)
             (clock_kept t)) in Hsup; [done|].
    unfold holds_in, clock_inv. cbn. destruct t; [|done]. unfold charged. cbn. ring.
Qed.

Lemma step_grows env sw t g r :
  cells_ok env → step env sw t g = Some r → env_grows env (st_env r).
Proof.
  intros Hok [(_ & _ & Hburn & Hcells & _ & Hw & Hh & _) _]%step_quench.
  split; [done|]. split; [done|]. intros x y c Hc. rewrite Hcells, Hc.
  case_decide as Hin.
  - exists (suppressed c). split; [done|]. apply grows_suppressed; [by eapply Hok|].
    rewrite Forall_forall in Hburn. specialize (Hburn _ Hin).
    apply burning_at_Some in Hburn as (c0 & Hc0 & Hf). cbn in Hc0. congruence.
  - exists c. split; [done|]. apply grows_refl. by eapply Hok.
Qed.

(** *** The initial environment, cell by cell *)

Lemma new_row_lookup n g :
  (new_row n g).2 = mkRng (draws g) (cursor g + n) ∧
  length (new_row n g).1 = n ∧
  ∀ i, (i < n)%nat →
    (new_row n g).1 !! i = Some (new_Cell (draws g (cursor g + i)%nat * 100)).
Proof.
  revert g. induction n as [|n IH]; intros g.
  { cbn. split; [destruct g; cbn; f_equal; lia|]. split; [done|]. intros i Hi. lia. }
  cbn [new_row]. unfold random.
  specialize (IH (mkRng (draws g) (S (cursor g)))).
  destruct (new_row n _) as [row g1]. cbn [fst snd draws cursor] in *.
  destruct IH as (-> & Hlen & Hlook). split; [f_equal; lia|].
  split; [cbn; by rewrite Hlen|].
  intros [|i] Hi.
  - cbn. by rewrite Nat.add_0_r.
  - cbn [lookup list_lookup]. rewrite Hlook by lia.
    by replace (S (cursor g) + i)%nat with (cursor g + S i)%nat by lia.
Qed.

Lemma new_grid_lookup h w g :
  (new_grid h w g).2 = mkRng (draws g) (cursor g + h * w) ∧
  length (new_grid h w g).1 = h ∧
  ∀ j i, (j < h)%nat → (i < w)%nat →
    (new_grid h w g).1 !! j ≫= (λ row, row !! i)
    = Some (new_Cell (draws g (cursor g + j * w + i)%nat * 100)).
Proof.
  revert g. induction h as [|h IH]; intros g.
  { cbn. split; [destruct g; cbn; f_equal; lia|]. split; [done|]. intros j i Hj. lia. }
  cbn [new_grid]. pose proof (new_row_lookup w g) as (Hg1 & Hlen1 & Hrow).
  destruct (new_row w g) as [row g1]. cbn [fst snd] in *. subst g1.
  specialize (IH (mkRng (draws g) (cursor g + w))).
  destruct (new_grid h w _) as [rows g2]. cbn [fst snd draws cursor] in *.
  destruct IH as (-> & Hlen & Hlook). split; [f_equal; lia|].
  split; [cbn; by rewrite Hlen|].
  intros [|j] i Hj Hi.
  - cbn. rewrite Hrow by done. by rewrite Nat.add_0_r.
  - change ((row :: rows) !! S j) with (rows !! j).
    rewrite Hlook by lia.
    by replace (cursor g + w + j * w + i)%nat with (cursor g + S j * w + i)%nat by lia.
Qed.

Lemma watered_watered c : watered (watered c) = watered c.
Proof. reflexivity. Qed.

Lemma floods_refl env : floods env env.
Proof. repeat split. intros a b. by left. Qed.

Lemma floods_trans e1 e2 e3 : floods e1 e2 → floods e2 e3 → floods e1 e3.
Proof.
  intros (? & ? & ? & ? & H12) (? & ? & ? & ? & H23).
  split; [congruence|]. split; [congruence|]. split; [congruence|].
  split; [congruence|]. intros a b.
  destruct (H23 a b) as [->| ->], (H12 a b) as [->| ->]; auto.
  right. by destruct (cell_at e1 a b).
Qed.

Lemma water_walk_floods steps x y env g env' g' :
  water_walk steps x y (env, g) = Some (env', g') → floods env env'.
Proof.
  revert x y env g. induction steps as [|steps IH]; intros x y env g.
  { intros [= <- <-]. apply floods_refl. }
  cbn [water_walk].
  assert (Hfirst : ∀ env1,
    (if in_bounds env x y
     then _ ← cell_at env x y;
          Some (update_cell (set_tree false) x y (update_cell (set_water true) x y env))
     else Some env) = Some env1 → floods env env1).
  { intros env1. destruct (in_bounds env x y); [|intros [= <-]; apply floods_refl].
    destruct (cell_at env x y) as [c|] eqn:Hc; [|done]. cbn [mbind option_bind].
    intros [= <-]. pose proof (cell_at_nonneg _ _ _ _ Hc) as [Hx Hy].
    repeat split. intros a b. rewrite !cell_at_update_cell by done.
    case_decide as Heq; [|by left]. right. by destruct (cell_at env a b). }
  destruct (if in_bounds env x y then _ else _) as [env1|] eqn:H1 in |- *; [|done].
  cbn [mbind option_bind]. apply Hfirst in H1.
  unfold random_int, random. cbn [fst snd]. intros Hrest%IH.
  by eapply floods_trans.
Qed.

Lemma water_blobs_floods n env g env' g' :
  water_blobs n (env, g) = Some (env', g') → floods env env'.
Proof.
  revert env g. induction n as [|n IH]; intros env g.
  { intros [= <- <-]. apply floods_refl. }
  cbn [water_blobs]. unfold random_int, random. cbn [fst snd].
  destruct (water_walk _ _ _ _) as [[env1 g1]|] eqn:H1; [|done].
  cbn [mbind option_bind]. apply water_walk_floods in H1. intros Hrest%IH.
  by eapply floods_trans.
Qed.

Lemma add_water_blobs_floods count env g env' g' :
  add_water_blobs count (env, g) = Some (env', g') → floods env env'.
Proof.
  unfold add_water_blobs, random_int, random. cbn [fst snd].
  apply water_blobs_floods.
Qed.

Lemma new_Environment_cells w h g x y c :
  cell_at (new_Environment w h g).1 x y = Some c → ∃ e, c = new_Cell e.
Proof.
  unfold new_Environment. pose proof (new_grid_fresh (Z.to_nat h) (Z.to_nat w) g) as Hg.
  destruct (new_grid _ _ g) as [rows g']. cbn in *. destruct Hg as [_ Hall].
  intros (row & Hrow & Hc)%cell_at_elem_of. cbn in Hrow.
  rewrite Forall_forall in Hall. destruct (Hall row Hrow) as [_ Hfresh].
  rewrite Forall_forall in Hfresh. by apply Hfresh.
Qed.

Lemma ignite_random_grows n env g env' g' :
  env_inv env → cells_ok env →
  ignite_random n (env, g) = Some (env', g') → env_grows env env'.
Proof.
  revert env g. induction n as [|n IH]; intros env g Hinv Hok.
  { intros [= <- <-]. by apply env_grows_refl. }
  cbn [ignite_random]. unfold random. cbn [fst snd].
  destruct (ignite _ _ env) as [env1|] eqn:H1; [|done]. cbn [mbind option_bind].
  intros Hrest. pose proof (ignite_grows _ _ _ _ Hok H1) as Hg1.
  match type of H1 with ignite ?x ?y env = _ =>
    destruct (ignite_inv x y env Hinv) as (env1' & H1' & Hinv1 & _) end.
  rewrite H1 in H1'. injection H1' as <-.
  eapply env_grows_trans; [exact Hg1|]. eapply IH; [done| |exact Hrest].
  eapply env_grows_cells_ok; [exact Hg1|apply Hinv|apply Hinv1].
Qed.

(** *** The invariants at every stage of a tick *)

Lemma deploy_cases w pp pg s env g sim time g' :
  deploy w pp pg s env g = Some (sim, time, g') →
  (stepCountRef s = 10 ∧ time = Some 0%Q ∧
   ∃ swarm, new_DroneSwarm env 20 g = Some (swarm, g') ∧
            sim = Some (set_params w pp pg swarm)) ∨
  (stepCountRef s ≠ 10 ∧ sim = simRef s ∧ time = simTimeRef s ∧ g' = g).
Proof.
  unfold deploy. destruct (stepCountRef s =? 10) eqn:Hten.
  - apply Z.eqb_eq in Hten.
    destruct (new_DroneSwarm env 20 g) as [[swarm g1]|]; [|done].
    cbn. intros [= <- <- <-]. left. split; [done|]. split; [done|]. by exists swarm.
  - apply Z.eqb_neq in Hten. intros [= <- <- <-]. by right.
Qed.

Lemma swarm_ok_set_params w pp pg sw : swarm_ok sw → swarm_ok (set_params w pp pg sw).
Proof. done. Qed.

Lemma deploy_swarm_ok w pp pg s env g sim time g' sw :
  sim_inv s → grid_ok env →
  deploy w pp pg s env g = Some (sim, time, g') → sim = Some sw →
  swarm_ok sw ∧ water_ok sw ∧ num_drones sw = 20%nat ∨
  simRef s = Some sw.
Proof.
  intros Hs Hok Hdep Hsw.
  apply deploy_cases in Hdep as [(_ & _ & swarm & Hnew & ->)|(_ & -> & _)].
  - injection Hsw as <-. left.
    assert (H20 : (0 < 20)%nat) by (apply Nat.lt_0_succ).
    destruct (new_DroneSwarm_total env 20 g Hok H20) as (sw' & g'' & Hrun & H1 & H2 & H3).
    rewrite Hnew in Hrun. injection Hrun as <- <-.
    split; [exact H1|]. split; [exact H2|exact H3].
  - right. exact Hsw.
Qed.

Lemma step_sim_stages_inv w pp pg s s' env :
  sim_inv s → envRef s = Some env → step_sim w pp pg s = Some s' →
  ∃ env1 g1 sim time g2 env2 sim2 time2 total2 g3 env3 g4,
    spread_fire env (sim_rng s) = Some (env1, g1) ∧
    deploy w pp pg s env1 g1 = Some (sim, time, g2) ∧
    swarm_tick w pp pg s env1 sim time g2 = Some (env2, sim2, time2, total2, g3) ∧
    random_ignition s env2 g3 = Some (env3, g4) ∧
    s' = mkSim (Some env3) sim2 (stepCountRef s + 1) time2 total2 g4 ∧
    env_inv env ∧ env_inv env1 ∧ env_inv env2 ∧ env_inv env3 ∧
    (∀ sw, sim = Some sw → swarm_ok sw ∧ water_ok sw).
Proof.
  intros Hs Henv Hrun. pose proof Hs as (env0 & Henv0 & Hinv & _ & _ & _ & Hsw).
  assert (env0 = env) as -> by congruence.
  destruct (step_sim_stages w pp pg s env s' Henv Hrun)
    as (env1 & g1 & sim & time & g2 & env2 & sim2 & time2 & total2 & g3 & env3 & g4
        & H1 & H2 & H3 & H4 & ->).
  exists env1, g1, sim, time, g2, env2, sim2, time2, total2, g3, env3, g4.
  do 5 (split; [done|]). split; [done|].
  destruct (spread_fire_inv env (sim_rng s) Hinv) as (e1 & g1' & H1' & Hinv1 & _).
  rewrite H1 in H1'. injection H1' as <- <-. split; [done|].
  assert (Hsim : ∀ sw, sim = Some sw → swarm_ok sw ∧ water_ok sw).
  { intros sw Hsim.
    destruct (deploy_swarm_ok w pp pg s env1 g1 sim time g2 sw Hs) as [(? & ? & _)|Hold];
      [apply Hinv1|done|done|done|].
    rewrite Hold in Hsw. tauto. }
  assert (Hinv2 : env_inv env2).
  { unfold swarm_tick in H3. destruct sim as [swarm|].
    - destruct (Hsim swarm eq_refl) as [Hok _].
      destruct (step_total env1 (set_params w pp pg swarm) time g2 Hinv1)
        as (r & Hr & _ & Hinv2 & _); [done|].
      rewrite Hr in H3. cbn in H3. by injection H3 as <- _ _ _ _.
    - by injection H3 as <- _ _ _ _. }
  split; [done|]. split; [|done].
  unfold random_ignition in H4. destruct (Z.rem _ 15 =? 0); [|by injection H4 as <- _].
  unfold random_int, random in H4. cbn [fst snd] in H4.
  destruct (Qltb _ 0.3); [|by injection H4 as <- _].
  match type of H4 with context [ignite ?x ?y env2] =>
    destruct (ignite_inv x y env2 Hinv2) as (e3 & H4' & Hinv3 & _) end.
  rewrite H4' in H4. cbn in H4. by injection H4 as <- _.
Qed.

Lemma initSim_cells_ok g s env :
  initSim g = Some s → envRef s = Some env → cells_ok env.
Proof.
  unfold initSim.
  pose proof (new_Environment_blank 40 20 g) as (Hblank & _).
  pose proof (new_Environment_cells 40 20 g) as Hfresh.
  destruct (new_Environment 40 20 g) as [env0 g0]. cbn [fst] in *.
  destruct (add_water_blobs 3 (env0, g0)) as [[env1 g1]|] eqn:H1; [|done].
  cbn [mbind option_bind].
  destruct (ignite_random 5 (env1, g1)) as [[env2 g2]|] eqn:H2; [|done].
  cbn [mbind option_bind]. intros [= <-]. cbn. intros [= <-].
  destruct (add_water_blobs_blank 3 env0 g0 Hblank) as (e1 & g1' & H1' & Hblank1 & _).
  rewrite H1 in H1'. injection H1' as <- <-.
  apply add_water_blobs_floods in H1 as (_ & _ & _ & _ & Hcells).
  assert (Hok1 : cells_ok env1).
  { intros x y c Hc. destruct (Hcells x y) as [Heq|Heq]; rewrite Hc in Heq;
      symmetry in Heq.
    - apply Hfresh in Heq as [e ->]. by cbn.
    - destruct (cell_at env0 x y) as [c0|] eqn:Hc0; [|done].
      apply Hfresh in Hc0 as [e ->]. by injection Heq as <-. }
  pose proof (blank_env_inv _ Hblank1) as Hinv1.
  destruct (ignite_random_inv 5 env1 g1 Hinv1) as (e2 & g2' & H2' & Hinv2 & _).
  rewrite H2 in H2'. injection H2' as <- <-.
  eapply env_grows_cells_ok;
    [by apply (ignite_random_grows 5 env1 g1 env2 g2)|apply Hinv1|apply Hinv2].
Qed.

Lemma step_sim_grows w pp pg s s' env env' :
  sim_inv s → envRef s = Some env → cells_ok env →
  step_sim w pp pg s = Some s' → envRef s' = Some env' →
  env_grows env env' ∧ cells_ok env'.
Proof.
  intros Hs Henv Hok Hrun Henv'.
  destruct (step_sim_stages_inv w pp pg s s' env Hs Henv Hrun)
    as (env1 & g1 & sim & time & g2 & env2 & sim2 & time2 & total2 & g3 & env3 & g4
        & H1 & H2 & H3 & H4 & -> & Hinv & Hinv1 & Hinv2 & Hinv3 & Hsim).
  cbn in Henv'. injection Henv' as <-.
  pose proof (spread_fire_grows _ _ _ _ Hinv Hok H1) as Hg1.
  assert (Hok1 : cells_ok env1).
  { eapply env_grows_cells_ok; [exact Hg1|apply Hinv|apply Hinv1]. }
  assert (Hg2 : env_grows env1 env2).
  { unfold swarm_tick in H3. destruct sim as [swarm|].
    - destruct (step _ _ _ _) as [r|] eqn:Hr; [|done]. cbn in H3.
      injection H3 as <- _ _ _ _. by eapply step_grows.
    - injection H3 as <- _ _ _ _. by apply env_grows_refl. }
  assert (Hok2 : cells_ok env2).
  { eapply env_grows_cells_ok; [exact Hg2|apply Hinv1|apply Hinv2]. }
  assert (Hg3 : env_grows env2 env3).
  { unfold random_ignition in H4.
    destruct (Z.rem _ 15 =? 0); [|injection H4 as <- _; by apply env_grows_refl].
    unfold random_int, random in H4. cbn [fst snd] in H4.
    destruct (Qltb _ 0.3); [|injection H4 as <- _; by apply env_grows_refl].
    destruct (ignite _ _ env2) as [e3|] eqn:Hi; [|done]. cbn in H4.
    injection H4 as <- _. by eapply ignite_grows. }
  split.
  - eapply env_grows_trans; [exact Hg1|]. by eapply env_grows_trans.
  - eapply env_grows_cells_ok; [exact Hg3|apply Hinv2|apply Hinv3].
Qed.

Lemma reachable_cells_ok s env : reachable s → envRef s = Some env → cells_ok env.
Proof.
  intros Hs. revert env. induction Hs as [g s Hinit|w pp pg s s' Hs IH Hstep]; intros env Henv.
  - by eapply initSim_cells_ok.
  - pose proof (reachable_sim_inv s Hs) as Hinv.
    pose proof Hinv as (env0 & Henv0 & _).
    apply (step_sim_grows w pp pg s s' env0 env); try done. by apply IH.
Qed.

(** *** Counting cells *)

Lemma update_cell_compose f g x y env :
  update_cell f x y (update_cell g x y env) = update_cell (f ∘ g) x y env.
Proof.
  unfold update_cell, set_grid. cbn. f_equal.
  rewrite list_alter_alter_eq. apply list_alter_ext; [|done].
  intros row _. cbn. apply list_alter_alter_eq.
Qed.

Lemma extinguish_fire_at_grid x y p t env env' t' :
  extinguish_fire_at x y p t env = Some (true, env', t') →
  grid env' = grid (update_cell suppressed x y env).
Proof.
  unfold extinguish_fire_at. destruct (in_bounds env x y); [|done].
  destruct (cell_at env x y) as [c|]; [|done]. cbn [mbind option_bind].
  destruct (fire c); [|done]. intros [= <- _]. cbn [grid set_active_fires].
  rewrite !update_cell_compose. reflexivity.
Qed.

Lemma cellwise_lookup (R : Cell → Cell → Prop) env env' :
  grid_ok env → grid_ok env' →
  width env' = width env → height env' = height env →
  (∀ x y c c', cell_at env x y = Some c → cell_at env' x y = Some c' → R c c') →
  cellwise R env env'.
Proof.
  intros [Hh Hw] [Hh' Hw'] Ew Eh HR. apply Forall2_same_length_lookup_2; [congruence|].
  intros j row row' Hrow Hrow'. rewrite Forall_lookup in Hw, Hw'.
  apply Forall2_same_length_lookup_2.
  { rewrite (Hw _ _ Hrow), (Hw' _ _ Hrow'). congruence. }
  intros i c c' Hc Hc'. apply (HR (Z.of_nat i) (Z.of_nat j)); unfold cell_at.
  - replace (0 <=? Z.of_nat i) with true by (symmetry; apply Z.leb_le; lia).
    replace (0 <=? Z.of_nat j) with true by (symmetry; apply Z.leb_le; lia). cbn.
    rewrite !Nat2Z.id, Hrow. cbn. done.
  - replace (0 <=? Z.of_nat i) with true by (symmetry; apply Z.leb_le; lia).
    replace (0 <=? Z.of_nat j) with true by (symmetry; apply Z.leb_le; lia). cbn.
    rewrite !Nat2Z.id, Hrow'. cbn. done.
Qed.

Lemma cellwise_cells R env env' :
  cellwise R env env' → Forall2 R (cells env) (cells env').
Proof.
  unfold cellwise, cells. induction 1 as [|row row' g g' Hrow _ IH]; [constructor|].
  cbn. by apply Forall2_app.
Qed.

Lemma length_filter_Forall2 {A} (P P' : A → Prop)
    `{∀ a, Decision (P a)} `{∀ a, Decision (P' a)} (R : A → A → Prop) l l' :
  (∀ a b, R a b → (P a ↔ P' b)) → Forall2 R l l' →
  length (filter P l) = length (filter P' l').
Proof.
  intros HR. induction 1 as [|a b l l' Hab _ IH]; [done|].
  rewrite !filter_cons. destruct (HR a b Hab).
  destruct (decide (P a)), (decide (P' b)); cbn; try tauto; by rewrite IH.
Qed.

(** [count_trees] counts the cells with the [tree] flag as saved, and the
    others with the [burnt] flag as burnt. *)
Lemma fold_count_cell_filter l acc :
  fold_left count_cell l acc =
  pair_add acc (Z.of_nat (length (filter (λ c, tree c = true) l)),
                Z.of_nat (length (filter (λ c, tree c = false ∧ burnt c = true) l))).
Proof.
  revert acc. induction l as [|c l IH]; intros [s b].
  { unfold pair_add. cbn. f_equal; lia. }
  cbn [fold_left]. rewrite IH, !filter_cons. unfold count_cell, pair_add.
  destruct (tree c) eqn:Ht, (burnt c) eqn:Hb; cbn;
    repeat (case_decide; try tauto; try (destruct_and?; congruence)); cbn; f_equal; lia.
Qed.

Lemma count_trees_cells env :
  count_trees env =
  (Z.of_nat (length (filter (λ c, tree c = true) (cells env))),
   Z.of_nat (length (filter (λ c, tree c = false ∧ burnt c = true) (cells env)))).
Proof.
  unfold count_trees, cells.
  assert (H : ∀ g acc, fold_left (λ acc row, fold_left count_cell row acc) g acc
                       = fold_left count_cell (concat g) acc).
  { induction g as [|row g IH]; intros acc; [done|]. cbn.
    by rewrite fold_left_app, IH. }
  rewrite H, fold_count_cell_filter. unfold pair_add. cbn. done.
Qed.

Lemma elem_of_concat {A} (a : A) (ls : list (list A)) :
  a ∈ concat ls → ∃ l, a ∈ l ∧ l ∈ ls.
Proof.
  induction ls as [|l ls IH]; cbn; [by intros ?%elem_of_nil|].
  intros [Hl|Hls]%elem_of_app.
  - exists l. split; [done|]. by left.
  - destruct (IH Hls) as (l' & ? & ?). exists l'. split; [done|]. by right.
Qed.

Lemma elem_of_cells env c : c ∈ cells env → ∃ x y, cell_at env x y = Some c.
Proof.
  unfold cells. intros (row & Hc & Hrow)%elem_of_concat.
  apply list_elem_of_lookup in Hrow as [j Hj]. apply list_elem_of_lookup in Hc as [i Hi].
  exists (Z.of_nat i), (Z.of_nat j). unfold cell_at.
  replace (0 <=? Z.of_nat i) with true by (symmetry; apply Z.leb_le; lia).
  replace (0 <=? Z.of_nat j) with true by (symmetry; apply Z.leb_le; lia). cbn.
  by rewrite !Nat2Z.id, Hj.
Qed.

Lemma cells_ok_Forall env : cells_ok env → Forall cell_ok (cells env).
Proof.
  intros Hok. apply Forall_forall. intros c (x & y & Hc)%elem_of_cells.
  by eapply Hok.
Qed.

Lemma length_cells env :
  grid_ok env → length (cells env) = (Z.to_nat (height env) * Z.to_nat (width env))%nat.
Proof.
  intros [Hh Hw]. unfold cells. rewrite <- Hh. clear Hh.
  induction Hw as [|row g Hrow _ IH]; [done|]. cbn. rewrite length_app, IH, Hrow. done.
Qed.

(** Every cell in a phase is counted once: as saved, as burnt or as water. *)
Lemma phases_partition l :
  Forall cell_ok l →
  (length (filter (λ c, tree c = true) l)
   + length (filter (λ c, tree c = false ∧ burnt c = true) l)
   + length (filter (λ c, water c) l) = length l)%nat.
Proof.
  induction 1 as [|c l Hc _ IH]; [done|]. rewrite !filter_cons. cbn [length].
  unfold cell_ok, phase_of in Hc. destruct c as [tr fi bu wa e k ebd]. cbn in Hc |- *.
  destruct tr, fi, bu, wa, ebd; try done;
    repeat case_decide; cbn [length]; try lia; exfalso; cbn in *; intuition congruence.
Qed.

Lemma count_trees_cellwise env env' :
  cellwise counted_alike env env' → count_trees env' = count_trees env.
Proof.
  intros H%cellwise_cells. rewrite !count_trees_cells. f_equal; f_equal; symmetry.
  - apply (length_filter_Forall2 _ _ counted_alike); [|done].
    intros a b [-> _]. done.
  - apply (length_filter_Forall2 _ _ counted_alike); [|done].
    intros a b [Ht Hb]. rewrite Ht. split; intros [Hf ?]; (split; [done|]).
    + by rewrite Hb.
    + by rewrite <- Hb.
Qed.

Lemma count_water_cellwise env env' :
  cellwise (λ c c', water c' = water c) env env' → count_water env' = count_water env.
Proof.
  intros H%cellwise_cells. unfold count_water. symmetry.
  apply (length_filter_Forall2 _ _ (λ c c', water c' = water c)); [|done].
  by intros a b ->.
Qed.

Lemma same_terrain_count_water env env' :
  grid_ok env → grid_ok env' → same_terrain env env' → count_water env' = count_water env.
Proof.
  intros Hok Hok' (Hw & Hh & _ & Hcells). apply count_water_cellwise.
  apply cellwise_lookup; [done..|]. intros x y c c' Hc Hc'.
  specialize (Hcells x y). rewrite Hc, Hc' in Hcells. by injection Hcells as ->.
Qed.

Lemma spread_outcome_counted env xy c c' :
  cell_ok c → spread_outcome env xy c c' → counted_alike c c'.
Proof.
  unfold spread_outcome, cell_ok, phase_of, counted_alike.
  destruct c as [tr fi bu wa e k ebd]. cbn. destruct fi.
  - destruct tr, bu, wa, ebd; try done. by intros _ [->| ->].
  - by intros _ [->|(_ & -> & _)].
Qed.

Lemma spread_fire_count_trees env g env' g' :
  env_inv env → cells_ok env → spread_fire env g = Some (env', g') →
  count_trees env' = count_trees env.
Proof.
  intros Hinv Hok Hrun.
  destruct (spread_fire_inv env g Hinv) as (env1 & g1 & Hrun1 & Hinv1 & Hter).
  rewrite Hrun in Hrun1. injection Hrun1 as <- <-.
  apply same_terrain_dims in Hter as [Hw Hh].
  apply count_trees_cellwise, cellwise_lookup; [apply Hinv|apply Hinv1|done..|].
  intros x y c c' Hc Hc'.
  destruct (spread_fire_cells env g env' g') with (x := x) (y := y) (c := c)
    as (c1 & Hc1 & Hout); [apply Hinv|done|done|].
  assert (c1 = c') as -> by congruence.
  eapply spread_outcome_counted; [|exact Hout]. by eapply Hok.
Qed.

Lemma ignite_count_trees x y env env' :
  env_inv env → ignite x y env = Some env' → count_trees env' = count_trees env.
Proof.
  intros Hinv Hrun. destruct (ignite_inv x y env Hinv) as (env1 & Hrun1 & Hinv1 & Hter).
  rewrite Hrun in Hrun1. injection Hrun1 as <-.
  apply same_terrain_dims in Hter as [Hw Hh].
  apply count_trees_cellwise, cellwise_lookup; [apply Hinv|apply Hinv1|done..|].
  intros a b c c' Hc Hc'.
  apply ignite_cases in Hrun as [(-> & _)|(c0 & _ & Hc0 & _ & Hlit & Hother & _)].
  { assert (c' = c) as -> by congruence. done. }
  destruct (decide ((a, b) = (x, y))) as [[= -> ->]|Hne].
  - assert (c0 = c) as -> by congruence. rewrite Hlit in Hc'. by injection Hc' as <-.
  - rewrite Hother in Hc' by done. assert (c' = c) as -> by congruence. done.
Qed.

(** A successful suppression moves one cell from saved to burnt. *)
Lemma count_kept s0 b0 :
  kept_by_calls (λ env _ _ n,
    cells_ok env ∧ count_trees env = (s0 - n, b0 + n)).
Proof.
  intros env t calls n i x y dx dy ok env' t' [Hok Hcount] _ _ Hrun.
  pose proof Hrun as Hrun'.
  apply extinguish_fire_at_cases in Hrun
    as [(-> & -> & _)|(-> & c & Hb & Hc & Hf & _ & _ & _ & _ & Hcell & Hother & _)].
  { done. }
  split.
  - intros a b c' Hc'. destruct (decide ((a, b) = (x + dx, y + dy))) as [[= -> ->]|Hne].
    + rewrite Hcell in Hc'. injection Hc' as <-.
      apply grows_suppressed; [by eapply Hok|done].
    + rewrite Hother in Hc' by done. by eapply Hok.
  - apply extinguish_fire_at_grid in Hrun'.
    assert (Ht : tree c = true ∧ burnt c = false).
    { specialize (Hok _ _ _ Hc). unfold cell_ok, phase_of in Hok. rewrite Hf in Hok.
      by destruct (tree c), (burnt c), (water c), (extinguished_by_drone c). }
    pose proof (count_trees_update_cell suppressed _ _ env c Hc) as Hupd.
    unfold count_trees in *. rewrite Hrun'.
    unfold cell_count in Hupd. cbn in Hupd. destruct Ht as [Ht _]. rewrite Ht in Hupd.
    rewrite Hcount in Hupd.
    destruct (fold_left _ (grid (update_cell suppressed (x + dx) (y + dy) env)) _)
      as [s1 b1].
    unfold pair_add in Hupd. cbn in Hupd. injection Hupd as ? ?. f_equal; lia.
Qed.

Lemma step_count_trees env sw t g r :
  cells_ok env → step env sw t g = Some r →
  count_trees (st_env r)
  = ((count_trees env).1 - st_extinguished r, (count_trees env).2 + st_extinguished r).
Proof.
  intros Hok (sw1 & sw2 & st & _ & _ & Hsup & ->)%step_loops. cbn.
  apply (suppress_pass_rule _ (count_kept (count_trees env).1 (count_trees env).2))
    in Hsup; [apply Hsup|].
  split; [done|]. cbn. destruct (count_trees env). cbn. f_equal; lia.
Qed.

(** *** The counters of the component *)

Lemma blank_count_trees env : blank env → (count_trees env).2 = 0.
Proof.
  intros (_ & _ & Hcells). rewrite count_trees_cells. cbn.
  replace (filter _ (cells env)) with (@nil Cell); [done|]. symmetry.
  assert (H : Forall (λ c, burnt c = false) (cells env)).
  { apply Forall_forall. intros c (x & y & Hc)%elem_of_cells.
    by apply Hcells in Hc as (_ & ? & _). }
  induction H as [|c l Hc _ IH]; [done|]. rewrite filter_cons_False; [done|].
  intros [_ ?]. congruence.
Qed.

Lemma ignite_random_count_trees n env g env' g' :
  env_inv env → ignite_random n (env, g) = Some (env', g') →
  count_trees env' = count_trees env.
Proof.
  revert env g. induction n as [|n IH]; intros env g Hinv; [by intros [= <- <-]|].
  cbn [ignite_random]. unfold random. cbn [fst snd].
  destruct (ignite _ _ env) as [env1|] eqn:H1; [|done]. cbn [mbind option_bind].
  intros Hrest. rewrite <- (ignite_count_trees _ _ env env1 Hinv H1).
  match type of H1 with ignite ?x ?y env = _ =>
    destruct (ignite_inv x y env Hinv) as (env1' & H1' & Hinv1 & _) end.
  rewrite H1 in H1'. injection H1' as <-. by eapply IH.
Qed.

Lemma initSim_tally g s : initSim g = Some s → tally_inv s.
Proof.
  intros Hinit. pose proof Hinit as Hrun. unfold initSim in Hrun.
  pose proof (new_Environment_blank 40 20 g) as (Hblank & _).
  destruct (new_Environment 40 20 g) as [env0 g0]. cbn [fst] in *.
  destruct (add_water_blobs 3 (env0, g0)) as [[env1 g1]|] eqn:H1; [|done].
  cbn [mbind option_bind] in Hrun.
  destruct (ignite_random 5 (env1, g1)) as [[env2 g2]|] eqn:H2; [|done].
  cbn [mbind option_bind] in Hrun. injection Hrun as Hs.
  destruct (add_water_blobs_blank 3 env0 g0 Hblank) as (e1 & g1' & H1' & Hblank1 & _).
  rewrite H1 in H1'. injection H1' as <- <-.
  exists env2, 0%Q. rewrite <- Hs. cbn.
  split; [done|]. split; [done|].
  split; [apply (initSim_cells_ok g s); [done|by rewrite <- Hs]|].
  split; [done|]. split; [|done].
  rewrite (ignite_random_count_trees 5 env1 g1 env2 g2);
    [by apply blank_count_trees|by apply blank_env_inv|done].
Qed.

Lemma step_extinguished_nonneg env sw t g r :
  step env sw t g = Some r → 0 ≤ st_extinguished r.
Proof. intros [(-> & _) _]%step_quench. lia. Qed.

Lemma step_clock_some env sw t g r q :
  step env sw t g = Some r → t = Some q → is_Some (st_time r).
Proof.
  intros [_ Hclock]%step_quench ->. unfold clock_inv in Hclock.
  by destruct (st_time r).
Qed.

Lemma step_sim_tally w pp pg s s' :
  sim_inv s → tally_inv s → step_sim w pp pg s = Some s' →
  tally_inv s' ∧ totalExtinguishedRef s ≤ totalExtinguishedRef s'.
Proof.
  intros Hs (env & t & Henv & Ht & Hok & Hpos & Hcount & Hzero) Hrun.
  destruct (step_sim_stages_inv w pp pg s s' env Hs Henv Hrun)
    as (env1 & g1 & sim & time & g2 & env2 & sim2 & time2 & total2 & g3 & env3 & g4
        & H1 & H2 & H3 & H4 & Hs' & Hinv & Hinv1 & Hinv2 & Hinv3 & Hsim).
  destruct (step_sim_grows w pp pg s s' env env3 Hs Henv Hok Hrun) as [_ Hok3].
  { by rewrite Hs'. }
  pose proof (spread_fire_count_trees _ _ _ _ Hinv Hok H1) as Hc1.
  assert (Hok1 : cells_ok env1).
  { eapply env_grows_cells_ok;
      [by apply (spread_fire_grows env (sim_rng s) env1 g1)|apply Hinv|apply Hinv1]. }
  assert (Htime : ∃ q, time = Some q ∧ (stepCountRef s ≤ 10 → q = 0%Q)).
  { apply deploy_cases in H2 as [(_ & -> & _)|(_ & _ & -> & _)]; [by exists 0%Q|].
    by exists t. }
  destruct Htime as (q & -> & Hq).
  assert (H23 : 0 ≤ total2 - totalExtinguishedRef s ∧
                count_trees env2 = ((count_trees env1).1 - (total2 - totalExtinguishedRef s),
                                    (count_trees env1).2 + (total2 - totalExtinguishedRef s)) ∧
                ∃ q2, time2 = Some q2 ∧ (sim = None → q2 = q)).
  { unfold swarm_tick in H3. destruct sim as [swarm|].
    - destruct (step _ _ _ _) as [r|] eqn:Hr; [|done]. cbn in H3.
      injection H3 as <- _ <- <- _.
      replace (totalExtinguishedRef s + st_extinguished r - totalExtinguishedRef s)
        with (st_extinguished r) by lia.
      split; [by eapply step_extinguished_nonneg|].
      split; [by eapply step_count_trees|].
      destruct (step_clock_some _ _ _ _ _ q Hr eq_refl) as [q2 Hq2].
      exists q2. done.
    - injection H3 as <- _ <- <- _. rewrite Z.sub_diag. split; [done|].
      split; [destruct (count_trees env1); cbn; f_equal; lia|]. by exists q. }
  destruct H23 as (Hd & Hc2 & q2 & -> & Hq2).
  assert (Hc3 : count_trees env3 = count_trees env2).
  { unfold random_ignition in H4. destruct (Z.rem _ 15 =? 0); [|by injection H4 as <- _].
    unfold random_int, random in H4. cbn [fst snd] in H4.
    destruct (Qltb _ 0.3); [|by injection H4 as <- _].
    destruct (ignite _ _ env2) as [e3|] eqn:Hi; [|done]. cbn in H4.
    injection H4 as <- _. by eapply ignite_count_trees. }
  rewrite Hs'. cbn. split; [|lia].
  exists env3, q2. cbn. split; [done|]. split; [done|]. split; [done|].
  split; [lia|]. split.
  - rewrite Hc3, Hc2, Hc1. cbn. lia.
  - intros Hten. rewrite Hq2, Hq; [done|lia|].
    destruct Hs as (env0 & _ & _ & _ & _ & Hnone & _).
    apply deploy_cases in H2 as [(? & _)|(_ & -> & _)]; [lia|]. apply Hnone. lia.
Qed.

Lemma reachable_tally s : reachable s → tally_inv s.
Proof.
  induction 1 as [g s Hinit|w pp pg s s' Hs IH Hstep].
  - by eapply initSim_tally.
  - by apply (step_sim_tally w pp pg s s' (reachable_sim_inv s Hs) IH).
Qed.

Lemma near_kept : kept_by_calls (λ _ _ calls _, Forall call_near calls).
Proof.
  intros env t calls n i x y dx dy ok env' t' Hnear Hdx Hdy _.
  apply Forall_app. split; [done|]. constructor; [|done].
  unfold call_near. cbn. lia.
Qed.

Lemma step_calls_near env sw t g r :
  step env sw t g = Some r → Forall call_near (st_calls r).
Proof.
  intros (sw1 & sw2 & st & _ & _ & Hsup & ->)%step_loops. cbn.
  apply (suppress_pass_rule _ near_kept) in Hsup; [done|]. by constructor.
Qed.

Lemma length_filter_remove {A} `{EqDecision A} (l q : list A) :
  NoDup l → NoDup q → (∀ x, x ∈ q → x ∈ l) →
  (length (filter (λ x, x ∉ q) l) + length q = length l)%nat.
Proof.
  intros Hl Hq Hsub.
  rewrite <- (Permutation_length (filter_app_complement (λ x, x ∉ q) l)).
  rewrite length_app. f_equal. apply Permutation_length, NoDup_Permutation.
  - done.
  - by apply NoDup_filter.
  - intros x. rewrite list_elem_of_filter. split.
    + intros Hx. split; [|by apply Hsub]. tauto.
    + intros [Hx _]. by destruct (decide (x ∈ q)).
Qed.

(** *** A pass over an environment in which nothing burns *)

Lemma quiet_kept env0 t0 :
  grid_ok env0 → (∀ xy, burning_at env0 xy = false) →
  kept_by_calls (λ env t calls n,
    env = env0 ∧ t = t0 ∧ n = 0 ∧ Forall (λ c, call_result c = false) calls).
Proof.
  intros Hok Hquiet env t calls n i x y dx dy ok env' t' (-> & -> & -> & Hcalls) _ _ Hrun.
  apply extinguish_fire_at_cases in Hrun as [(-> & -> & -> & _)|(_ & c & _ & Hc & Hf & _)].
  - split; [done|]. split; [done|]. split; [done|]. apply Forall_app. split; [done|].
    by constructor.
  - specialize (Hquiet (x + dx, y + dy)). unfold burning_at in Hquiet. cbn in Hquiet.
    rewrite Hc in Hquiet. congruence.
Qed.

Lemma no_fires_quiet env : fires_ok env → active_fires env = [] → ∀ xy, burning_at env xy = false.
Proof.
  intros [_ Hin] Hnone xy. destruct (burning_at env xy) eqn:Hb; [|done].
  apply Hin in Hb. rewrite Hnone in Hb. by apply elem_of_nil in Hb.
Qed.

Lemma step_quiet env sw t g r :
  env_inv env → active_fires env = [] → step env sw t g = Some r →
  st_env r = env ∧ st_time r = t ∧ st_extinguished r = 0.
Proof.
  intros Hinv Hnone (sw1 & sw2 & st & _ & _ & Hsup & ->)%step_loops. cbn.
  apply (suppress_pass_rule _ (quiet_kept env t (proj1 Hinv)
           (no_fires_quiet env (proj1 (proj2 Hinv)) Hnone))) in Hsup.
  - by destruct Hsup as (? & ? & ? & _).
  - by repeat split.
Qed.

Lemma spread_fire_quiet env g :
  active_fires env = [] → spread_fire env g = Some (env, g).
Proof.
  intros Hnone. unfold spread_fire. rewrite Hnone. cbn.
  destruct env as [w h gr wi af]. cbn in Hnone. by subst af.
Qed.

(** *** Consecutive states of a run *)

Lemma ticks_succ g w pp pg n s s' :
  ticks g w pp pg n = Some s → ticks g w pp pg (S n) = Some s' →
  step_sim w pp pg s = Some s'.
Proof.
  intros Hs Hs'.
  change (ticks g w pp pg n ≫= step_sim w pp pg = Some s') in Hs'.
  by rewrite Hs in Hs'.
Qed.

(** A property of the cells of a grid holds if it holds at every coordinate
    of the grid. *)
Lemma cells_by_coords env (P : Z → Z → Cell → Prop) :
  grid_ok env →
  Forall (λ xy, ∀ c, cell_at env xy.1 xy.2 = Some c → P xy.1 xy.2 c) (coords env) →
  ∀ x y c, cell_at env x y = Some c → P x y c.
Proof.
  intros Hok Hall x y c Hc. rewrite Forall_forall in Hall.
  apply (Hall (x, y)); [|done]. apply elem_of_coords. by eapply cell_at_Some_in_bounds.
Qed.

(** *** The attraction matrix and fitness *)

Lemma get_attraction_matrix_lookup env m :
  get_attraction_matrix env = Some m →
  length m = Z.to_nat (height env) ∧
  Forall (λ row, length row = Z.to_nat (width env)) m ∧
  ∀ x y, in_bounds env x y = true →
    ∃ c, cell_at env x y = Some c ∧
         m !! Z.to_nat y ≫= (λ row, row !! Z.to_nat x) = Some (attraction c).
Proof.
  unfold get_attraction_matrix. intros Hm%mapM_Some_1. split; [|split].
  - apply Forall2_length in Hm. rewrite length_seqZ in Hm. lia.
  - apply Forall_forall. intros row [j Hj]%list_elem_of_lookup.
    destruct (Forall2_lookup_r _ _ _ _ _ Hm Hj) as (y & _ & Hrow).
    apply length_mapM in Hrow. rewrite length_seqZ in Hrow. lia.
  - intros x y Hb. destruct_bounds Hb.
    destruct (Forall2_lookup_l _ _ _ (Z.to_nat y) y Hm) as (row & Hrow & Hmap).
    { apply lookup_seqZ. lia. }
    apply mapM_Some_1 in Hmap.
    destruct (Forall2_lookup_l _ _ _ (Z.to_nat x) x Hmap) as (v & Hv & Hcell).
    { apply lookup_seqZ. lia. }
    destruct (cell_at env x y) as [c|]; [|done]. exists c. split; [done|].
    rewrite Hrow. cbn. rewrite Hv. by injection Hcell as <-.
Qed.

Lemma elem_of_positions_with v m yy xx :
  (yy, xx) ∈ positions_with v m ↔
  0 ≤ yy ∧ 0 ≤ xx ∧ m !! Z.to_nat yy ≫= (λ row, row !! Z.to_nat xx) = Some v.
Proof.
  unfold positions_with. rewrite list_elem_of_join. split.
  - intros (l & Hin & (j & row & -> & Hrow)%elem_of_lookup_imap).
    apply list_elem_of_join in Hin as (l & Hin & (i & c & -> & Hc)%elem_of_lookup_imap).
    destruct (c =? v) eqn:Hcv; [|by apply elem_of_nil in Hin].
    apply list_elem_of_singleton in Hin. injection Hin as -> ->.
    apply Z.eqb_eq in Hcv as ->. rewrite !Nat2Z.id, Hrow. cbn. split; [lia|].
    split; [lia|done].
  - intros (Hy & Hx & Hm).
    destruct (m !! Z.to_nat yy) as [row|] eqn:Hrow; [|done]. cbn in Hm.
    eexists. split; [|apply elem_of_lookup_imap; by exists (Z.to_nat yy), row].
    apply list_elem_of_join. eexists.
    split; [|apply elem_of_lookup_imap; by exists (Z.to_nat xx), v].
    rewrite Z.eqb_refl. apply list_elem_of_singleton. f_equal; lia.
Qed.

Lemma marked_positions_with env m v yx :
  grid_ok env → get_attraction_matrix env = Some m →
  yx ∈ positions_with v m ↔ marked env v yx.
Proof.
  intros Hok Hm. destruct yx as [yy xx]. rewrite elem_of_positions_with.
  destruct (get_attraction_matrix_lookup env m Hm) as (Hlen & Hrows & Hlook).
  unfold marked. cbn [fst snd]. split.
  - intros (Hy & Hx & Hv).
    destruct (m !! Z.to_nat yy) as [row|] eqn:Hrow; [|done]. cbn in Hv.
    apply lookup_lt_Some in Hrow as Hlt. apply lookup_lt_Some in Hv as Hlt'.
    rewrite Forall_lookup in Hrows. rewrite (Hrows _ _ Hrow) in Hlt'.
    destruct (Hlook xx yy) as (c & Hc & Hcv); [solve_bounds|].
    exists c. split; [done|]. rewrite Hrow in Hcv. cbn in Hcv. congruence.
  - intros (c & Hc & <-). pose proof (cell_at_nonneg _ _ _ _ Hc) as [Hx Hy].
    split; [done|]. split; [done|].
    destruct (Hlook xx yy) as (c' & Hc' & Hcv); [by eapply cell_at_Some_in_bounds|].
    congruence.
Qed.

Lemma num_min_le_l a b : num_le (num_min a b) a.
Proof.
  unfold num_le. destruct a as [x|], b as [y|]; cbn; try done.
  - destruct (Qltb x (Qmin x y)) eqn:E; [|done]. apply Qltb_lt in E.
    exfalso. apply (Qlt_not_le _ _ E), Q.le_min_l.
  - destruct (Qltb x x) eqn:E; [|done]. apply Qltb_lt in E.
    by apply Qlt_irrefl in E.
Qed.

Lemma num_min_le_r a b : num_le (num_min a b) b.
Proof.
  unfold num_le. destruct a as [x|], b as [y|]; cbn; try done.
  - destruct (Qltb y (Qmin x y)) eqn:E; [|done]. apply Qltb_lt in E.
    exfalso. apply (Qlt_not_le _ _ E), Q.le_min_r.
  - destruct (Qltb y y) eqn:E; [|done]. apply Qltb_lt in E.
    by apply Qlt_irrefl in E.
Qed.

Lemma num_le_refl a : num_le a a.
Proof.
  unfold num_le. destruct a as [x|]; cbn; [|done].
  destruct (Qltb x x) eqn:E; [|done]. apply Qltb_lt in E. by apply Qlt_irrefl in E.
Qed.

Lemma num_le_trans a b c : num_le a b → num_le b c → num_le a c.
Proof.
  unfold num_le. destruct a as [x|], b as [y|], c as [z|]; cbn; try done.
  intros Hxy Hyz. destruct (Qltb z x) eqn:E; [|done]. apply Qltb_lt in E.
  assert (Hxy' : (x <= y)%Q).
  { apply Qnot_lt_le. intros H%Qltb_lt. congruence. }
  assert (Hyz' : (y <= z)%Q).
  { apply Qnot_lt_le. intros H%Qltb_lt. congruence. }
  exfalso. apply (Qlt_not_le _ _ E). by eapply Qle_trans.
Qed.

Lemma num_le_Fin x y : num_le (Fin x) (Fin y) ↔ (x <= y)%Q.
Proof.
  unfold num_le. cbn. split.
  - intros H. apply Qnot_lt_le. intros Hlt%Qltb_lt. congruence.
  - intros H. destruct (Qltb y x) eqn:E; [|done]. apply Qltb_lt in E.
    exfalso. by apply (Qlt_not_le _ _ E).
Qed.

(** The fold of [Math.min] over the distances. *)
Lemma fold_min_dist x y ps acc :
  let r := fold_left (λ m p, num_min m (Fin (dist_to x y p))) ps acc in
  (r = acc ∨ ∃ p, p ∈ ps ∧ r = Fin (dist_to x y p)) ∧
  num_le r acc ∧ ∀ q, q ∈ ps → num_le r (Fin (dist_to x y q)).
Proof.
  revert acc. induction ps as [|p ps IH]; intros acc; cbn [fold_left].
  { split; [by left|]. split; [apply num_le_refl|]. by intros q ?%elem_of_nil. }
  destruct (IH (num_min acc (Fin (dist_to x y p)))) as (Hcase & Hle & Hall).
  split; [|split].
  - destruct Hcase as [->|(p' & Hin & ->)].
    + destruct (num_min_cases acc (Fin (dist_to x y p))) as [->| ->]; [by left|].
      right. exists p. split; [by left|done].
    + right. exists p'. split; [by right|done].
  - eapply num_le_trans; [exact Hle|apply num_min_le_l].
  - intros q [->|Hq]%elem_of_cons; [|by apply Hall].
    eapply num_le_trans; [exact Hle|apply num_min_le_r].
Qed.

Lemma min_dist_nearest env m v x y :
  grid_ok env → get_attraction_matrix env = Some m →
  nearest env v x y (min_dist x y (positions_with v m)) ∧
  (min_dist x y (positions_with v m) = Infinity ↔ positions_with v m = []).
Proof.
  intros Hok Hm. unfold min_dist.
  destruct (fold_min_dist x y (positions_with v m) Infinity) as (Hcase & _ & Hall).
  cbv zeta in *. split.
  - destruct Hcase as [Hr|(p & Hp & Hr)]; rewrite Hr in *; cbn.
    + intros yx Hyx%(marked_positions_with env m v yx Hok Hm).
      specialize (Hall yx Hyx). unfold num_le in Hall. cbn in Hall. done.
    + exists p. split; [by apply (marked_positions_with env m v p Hok Hm)|].
      split; [done|]. intros yx' Hyx'%(marked_positions_with env m v yx' Hok Hm).
      by apply num_le_Fin, Hall.
  - split.
    + intros Hinf. destruct (positions_with v m) as [|p l]; [done|].
      specialize (Hall p ltac:(by left)). rewrite Hinf in Hall.
      unfold num_le in Hall. cbn in Hall. done.
    + by intros ->.
Qed.

(** *** The first two loops of step, drone by drone *)

Lemma move_inv_step env sw g k st st' :
  move_inv env sw g k st → move_drone env k st = Some st' →
  move_inv env sw g (S k) st'.
Proof.
  destruct st as [s1 g1], st' as [s2 g2].
  intros (Hsame & Hg & Hrest & Hdone). cbn [fst snd] in *. subst g1.
  unfold move_drone, random. cbn [fst snd draws cursor].
  destruct (velocities s1 !! k) as [v|] eqn:Hv; [|done]. cbn [mbind option_bind].
  destruct (pbest_positions s1 !! k) as [pb|] eqn:Hpb; [|done]. cbn [mbind option_bind].
  destruct (positions s1 !! k) as [p|] eqn:Hp; [|done]. cbn [mbind option_bind].
  intros [= <- <-]. cbn [fst snd].
  destruct Hsame as (Hn & Hpbs & Hpv & Hgp & Hgv & Hw & Ht & Ho & Hpp & Hpg & Hlp & Hlv).
  destruct (Hrest k ltac:(lia)) as [Hpk Hvk].
  apply lookup_lt_Some in Hv as Hltv. apply lookup_lt_Some in Hp as Hltp.
  split; [|split; [|split]].
  - repeat split; cbn; rewrite ?length_insert; done.
  - cbn [snd]. f_equal. lia.
  - intros i Hi. cbn. rewrite !list_lookup_insert_ne by lia. apply Hrest. lia.
  - intros i Hi. cbn [positions velocities set_positions set_velocities].
    destruct (decide (i = k)) as [->|Hne].
    + exists v, pb, p. rewrite <- Hvk, <- Hpk, <- Hpbs.
      split; [done|]. split; [done|]. split; [done|].
      cbn [fst snd positions velocities set_positions set_velocities].
      rewrite !list_lookup_insert_eq by done.
      unfold new_velocity, new_position. cbn [fst snd].
      rewrite <- Ho, <- Hpp, <- Hpg, <- Hgp.
      split; repeat f_equal; lia.
    + destruct (Hdone i ltac:(lia)) as (v0 & pb0 & p0 & ? & ? & ? & ? & ?).
      exists v0, pb0, p0.
      cbn [fst snd positions velocities set_positions set_velocities].
      rewrite !list_lookup_insert_ne by done. done.
Qed.

Lemma move_loop_inv env sw g n st :
  for_drones (move_drone env) (seq 0 n) (sw, g) = Some st → move_inv env sw g n st.
Proof.
  apply (for_drones_seq_rule (move_inv env sw g)).
  - split; [by repeat split|]. split; [destruct g; cbn; f_equal; lia|].
    split; [done|]. intros i Hi. lia.
  - intros k s s' _. apply move_inv_step.
Qed.

Lemma num_ltb_irrefl a : num_ltb a a = false.
Proof. apply num_le_refl. Qed.

Lemma num_le_below f g v : num_ltb f g = true → num_le g v → num_le f v.
Proof.
  unfold num_le. intros Hfg Hgv. destruct (num_ltb v f) eqn:Hvf; [|done].
  by rewrite (num_ltb_trans v f g) in Hgv.
Qed.

Lemma evaluate_inv_step env sw k s1 s2 :
  evaluate_inv env sw k s1 → evaluate_drone env k s1 = Some s2 →
  evaluate_inv env sw (S k) s2.
Proof.
  intros (Hsame & Hrest & Hdone & Hgb & Hbest).
  destruct Hsame as (Hn & Hp & Hv & Hw & Ht & Ho & Hpp & Hpg & Hlp & Hlv).
  destruct (Hrest k ltac:(lia)) as [Hpvk Hppk].
  unfold evaluate_drone.
  destruct (positions s1 !! k) as [p|] eqn:Hpk; [|done]. cbn [mbind option_bind].
  destruct (fitness env p) as [f|] eqn:Hf; [|done]. cbn [mbind option_bind].
  destruct (pbest_values s1 !! k) as [pbv|] eqn:Hpbv; [|done]. cbn [mbind option_bind].
  apply lookup_lt_Some in Hpbv as Hlt.
  assert (Hcommon : ∀ s2,
    same_motion s1 s2 →
    pbest_values s2 = (if num_ltb f pbv then <[k:=f]> (pbest_values s1) else pbest_values s1) →
    pbest_positions s2
      = (if num_ltb f pbv then <[k:=p]> (pbest_positions s1) else pbest_positions s1) →
    not_above (gbest_value s1) (gbest_value s2) →
    (length (pbest_positions s1) = length (pbest_values s1) → best_ok s1 → best_ok s2) →
    evaluate_inv env sw (S k) s2).
  { intros s Hs Hvals Hposs Hgb' Hbest'.
    destruct Hs as (Hn' & Hp' & Hv' & Hw' & Ht' & Ho' & Hpp' & Hpg' & Hlp' & Hlv').
    split; [repeat split; congruence|]. split; [|split; [|split]].
    - intros i Hi. rewrite Hvals, Hposs. destruct (num_ltb f pbv).
      + rewrite !list_lookup_insert_ne by lia. apply Hrest. lia.
      + apply Hrest. lia.
    - intros i Hi. destruct (decide (i = k)) as [->|Hne].
      + exists p, f, pbv. rewrite <- Hp. split; [done|]. split; [done|].
        rewrite <- Hpvk. split; [done|]. rewrite Hvals, Hposs.
        destruct (num_ltb f pbv).
        * rewrite list_lookup_insert_eq by done. split; [done|].
          destruct (decide (k < length (pbest_positions s1))%nat).
          -- rewrite !list_lookup_insert_eq by lia. done.
          -- rewrite !lookup_ge_None_2 by (rewrite length_insert; lia). done.
        * done.
      + destruct (Hdone i ltac:(lia)) as (p0 & f0 & pbv0 & ? & ? & ? & Hv0 & Hp0).
        exists p0, f0, pbv0. split; [done|]. split; [done|]. split; [done|].
        rewrite Hvals, Hposs. destruct (num_ltb f pbv).
        * rewrite !list_lookup_insert_ne by done. done.
        * done.
    - by eapply not_above_trans.
    - intros Hlen Hb. apply Hbest'; [congruence|]. by apply Hbest. }
  destruct (num_ltb f pbv) eqn:Hlt1.
  - cbn [gbest_value set_pbest]. destruct (num_ltb f (gbest_value s1)) eqn:Hlt2;
      intros [= <-]; apply Hcommon;
      cbn [pbest_values pbest_positions gbest_value gbest_position set_pbest set_gbest];
      try done.
    + repeat split; cbn; by rewrite ?length_insert.
    + by right.
    + intros Hlen [Hall _]. unfold best_ok.
      cbn [pbest_values pbest_positions gbest_value gbest_position set_pbest set_gbest].
      split.
      * intros i v Hi. destruct (decide (i = k)) as [->|Hne].
        -- rewrite list_lookup_insert_eq in Hi by done. injection Hi as <-.
           apply num_le_refl.
        -- rewrite list_lookup_insert_ne in Hi by done.
           eapply num_le_below; [exact Hlt2|]. by eapply Hall.
      * exists k. rewrite !list_lookup_insert_eq by lia. done.
    + repeat split; cbn; by rewrite ?length_insert.
    + by left.
    + intros Hlen [Hall (j & Hjv & Hjp)]. unfold best_ok.
      cbn [pbest_values pbest_positions gbest_value gbest_position set_pbest set_gbest].
      split.
      * intros i v Hi. destruct (decide (i = k)) as [->|Hne].
        -- rewrite list_lookup_insert_eq in Hi by done. by injection Hi as <-.
        -- rewrite list_lookup_insert_ne in Hi by done. by eapply Hall.
      * exists j. assert (j ≠ k).
        { intros ->. rewrite Hpbv in Hjv. injection Hjv as ->. congruence. }
        by rewrite !list_lookup_insert_ne.
  - intros [= <-]. apply Hcommon; first [done|by repeat split|by left].
Qed.

Lemma evaluate_loop_inv env sw n sw' :
  for_drones (evaluate_drone env) (seq 0 n) sw = Some sw' → evaluate_inv env sw n sw'.
Proof.
  apply (for_drones_seq_rule (evaluate_inv env sw)).
  - split; [by repeat split|]. split; [done|]. split; [intros i Hi; lia|].
    split; [apply not_above_refl|done].
  - intros k s s' _. apply evaluate_inv_step.
Qed.

(** *** The constructor of the swarm *)

Lemma random_pairs_lookup f h n g :
  (random_pairs f h n g).2 = mkRng (draws g) (cursor g + 2 * n) ∧
  ∀ i, (i < n)%nat →
    (random_pairs f h n g).1 !! i
    = Some (f (draws g (cursor g + 2 * i)%nat), h (draws g (cursor g + 2 * i + 1)%nat)).
Proof.
  revert g. induction n as [|n IH]; intros g.
  { split; [destruct g; cbn; f_equal; lia|]. intros i Hi. lia. }
  cbn [random_pairs]. unfold random. cbn [fst snd draws cursor].
  specialize (IH (mkRng (draws g) (S (S (cursor g))))).
  destruct (random_pairs f h n _) as [l g1]. cbn [fst snd draws cursor] in *.
  destruct IH as [-> Hlook]. split; [f_equal; lia|].
  intros [|i] Hi.
  - cbn [lookup list_lookup].
    replace (cursor g + 2 * 0)%nat with (cursor g) by lia.
    by replace (cursor g + 1)%nat with (S (cursor g)) by lia.
  - change ((_ :: l) !! S i) with (l !! i). rewrite Hlook by lia.
    replace (S (S (cursor g)) + 2 * i)%nat with (cursor g + 2 * S i)%nat by lia.
    done.
Qed.

Lemma fold_num_min_le l a :
  num_le (fold_left num_min l a) a ∧ ∀ v, v ∈ l → num_le (fold_left num_min l a) v.
Proof.
  revert a. induction l as [|x l IH]; intros a; cbn [fold_left].
  { split; [apply num_le_refl|]. by intros v ?%elem_of_nil. }
  destruct (IH (num_min a x)) as [Hle Hall]. split.
  - eapply num_le_trans; [exact Hle|apply num_min_le_l].
  - intros v [->|Hv]%elem_of_cons; [|by apply Hall].
    eapply num_le_trans; [exact Hle|apply num_min_le_r].
Qed.

Lemma num_eqb_le a b v : num_eqb a b = true → num_le b v → num_le a v.
Proof.
  unfold num_le. destruct a as [x|], b as [y|], v as [z|]; cbn; try done.
  intros Heq%Qeq_bool_iff Hle. destruct (Qltb z x) eqn:E; [|done].
  apply Qltb_lt in E. rewrite Heq in E. apply Qltb_lt in E. congruence.
Qed.

Lemma num_le_neq_lt a b v :
  num_eqb a b = true → num_le b v → num_eqb v b = false → num_ltb a v = true.
Proof.
  unfold num_le. destruct a as [x|], b as [y|], v as [z|]; cbn; try done.
  intros Heq%Qeq_bool_iff Hle Hne. apply Qltb_lt. rewrite Heq.
  assert (Hyz : (y <= z)%Q).
  { apply Qnot_lt_le. intros H%Qltb_lt. congruence. }
  destruct (Qle_lt_or_eq _ _ Hyz) as [Hlt|Heq']; [done|].
  exfalso. symmetry in Heq'. apply Qeq_bool_iff in Heq'. congruence.
Qed.

Lemma index_of_min_least values i :
  index_of_min values = Some i →
  ∃ gv, values !! i = Some gv ∧
        (∀ v, v ∈ values → num_le gv v) ∧
        ∀ j v, (j < i)%nat → values !! j = Some v → num_ltb gv v = true.
Proof.
  unfold index_of_min. set (m := fold_left num_min values Infinity).
  destruct (list_find _ values) as [[i' gv]|] eqn:Hfind; [|done].
  cbn. intros [= ->]. apply list_find_Some in Hfind as (Hi & Heq & Hfirst).
  destruct (fold_num_min_le values Infinity) as [_ Hall]. fold m in Hall.
  exists gv. split; [done|]. split.
  - intros v Hv. eapply num_eqb_le; [exact Heq|]. by apply Hall.
  - intros j v Hj Hv. eapply num_le_neq_lt; [exact Heq| |].
    + apply Hall. by eapply list_elem_of_lookup_2.
    + specialize (Hfirst j v Hv Hj). by destruct (num_eqb v m).
Qed.

Lemma new_DroneSwarm_effect env n g sw g' :
  new_DroneSwarm env n g = Some (sw, g') →
  g' = mkRng (draws g) (cursor g + 4 * n) ∧
  num_drones sw = n ∧
  (∀ i, (i < n)%nat →
     positions sw !! i
     = Some (draws g (cursor g + 2 * i)%nat * inject_Z (width env - 1),
             draws g (cursor g + 2 * i + 1)%nat * inject_Z (height env - 1))%Q ∧
     velocities sw !! i
     = Some ((draws g (cursor g + 2 * n + 2 * i)%nat - 0.5) * 3,
             (draws g (cursor g + 2 * n + 2 * i + 1)%nat - 0.5) * 3)%Q) ∧
  pbest_positions sw = positions sw ∧
  mapM (fitness env) (positions sw) = Some (pbest_values sw) ∧
  best_ok sw ∧
  (∃ i, positions sw !! i = Some (gbest_position sw) ∧
        pbest_values sw !! i = Some (gbest_value sw) ∧
        ∀ j v, (j < i)%nat → pbest_values sw !! j = Some v →
               num_ltb (gbest_value sw) v = true) ∧
  water_left sw = replicate n MAX_WATER_CAPACITY ∧
  refill_timers sw = replicate n 0 ∧
  (omega sw, phi_p sw, phi_g sw) = (0.7, 1.5, 1.5)%Q.
Proof.
  unfold new_DroneSwarm.
  pose proof (random_pairs_lookup
                (λ r, r * inject_Z (width env - 1))%Q
                (λ r, r * inject_Z (height env - 1))%Q n g) as [Hg1 Hps].
  destruct (random_pairs _ _ n g) as [ps g1]. cbn [fst snd] in *. subst g1.
  pose proof (random_pairs_lookup (λ r, (r - 0.5) * 3)%Q (λ r, (r - 0.5) * 3)%Q n
                (mkRng (draws g) (cursor g + 2 * n))) as [Hg2 Hvs].
  destruct (random_pairs _ _ n _) as [vs g2]. cbn [fst snd draws cursor] in *. subst g2.
  destruct (mapM (fitness env) ps) as [values|] eqn:Hvalues; [|done].
  cbn [mbind option_bind].
  destruct (index_of_min values) as [best|] eqn:Hbest; [|done].
  cbn [mbind option_bind].
  destruct (ps !! best) as [gp|] eqn:Hgp; [|done]. cbn [mbind option_bind].
  destruct (values !! best) as [gv|] eqn:Hgv; [|done]. cbn [mbind option_bind].
  intros [= <- <-]. cbn.
  destruct (index_of_min_least values best Hbest) as (gv' & Hgv' & Hall & Hfirst).
  assert (gv' = gv) as -> by congruence.
  split; [f_equal; lia|]. split; [done|]. split.
  { intros i Hi. by rewrite Hps, Hvs by done. }
  split; [done|]. split; [done|]. split; [split|].
  - intros i v Hv. apply Hall. by eapply list_elem_of_lookup_2.
  - by exists best.
  - split; [by exists best|done].
Qed.

(** *** The three loops of step, put together *)

Lemma step_stages env sw t g r :
  step env sw t g = Some r →
  ∃ sw1 sw2,
    move_inv env sw g (num_drones sw) (sw1, st_rng r) ∧
    evaluate_inv env sw1 (num_drones sw) sw2 ∧
    same_flight sw2 (st_swarm r).
Proof.
  intros (sw1 & sw2 & st & H1 & H2 & H3 & ->)%step_loops. cbn.
  exists sw1, sw2. split; [by apply move_loop_inv|]. split; [by apply evaluate_loop_inv|].
  apply suppress_loop_inv in H3. apply H3.
Qed.

Lemma best_ok_same sw sw' :
  pbest_values sw' = pbest_values sw → pbest_positions sw' = pbest_positions sw →
  gbest_value sw' = gbest_value sw → gbest_position sw' = gbest_position sw →
  best_ok sw → best_ok sw'.
Proof. unfold best_ok. by intros -> -> -> ->. Qed.

Lemma step_best_ok env sw t g r :
  length (pbest_positions sw) = length (pbest_values sw) → best_ok sw →
  step env sw t g = Some r → best_ok (st_swarm r).
Proof.
  intros Hlen Hbest (sw1 & sw2 & Hmove & Heval & Hfl)%step_stages.
  destruct Hmove as ((_ & Hpp & Hpv & Hgp & Hgv & _) & _). cbn [fst] in *.
  destruct Heval as (_ & _ & _ & _ & Hkeep).
  destruct Hfl as (_ & _ & _ & Hpp' & Hpv' & Hgp' & Hgv' & _).
  apply (best_ok_same sw2); [done..|]. apply Hkeep; [congruence|].
  by apply (best_ok_same sw).
Qed.

(** *** The swarm of the component *)

Lemma step_frame env sw t g r :
  step env sw t g = Some r →
  num_drones (st_swarm r) = num_drones sw ∧
  omega (st_swarm r) = omega sw ∧ phi_p (st_swarm r) = phi_p sw ∧
  phi_g (st_swarm r) = phi_g sw.
Proof.
  intros (sw1 & sw2 & Hmove & Heval & Hfl)%step_stages.
  destruct Hmove as ((Hn1 & _ & _ & _ & _ & _ & _ & Ho1 & Hp1 & Hg1 & _) & _).
  cbn [fst] in *.
  destruct Heval as ((Hn2 & _ & _ & _ & _ & Ho2 & Hp2 & Hg2 & _) & _).
  destruct Hfl as (Hn3 & _ & _ & _ & _ & _ & _ & Ho3 & Hp3 & Hg3 & _).
  repeat split; congruence.
Qed.

Lemma step_sim_fleet w pp pg s s' :
  sim_inv s → fleet_inv s → step_sim w pp pg s = Some s' →
  fleet_inv s' ∧
  ∀ sw', simRef s' = Some sw' → omega sw' = w ∧ phi_p sw' = pp ∧ phi_g sw' = pg.
Proof.
  intros Hs Hfleet Hrun. pose proof Hs as (env & Henv & _).
  destruct (step_sim_stages_inv w pp pg s s' env Hs Henv Hrun)
    as (env1 & g1 & sim & time & g2 & env2 & sim2 & time2 & total2 & g3 & env3 & g4
        & H1 & H2 & H3 & H4 & -> & _ & _ & _ & _ & Hsim).
  assert (Hall : ∀ sw', sim2 = Some sw' →
            (num_drones sw' = 20%nat ∧ best_ok sw') ∧
            omega sw' = w ∧ phi_p sw' = pp ∧ phi_g sw' = pg).
  { intros sw' ->. unfold swarm_tick in H3. destruct sim as [swarm|]; [|done].
    destruct (step _ _ _ _) as [r|] eqn:Hr; [|done]. cbn in H3.
    injection H3 as _ <- _ _ _.
    destruct (step_frame _ _ _ _ _ Hr) as (Hn & Ho & Hp & Hg). cbn in Hn, Ho, Hp, Hg.
    destruct (Hsim swarm eq_refl) as [Hok _].
    assert (Hold : num_drones swarm = 20%nat ∧ best_ok swarm).
    { apply deploy_cases in H2 as [(_ & _ & sw0 & Hnew & Heq)|(_ & Heq & _)].
      - injection Heq as ->.
        apply new_DroneSwarm_effect in Hnew as (_ & Hn0 & _ & _ & _ & Hb & _).
        done.
      - apply Hfleet. congruence. }
    destruct Hold as [Hn0 Hb0]. split; [|done]. split; [congruence|].
    eapply step_best_ok; [| |exact Hr].
    - destruct Hok as (_ & _ & Hl1 & Hl2 & _). cbn. congruence.
    - done. }
  split.
  - intros sw' Hsw'. cbn in Hsw'. by apply Hall.
  - intros sw' Hsw'. cbn in Hsw'. by apply Hall.
Qed.

Lemma initSim_refs g s :
  initSim g = Some s →
  simRef s = None ∧ stepCountRef s = 0 ∧ totalExtinguishedRef s = 0 ∧
  simTimeRef s = Some 0%Q.
Proof.
  unfold initSim. destruct (new_Environment 40 20 g) as [env0 g0].
  destruct (add_water_blobs 3 _) as [[env1 g1]|]; [|done]. cbn [mbind option_bind].
  destruct (ignite_random 5 _) as [[env2 g2]|]; [|done]. cbn [mbind option_bind].
  by intros [= <-].
Qed.

Lemma reachable_fleet s : reachable s → fleet_inv s.
Proof.
  induction 1 as [g s Hinit|w pp pg s s' Hs IH Hstep].
  - intros sw Hsw. apply initSim_refs in Hinit as (Hnone & _). congruence.
  - by apply (step_sim_fleet w pp pg s s' (reachable_sim_inv s Hs) IH).
Qed.

(** *** Draws within [[0, 1)]: the water cells and the first fires *)

Lemma Qfloor_draw r k :
  (0 <= r < 1)%Q → 1 ≤ k → 0 ≤ Qfloor (r * inject_Z k) ≤ k - 1.
Proof.
  intros [H0 H1] Hk.
  assert (Hq : (0 < inject_Z k)%Q).
  { change 0%Q with (inject_Z 0). rewrite <- Zlt_Qlt. lia. }
  split.
  - change 0 with (Qfloor 0). apply Qfloor_resp_le.
    apply Qmult_le_0_compat; [done|]. by apply Qlt_le_weak.
  - assert (Hlt : (inject_Z (Qfloor (r * inject_Z k)) < inject_Z k)%Q).
    { eapply Qle_lt_trans; [apply Qfloor_le|].
      apply (Qlt_le_trans _ (1 * inject_Z k)); [|rewrite Qmult_1_l; apply Qle_refl].
      by apply Qmult_lt_compat_r. }
    rewrite <- Zlt_Qlt in Hlt. lia.
Qed.

Lemma Qfloor_share r q n :
  (0 <= r < 1)%Q → (0 <= q)%Q → Qfloor q = n → 0 ≤ Qfloor (r * q) ≤ n.
Proof.
  intros [H0 H1] Hq <-. split.
  - change 0 with (Qfloor 0). apply Qfloor_resp_le. by apply Qmult_le_0_compat.
  - apply Qfloor_resp_le. apply (Qle_trans _ (1 * q)); [|rewrite Qmult_1_l; apply Qle_refl].
    apply Qmult_le_compat_r; [by apply Qlt_le_weak|done].
Qed.

Lemma length_filter_alter {A} (P : A → Prop) `{∀ a, Decision (P a)} (f : A → A) l i c :
  l !! i = Some c →
  (length (filter P (alter f i l)) + (if decide (P c) then 1 else 0)
   = length (filter P l) + (if decide (P (f c)) then 1 else 0))%nat.
Proof.
  revert i. induction l as [|a l IH]; intros [|i] Hc; try done.
  - injection Hc as ->. change (alter f 0%nat (c :: l)) with (f c :: l).
    rewrite !filter_cons. repeat case_decide; cbn [length]; lia.
  - cbn in Hc. specialize (IH i Hc).
    change (alter f (S i) (a :: l)) with (a :: alter f i l).
    rewrite !filter_cons. destruct (decide (P a)); cbn [length]; lia.
Qed.

Lemma length_filter_concat_alter {A} (P : A → Prop) `{∀ a, Decision (P a)}
    (f : A → A) (g : list (list A)) j i row c :
  g !! j = Some row → row !! i = Some c →
  (length (filter P (concat (alter (alter f i) j g))) + (if decide (P c) then 1 else 0)
   = length (filter P (concat g)) + (if decide (P (f c)) then 1 else 0))%nat.
Proof.
  revert j. induction g as [|r g IH]; intros [|j] Hrow Hc; try done.
  - injection Hrow as ->.
    change (alter (alter f i) 0%nat (row :: g)) with (alter f i row :: g).
    cbn [concat]. rewrite !filter_app, !length_app.
    pose proof (length_filter_alter P f row i c Hc). lia.
  - cbn in Hrow. specialize (IH j Hrow Hc).
    change (alter (alter f i) (S j) (r :: g)) with (r :: alter (alter f i) j g).
    cbn [concat]. rewrite !filter_app, !length_app. lia.
Qed.

Lemma count_water_watered x y env c :
  cell_at env x y = Some c →
  (count_water (update_cell (set_tree false) x y (update_cell (set_water true) x y env))
   + (if water c then 1 else 0) = count_water env + 1)%nat.
Proof.
  intros Hc. pose proof (cell_at_nonneg _ _ _ _ Hc) as [Hx Hy].
  unfold cell_at in Hc.
  replace (0 <=? x) with true in Hc by (symmetry; lia).
  replace (0 <=? y) with true in Hc by (symmetry; lia). cbn in Hc.
  destruct (grid env !! Z.to_nat y) as [row|] eqn:Hrow; [|done]. cbn in Hc.
  rewrite update_cell_compose. unfold count_water, update_cell. cbn [grid set_grid].
  pose proof (length_filter_concat_alter (λ c : Cell, water c)
                (set_tree false ∘ set_water true) _ _ _ _ _ Hrow Hc) as Hn.
  cbv beta in Hn. unfold compose in Hn. cbn [water set_tree set_water] in Hn.
  destruct (water c); repeat case_decide; cbn [Is_true] in *; done || lia.
Qed.

Lemma count_water_pos env x y c :
  cell_at env x y = Some c → water c = true → (1 ≤ count_water env)%nat.
Proof.
  intros (row & Hrow & Hc)%cell_at_elem_of Hw. unfold count_water.
  assert (Hin : c ∈ filter (λ c : Cell, water c) (concat (grid env))).
  { apply list_elem_of_filter. split; [by rewrite Hw|].
    revert Hrow. generalize (grid env). intros rows.
    induction rows as [|r rows IH]; [by intros ?%elem_of_nil|].
    cbn [concat]. rewrite elem_of_cons, elem_of_app. intros [<-|Hr]; auto. }
  destruct (filter _ _); [by apply elem_of_nil in Hin|cbn; lia].
Qed.

Lemma water_walk_count steps x y env g env' g' :
  water_walk steps x y (env, g) = Some (env', g') →
  draws g' = draws g ∧
  (count_water env ≤ count_water env' ≤ count_water env + steps)%nat ∧
  ((0 < steps)%nat → in_bounds env x y = true → (1 ≤ count_water env')%nat).
Proof.
  revert x y env g. induction steps as [|steps IH]; intros x y env g.
  { intros [= <- <-]. split; [done|]. split; lia. }
  cbn [water_walk]. destruct (in_bounds env x y) eqn:Hb.
  - destruct (cell_at env x y) as [c|] eqn:Hc; [|done]. cbn [mbind option_bind].
    unfold random_int, random. cbn [fst snd].
    intros (Hd & Hn & _)%IH. pose proof (count_water_watered x y env c Hc) as Hone.
    assert (Hpos : (1 ≤ count_water (update_cell (set_tree false) x y
                                       (update_cell (set_water true) x y env)))%nat).
    { apply (count_water_pos _ x y (set_tree false (set_water true c))); [|done].
      by do 2 apply cell_at_update_cell_eq. }
    split; [done|]. destruct (water c); cbv iota in Hone; split; lia.
  - cbn [mbind option_bind]. unfold random_int, random. cbn [fst snd].
    intros (Hd & Hn & _)%IH. split; [done|]. split; [lia|done].
Qed.

Lemma water_blobs_count n env g env' g' :
  unit_draws g → 9 ≤ width env → 9 ≤ height env →
  water_blobs n (env, g) = Some (env', g') →
  draws g' = draws g ∧
  (count_water env ≤ count_water env' ≤ count_water env + 29 * n)%nat ∧
  ((0 < n)%nat → (1 ≤ count_water env')%nat).
Proof.
  revert env g. induction n as [|n IH]; intros env g Hg Hw Hh.
  { intros [= <- <-]. split; [done|]. split; lia. }
  cbn [water_blobs]. unfold random_int, random. cbn [fst snd].
  destruct (water_walk _ _ _ _) as [[env1 g1]|] eqn:H1; [|done].
  cbn [mbind option_bind]. intros Hrest.
  pose proof (water_walk_floods _ _ _ _ _ _ _ H1) as (Hw1 & Hh1 & _).
  apply water_walk_count in H1 as (Hd & Hn1 & Hpos1).
  cbn [draws cursor] in Hd, Hn1, Hpos1.
  apply IH in Hrest as (Hd' & Hn & _); [|by intros k; rewrite Hd|lia|lia].
  pose proof (Qfloor_draw _ (width env - 8) (Hg (cursor g))) as Hx.
  pose proof (Qfloor_draw _ (height env - 8) (Hg (S (cursor g)))) as Hy.
  pose proof (Qfloor_draw _ 15 (Hg (S (S (cursor g))))) as Hs.
  change (inject_Z 15) with 15%Q in Hs.
  assert (Hin : in_bounds env (Qfloor (draws g (cursor g) * inject_Z (width env - 8)) + 4)
                  (Qfloor (draws g (S (cursor g)) * inject_Z (height env - 8)) + 4) = true).
  { unfold in_bounds. rewrite !andb_true_iff, !Z.leb_le, !Z.ltb_lt. lia. }
  split; [congruence|]. split; [lia|]. intros _. specialize (Hpos1 ltac:(lia) Hin). lia.
Qed.

Lemma add_water_blobs_count env g env' g' :
  unit_draws g → 9 ≤ width env → 9 ≤ height env →
  add_water_blobs 3 (env, g) = Some (env', g') →
  draws g' = draws g ∧
  (count_water env ≤ count_water env' ≤ count_water env + 87)%nat ∧
  (1 ≤ count_water env')%nat.
Proof.
  intros Hg Hw Hh. unfold add_water_blobs, random_int, random. cbn [fst snd].
  change (3 - 1) with 2.
  pose proof (Qfloor_draw _ 2 (Hg (cursor g))) as Hn.
  intros (Hd & Hc & Hpos)%water_blobs_count; [|done..].
  split; [done|]. split; [|apply Hpos]; lia.
Qed.

Lemma count_water_dry env :
  (∀ x y c, cell_at env x y = Some c → water c = false) → count_water env = 0%nat.
Proof.
  intros Hdry. unfold count_water. fold (cells env).
  assert (Hall : Forall (λ c, water c = false) (cells env)).
  { apply Forall_forall. intros c (x & y & Hc)%elem_of_cells. by eapply Hdry. }
  induction Hall as [|c l Hc _ IH]; [done|]. rewrite filter_cons.
  rewrite decide_False; [done|]. by apply Is_true_false_2.
Qed.

Lemma ignite_random_count_water n env g env' g' :
  env_inv env → ignite_random n (env, g) = Some (env', g') →
  count_water env' = count_water env.
Proof.
  revert env g. induction n as [|n IH]; intros env g Hinv; [by intros [= <- <-]|].
  cbn [ignite_random]. unfold random. cbn [fst snd].
  match goal with |- context [ignite ?x ?y env] =>
    destruct (ignite_inv x y env Hinv) as (env1 & -> & Hinv1 & Hter1) end.
  cbn [mbind option_bind]. intros Hrest%IH; [|done]. rewrite Hrest.
  apply same_terrain_count_water; [apply Hinv|apply Hinv1|done].
Qed.

Lemma new_Environment_rng w h g :
  (new_Environment w h g).2 = mkRng (draws g) (cursor g + Z.to_nat h * Z.to_nat w).
Proof.
  pose proof (new_grid_lookup (Z.to_nat h) (Z.to_nat w) g) as (Hg & _).
  unfold new_Environment. by destruct (new_grid _ _ g).
Qed.

Lemma initSim_count_water g s env :
  unit_draws g → initSim g = Some s → envRef s = Some env →
  (1 ≤ count_water env ≤ 87)%nat.
Proof.
  intros Hg. unfold initSim.
  pose proof (new_Environment_blank 40 20 g) as (Hblank & Hw & Hh).
  pose proof (new_Environment_cells 40 20 g) as Hfresh.
  pose proof (new_Environment_rng 40 20 g) as Hg0.
  destruct (new_Environment 40 20 g) as [env0 g0]. cbn [fst snd] in *.
  assert (Hdraws : unit_draws g0) by (by subst g0).
  destruct (add_water_blobs 3 (env0, g0)) as [[env1 g1]|] eqn:H1; [|done].
  cbn [mbind option_bind].
  destruct (ignite_random 5 (env1, g1)) as [[env2 g2]|] eqn:H2; [|done].
  cbn [mbind option_bind]. intros [= <-]. cbn. intros [= <-].
  destruct (add_water_blobs_blank 3 env0 g0 Hblank) as (e1 & g1' & H1' & Hblank1 & _).
  rewrite H1 in H1'. injection H1' as <- <-.
  rewrite (ignite_random_count_water _ _ _ _ _ (blank_env_inv _ Hblank1) H2).
  apply add_water_blobs_count in H1 as (_ & Hn & Hpos); [|done|lia|lia].
  rewrite (count_water_dry env0) in Hn; [lia|].
  intros x y c [e ->]%Hfresh. done.
Qed.

Lemma ticks_count_water g w pp pg n s env :
  ticks g w pp pg n = Some s → envRef s = Some env →
  ∃ s0 env0, initSim g = Some s0 ∧ envRef s0 = Some env0 ∧
             count_water env = count_water env0.
Proof.
  revert s env. induction n as [|n IH]; intros s env.
  { intros Hs Henv. exists s, env. split; [exact Hs|]. split; [exact Henv|reflexivity]. }
  change (ticks g w pp pg n ≫= step_sim w pp pg = Some s → envRef s = Some env →
          ∃ s0 env0, initSim g = Some s0 ∧ envRef s0 = Some env0 ∧
                     count_water env = count_water env0).
  destruct (ticks g w pp pg n) as [s1|] eqn:Hs1; [|done]. cbn [mbind option_bind].
  intros Hstep Henv.
  pose proof (reachable_sim_inv _ (ticks_reachable _ _ _ _ _ _ Hs1)) as Hinv1.
  destruct (step_sim_total w pp pg s1 Hinv1) as (s' & Hs' & Hinv' & Hter & _).
  rewrite Hstep in Hs'. injection Hs' as <-.
  destruct Hinv1 as (env1 & Henv1 & Hok1 & _). destruct Hinv' as (env' & Henv' & Hok' & _).
  replace env' with env in * by congruence.
  destruct (IH s1 env1 eq_refl Henv1) as (s0 & env0 & Hs0 & Henv0 & Hn).
  exists s0, env0. split; [done|]. split; [done|]. rewrite <- Hn.
  apply same_terrain_count_water; [apply Hok1|apply Hok'|by apply Hter].
Qed.

Lemma ignite_random_fires n env g env' g' :
  unit_draws g → width env = 40 → height env = 20 →
  (∀ x y c, cell_at env x y = Some c → fire c = true → fire_cooldown c = 3) →
  ignite_random n (env, g) = Some (env', g') →
  (∃ l, active_fires env' = active_fires env ++ l ∧ (length l ≤ n)%nat ∧
        Forall (λ xy, 13 ≤ xy.1 ≤ 26 ∧ 6 ≤ xy.2 ≤ 12) l) ∧
  (∀ x y c, cell_at env' x y = Some c → fire c = true → fire_cooldown c = 3).
Proof.
  revert env g. induction n as [|n IH]; intros env g Hg Hw Hh Hnew.
  { intros [= <- <-]. split; [|done]. exists []. by rewrite app_nil_r. }
  cbn [ignite_random]. unfold random. cbn [fst snd draws cursor]. rewrite Hw, Hh.
  assert (H40 : Qfloor (inject_Z 40 / 3) = 13) by reflexivity.
  assert (H20 : Qfloor (inject_Z 20 / 3) = 6) by reflexivity.
  pose proof (Qfloor_share _ (inject_Z 40 / 3) 13 (Hg (cursor g)) ltac:(done) H40) as Hx.
  pose proof (Qfloor_share _ (inject_Z 20 / 3) 6 (Hg (S (cursor g))) ltac:(done) H20) as Hy.
  rewrite H40, H20.
  destruct (ignite _ _ env) as [env1|] eqn:H1; [|done]. cbn [mbind option_bind].
  intros Hrest.
  apply ignite_cases in H1
    as [(-> & _)|(c & _ & Hc & Hi & Hlit & Hother & Haf & Hw1 & Hh1 & _)].
  - apply IH in Hrest as [(l & Hl & Hlen & Hall) Hnew']; [|done..].
    split; [|done]. exists l. split; [done|]. split; [lia|done].
  - apply IH in Hrest as [(l & Hl & Hlen & Hall) Hnew']; [|done|congruence|congruence|].
    + split; [|done]. eexists (_ :: l). rewrite Hl, Haf, <- app_assoc.
      split; [done|]. split; [cbn [length]; lia|]. constructor; [cbn [fst snd]; lia|done].
    + intros a b c1 Hc1 Hf1.
      match type of Hlit with cell_at env1 ?x0 ?y0 = _ =>
        destruct (decide ((a, b) = (x0, y0))) as [Heq|Hne];
          [assert (Ha : a = x0) by congruence; assert (Hb : b = y0) by congruence;
           rewrite Ha, Hb in Hc1|]
      end.
      * rewrite Hlit in Hc1. by injection Hc1 as <-.
      * rewrite Hother in Hc1 by done. by eapply Hnew.
Qed.


(** ** Further properties: what the code does beyond the statements above *)

(** X1. In every state that [initSim] and [step_sim] produce, each cell is in
    one of five phases: forest, burning, burnt out, suppressed by a drone,
    water.  [Cell.display] returns the glyph that the legend of the page
    gives for that phase, and never the blank of its last branch. *)
Theorem display_shows_phase s env x y c :
  reachable s → envRef s = Some env → cell_at env x y = Some c →
  ∃ p, phase_of c = Some p ∧ display c = glyph p ∧ display c ≠ " ".
Proof.
  intros Hs Henv Hc. pose proof (reachable_cells_ok s env Hs Henv x y c Hc) as Hok.
  unfold cell_ok in Hok. destruct (phase_of c) as [p|] eqn:Hp; [|done].
  exists p. split; [done|]. unfold phase_of in Hp. unfold display.
  destruct (tree c), (fire c), (burnt c), (water c), (extinguished_by_drone c);
    try done; injection Hp as <-; by cbn.
Qed.

(** X2. Between ticks, the cooldown of a burning cell is 1, 2 or 3, that of
    a cell that burnt out is 0, 1 or 2, and that of every other cell is 0:
    the test [fire_cooldown > 0] of [spread_fire] holds for every active
    fire, and the test [fire_cooldown === 0] after it holds only when the
    cooldown was 1. *)
Theorem cooldown_fits_phase s env x y c :
  reachable s → envRef s = Some env → cell_at env x y = Some c →
  (fire c = true → 1 ≤ fire_cooldown c ≤ 3) ∧
  (fire c = false → burnt c = true → tree c = true → 0 ≤ fire_cooldown c ≤ 2) ∧
  (fire c = false → burnt c = true → tree c = false → fire_cooldown c = 0) ∧
  (fire c = false → burnt c = false → fire_cooldown c = 0).
Proof.
  intros Hs Henv Hc. pose proof (reachable_cells_ok s env Hs Henv x y c Hc) as Hok.
  unfold cell_ok, phase_of in Hok.
  destruct (tree c), (fire c), (burnt c), (water c), (extinguished_by_drone c);
    try done; repeat split; intros; try done; lia.
Qed.

(** X3. Over a tick of [step_sim], a cell keeps its elevation and moves
    through the phases in one direction only: forest may start to burn, a
    burning cell may burn out or be suppressed, and a cell that burnt out,
    was suppressed or is water stays as it is. *)
Theorem phases_go_one_way w pp pg s s' env env' x y c :
  reachable s → step_sim w pp pg s = Some s' →
  envRef s = Some env → envRef s' = Some env' → cell_at env x y = Some c →
  ∃ c' p p',
    cell_at env' x y = Some c' ∧ elevation c' = elevation c ∧
    phase_of c = Some p ∧ phase_of c' = Some p' ∧ phase_step p p' = true.
Proof.
  intros Hs Hrun Henv Henv' Hc.
  destruct (step_sim_grows w pp pg s s' env env' (reachable_sim_inv s Hs) Henv
              (reachable_cells_ok s env Hs Henv) Hrun Henv') as [(_ & _ & Hg) _].
  destruct (Hg x y c Hc) as (c' & Hc' & _ & Hel & p & p' & Hp & Hp' & Hstep).
  by exists c', p, p'.
Qed.

(** X4. One pass of [spread_fire] over an environment whose Active Fire Set
    lists the burning cells returns, keeps the dimensions and the wind, and
    treats every cell in one of four ways.  A burning cell burns out ([fire]
    cleared, [burnt] set, [extinguished_by_drone] cleared) or burns on, with
    cooldown 2 if the decremented cooldown was 0 and the decremented cooldown
    otherwise.  A cell that does not burn is left as it is, or, if it is
    ignitable and touches a burning cell whose cooldown was at most 1, it is
    set on fire with cooldown 2. *)
Theorem spread_fire_cell_by_cell env g :
  env_inv env →
  ∃ env' g',
    spread_fire env g = Some (env', g') ∧
    width env' = width env ∧ height env' = height env ∧ wind env' = wind env ∧
    ∀ x y c, cell_at env x y = Some c →
      ∃ c', cell_at env' x y = Some c' ∧
        if fire c then c' = burnt_out c ∨ c' = kept_burning c
        else c' = c ∨
             (ignitable c = true ∧ c' = lit 2 c ∧
              ∃ src, adjacent (x, y) src ∧ hot env src).
Proof.
  intros Hinv.
  destruct (spread_fire_inv env g Hinv) as (env' & g' & Hrun & _ & Hw & Hh & Hwind & _).
  exists env', g'. split; [done|]. split; [done|]. split; [done|]. split; [done|].
  intros x y c Hc.
  destruct (spread_fire_cells env g env' g') with (x := x) (y := y) (c := c)
    as (c' & Hc' & Hout); [apply Hinv|done|done|].
  by exists c'.
Qed.

(** X5. Fire travels at most one cell per pass of [spread_fire]: a cell that
    burns after the pass burnt before it, or was ignitable and touches a
    cell that burnt before the pass with a cooldown of at most 1. *)
Theorem fire_spreads_to_neighbours env g env' g' x y :
  env_inv env → spread_fire env g = Some (env', g') →
  burning_at env' (x, y) = true →
  burning_at env (x, y) = true ∨
  ∃ c src, cell_at env x y = Some c ∧ ignitable c = true ∧
           adjacent (x, y) src ∧ hot env src.
Proof.
  intros Hinv Hrun (c' & Hc' & Hf')%burning_at_Some. cbn in Hc'.
  destruct (spread_fire_inv env g Hinv) as (env1 & g1 & Hrun1 & _ & _ & _ & _ & Hter).
  rewrite Hrun in Hrun1. injection Hrun1 as <- <-.
  specialize (Hter x y). rewrite Hc' in Hter.
  destruct (cell_at env x y) as [c|] eqn:Hc; [|done].
  destruct (spread_fire_cells env g env' g') with (x := x) (y := y) (c := c)
    as (c1 & Hc1 & Hout); [apply Hinv|done|done|].
  assert (c1 = c') as -> by congruence. unfold spread_outcome in Hout.
  destruct (fire c) eqn:Hf.
  - left. apply burning_at_Some. by exists c.
  - destruct Hout as [->|(Hi & _ & src & Hadj & Hhot)]; [congruence|].
    right. by exists c, src.
Qed.

(** X6. The statistics of the page in every state that [initSim] and
    [step_sim] produce: "burnt" equals "extinguished", because [count_trees]
    counts a cell as burnt only if its [tree] flag is cleared, which only
    [extinguish_fire_at] does; a cell that burnt out by itself is counted
    as saved.  "saved" plus "burnt" plus the number of water cells is the
    number of cells of the 40 x 20 grid, and "fires" is the number of
    burning cells. *)
Theorem stats_of_a_run s :
  reachable s →
  ∃ env st,
    envRef s = Some env ∧ shown_stats s = Some st ∧
    stats_burnt st = stats_extinguished st ∧
    stats_saved st + stats_burnt st + Z.of_nat (count_water env) = 800 ∧
    stats_fires st = Z.of_nat (count_burning env) ∧
    0 ≤ stats_burnt st.
Proof.
  intros Hs. pose proof (reachable_sim_inv s Hs) as (env & Henv & Hinv & Hw & Hh & _).
  destruct (reachable_tally s Hs) as (env0 & t & Henv0 & Ht & Hok & Hpos & Hcount & _).
  assert (env0 = env) as -> by congruence.
  exists env, (updateStats env (totalExtinguishedRef s) t).
  split; [done|]. split; [unfold shown_stats; by rewrite Henv, Ht|].
  unfold updateStats. pose proof (count_trees_cells env) as Hcells.
  destruct (count_trees env) as [saved burnt_n] eqn:Hct. cbn in Hcount |- *.
  split; [done|]. split; [|split; [|lia]].
  - injection Hcells as -> ->.
    pose proof (phases_partition (cells env) (cells_ok_Forall env Hok)) as Hpart.
    pose proof (length_cells env (proj1 Hinv)) as Hlen. rewrite Hw, Hh in Hlen.
    unfold count_water. fold (cells env). lia.
  - f_equal. apply active_fires_count; apply Hinv.
Qed.

(** X7. What the suppression pass of [step] does to the environment.  The
    returned count is the number of calls of [extinguish_fire_at] that
    returned [true]; their targets are distinct cells that burnt when the
    step began, each the cell of the calling drone or one that touches it.
    These cells get [fire] and [tree] cleared, [burnt] and
    [extinguished_by_drone] set and cooldown 0; every other cell is as
    before.  The Active Fire Set loses exactly these entries and keeps its
    order, and the number of burning cells drops by the returned count. *)
Theorem step_puts_out_what_it_counts env sw t g r :
  env_inv env → step env sw t g = Some r →
  st_extinguished r = Z.of_nat (length (quenched (st_calls r))) ∧
  NoDup (quenched (st_calls r)) ∧
  Forall call_near (st_calls r) ∧
  (∀ xy, xy ∈ quenched (st_calls r) → burning_at env xy = true) ∧
  (∀ x y, cell_at (st_env r) x y =
          if decide ((x, y) ∈ quenched (st_calls r))
          then suppressed <$> cell_at env x y else cell_at env x y) ∧
  active_fires (st_env r)
    = filter (λ xy, xy ∉ quenched (st_calls r)) (active_fires env) ∧
  Z.of_nat (count_burning (st_env r))
    = Z.of_nat (count_burning env) - st_extinguished r.
Proof.
  intros Hinv Hrun. pose proof (step_calls_near _ _ _ _ _ Hrun) as Hnear.
  destruct (step_quench _ _ _ _ _ Hrun)
    as [(Hn & Hnd & Hburn & Hcells & Hfires & _) _].
  rewrite Forall_forall in Hburn.
  split; [done|]. split; [done|]. split; [done|]. split; [done|].
  split; [done|]. split; [done|].
  assert (Hinv' : env_inv (st_env r)).
  { apply step_swarm in Hrun as (_ & _ & _ & _ & (_ & _ & Hkeep & _) & _).
    by apply Hkeep. }
  rewrite <- !active_fires_count by (apply Hinv || apply Hinv').
  rewrite Hfires, Hn.
  pose proof (length_filter_remove (active_fires env) (quenched (st_calls r))) as Hlen.
  destruct Hinv as (_ & [Hnd0 Hin0] & _).
  specialize (Hlen Hnd0 Hnd). rewrite <- Hlen; [lia|].
  intros xy Hxy. by apply Hin0, Hburn.
Qed.

(** X8. What the suppression pass of [step] does to the clock: every call of
    [extinguish_fire_at] that returns [true] adds [EXTINGUISH_TIME] plus the
    travel time [Math.sqrt(d) * CELL_SIZE / DRONE_SPEED], where [d], the
    squared distance in cells between the target and the requester, is 0, 1
    or 2; a call that returns [false] adds nothing.  A step that is given no
    clock returns none. *)
Theorem step_charges_the_clock env sw t g r :
  step env sw t g = Some r →
  match t with
  | Some t0 => ∃ t', st_time r = Some t' ∧ (t' == t0 + charged (st_calls r))%Q
  | None => st_time r = None
  end ∧
  Forall (λ c, 0 ≤ call_sq_dist c ≤ 2 ∧
               (call_cost c ==
                  if call_result c
                  then Math_sqrt (inject_Z (call_sq_dist c)) * CELL_SIZE / DRONE_SPEED
                       + EXTINGUISH_TIME
                  else 0)%Q)
         (st_calls r).
Proof.
  intros Hrun. destruct (step_quench _ _ _ _ _ Hrun) as [_ Hclock]. split.
  - unfold clock_inv in Hclock. destruct t as [t0|], (st_time r) as [t'|]; try done.
    by exists t'.
  - eapply Forall_impl; [by eapply step_calls_near|]. intros c [Hx Hy]. split.
    + unfold call_sq_dist. cbv zeta.
      set (dx := (call_target c).1 - (call_drone_pos c).1) in *.
      set (dy := (call_target c).2 - (call_drone_pos c).2) in *. clearbody dx dy.
      assert (dx = -1 ∨ dx = 0 ∨ dx = 1) as [->|[->| ->]] by lia;
        assert (dy = -1 ∨ dy = 0 ∨ dy = 1) as [->|[->| ->]] by lia; lia.
    + unfold call_cost, call_sq_dist, travel_time. by destruct (call_result c).
Qed.

(** X9. A tick in which nothing burns and that is not due for a spontaneous
    ignition (its index is no multiple of 15) leaves the environment, the
    total of extinguished fires and the clock as they are; only the tick
    index and the swarm change. *)
Theorem quiet_tick w pp pg s s' env :
  reachable s → envRef s = Some env → active_fires env = [] →
  Z.rem (stepCountRef s) 15 ≠ 0 →
  step_sim w pp pg s = Some s' →
  envRef s' = Some env ∧
  totalExtinguishedRef s' = totalExtinguishedRef s ∧
  simTimeRef s' = simTimeRef s ∧
  stepCountRef s' = stepCountRef s + 1.
Proof.
  intros Hs Henv Hnone Hrem Hrun. pose proof (reachable_sim_inv s Hs) as Hinv.
  destruct (reachable_tally s Hs) as (env0 & t & Henv0 & Ht & _ & _ & _ & Hzero).
  destruct (step_sim_stages_inv w pp pg s s' env Hinv Henv Hrun)
    as (env1 & g1 & sim & time & g2 & env2 & sim2 & time2 & total2 & g3 & env3 & g4
        & H1 & H2 & H3 & H4 & -> & Hi & _).
  rewrite spread_fire_quiet in H1 by done. injection H1 as <- <-.
  assert (Htime : time = simTimeRef s).
  { apply deploy_cases in H2 as [(Hten & -> & _)|(_ & _ & -> & _)]; [|done].
    rewrite Ht, Hzero; [done|lia]. }
  assert (H23 : env2 = env ∧ time2 = time ∧ total2 = totalExtinguishedRef s).
  { unfold swarm_tick in H3. destruct sim as [swarm|].
    - destruct (step _ _ _ _) as [r|] eqn:Hr; [|done]. cbn in H3.
      injection H3 as <- _ <- <- _.
      destruct (step_quiet _ _ _ _ _ Hi Hnone Hr) as (-> & -> & ->).
      split; [done|]. split; [done|]. lia.
    - by injection H3 as <- _ <- <- _. }
  destruct H23 as (-> & -> & ->).
  unfold random_ignition in H4. apply Z.eqb_neq in Hrem. rewrite Hrem in H4.
  injection H4 as <- _. cbn. by rewrite Htime.
Qed.

(** X10. What [fitness] returns for a position whose floor is the cell
    [(x, y)] of a grid of [height] rows of [width] cells.  Outside the grid
    it is 1e6.  On a burning cell it is -100 plus the least distance to a
    cell marked 3 (water that neither burns nor is burnt), which is
    [Infinity] when there is no such cell.  On a burnt cell it is 1000, on
    a water cell -10.  On any other cell it is the least distance to a
    burning cell, and 100 when nothing burns.  Distances are
    [Math.sqrt] of the squared distance between the cells. *)
Theorem fitness_by_cell env px py :
  grid_ok env →
  let x := Qfloor px in
  let y := Qfloor py in
  if out_of_bounds env x y then fitness env (px, py) = Some (Fin 1000000)
  else
    ∃ c f, cell_at env x y = Some c ∧ fitness env (px, py) = Some f ∧
      if fire c then ∃ d, nearest env 3 x y d ∧ f = num_add (Fin (-100)) d
      else if burnt c then f = Fin 1000
      else if water c then f = Fin (-10)
      else ∃ d, nearest env 5 x y d ∧
                f = match d with Infinity => Fin 100 | Fin q => Fin q end.
Proof.
  intros Hok x y. unfold fitness. fold x y.
  destruct (out_of_bounds env x y) eqn:Hoob; [done|].
  destruct (get_attraction_matrix_total env Hok) as (m & Hm & _). rewrite Hm.
  cbn [mbind option_bind].
  destruct (get_attraction_matrix_lookup env m Hm) as (_ & _ & Hlook).
  destruct (Hlook x y (out_of_bounds_in_bounds _ _ _ Hoob)) as (c & Hc & Hv).
  rewrite Hv. cbn [mbind option_bind]. exists c.
  destruct (min_dist_nearest env m 3 x y Hok Hm) as [Hwater _].
  destruct (min_dist_nearest env m 5 x y Hok Hm) as [Hfire Hnone].
  unfold attraction. destruct (fire c).
  { eexists. split; [done|]. split; [reflexivity|]. by eexists. }
  destruct (burnt c).
  { eexists. split; [done|]. split; [reflexivity|]. done. }
  destruct (water c).
  { eexists. split; [done|]. split; [reflexivity|]. done. }
  cbn. eexists. split; [done|]. split; [reflexivity|].
  exists (min_dist x y (positions_with 5 m)). split; [done|].
  destruct (positions_with 5 m) as [|p l] eqn:Hps.
  - by rewrite (proj2 Hnone eq_refl).
  - destruct (min_dist x y (p :: l)) eqn:Hd; [done|].
    by pose proof (proj1 Hnone eq_refl).
Qed.

(** X11. The first loop of [step] moves every drone by the update rule of
    the swarm, with the personal best, the global best and the parameters
    that the swarm had when the step began: the global best that one drone
    finds in a step does not steer the others before the next step.  Drone
    [i] uses the draws [2 i] and [2 i + 1] after the generator's position,
    the same pair for both axes, and the step consumes two draws per drone.
    The new position is the old one plus the new velocity, clamped to
    [[0, width - 1] x [0, height - 1]]; the velocity is not clamped. *)
Theorem step_moves_every_drone env sw t g r :
  step env sw t g = Some r →
  st_rng r = mkRng (draws g) (cursor g + 2 * num_drones sw) ∧
  ∀ i, (i < num_drones sw)%nat →
    ∃ v pb p,
      velocities sw !! i = Some v ∧ pbest_positions sw !! i = Some pb ∧
      positions sw !! i = Some p ∧
      let v' := new_velocity sw (draws g (cursor g + 2 * i)%nat)
                             (draws g (cursor g + 2 * i + 1)%nat) v pb p in
      velocities (st_swarm r) !! i = Some v' ∧
      positions (st_swarm r) !! i = Some (new_position env p v').
Proof.
  intros (sw1 & sw2 & Hmove & Heval & Hfl)%step_stages.
  destruct Hmove as (_ & Hg & _ & Hdone). cbn [fst snd] in *.
  destruct Heval as ((_ & Hp2 & Hv2 & _) & _).
  destruct Hfl as (_ & Hp3 & Hv3 & _).
  split; [done|]. intros i Hi.
  destruct (Hdone i Hi) as (v & pb & p & Hv & Hpb & Hp & Hv' & Hp').
  exists v, pb, p. rewrite Hp3, Hv3, Hp2, Hv2. done.
Qed.

(** X12. The second loop of [step] evaluates [fitness] at the new position
    of every drone, on the environment as it is before the suppression pass
    of the same step.  The personal best of the drone becomes that value and
    that position if the value is strictly below the old personal best, and
    stays as it was otherwise. *)
Theorem step_updates_personal_bests env sw t g r :
  step env sw t g = Some r →
  ∀ i, (i < num_drones sw)%nat →
    ∃ p f pbv pb,
      positions (st_swarm r) !! i = Some p ∧ fitness env p = Some f ∧
      pbest_values sw !! i = Some pbv ∧ pbest_positions sw !! i = Some pb ∧
      pbest_values (st_swarm r) !! i = Some (if num_ltb f pbv then f else pbv) ∧
      pbest_positions (st_swarm r) !! i = Some (if num_ltb f pbv then p else pb).
Proof.
  intros (sw1 & sw2 & Hmove & Heval & Hfl)%step_stages i Hi.
  destruct Hmove as ((_ & Hpp & Hpv & _) & _ & _ & Hmoved). cbn [fst] in *.
  destruct Heval as ((_ & Hp2 & _) & _ & Hdone & _).
  destruct Hfl as (_ & Hp3 & _ & Hpp3 & Hpv3 & _).
  destruct (Hmoved i Hi) as (_ & pb & _ & _ & Hpb & _).
  destruct (Hdone i Hi) as (p & f & pbv & Hp & Hf & Hpbv & Hv' & Hp').
  exists p, f, pbv, pb. rewrite Hp3, Hpp3, Hpv3, Hp2, <- Hpv.
  split; [done|]. split; [done|]. split; [done|]. split; [done|]. split; [done|].
  rewrite Hp', Hpp. destruct (num_ltb f pbv); [|done].
  apply list_lookup_insert_eq. by eapply lookup_lt_Some.
Qed.

(** X13. The swarm of the component.  [simRef] is null exactly while the
    tick index is at most 10: the swarm is built in the tick that starts
    with index 10 and is stepped in that same tick.  From then on it has 20
    drones and arrays of 20 entries, its global best value is the least of
    the personal best values, and its global best position is the personal
    best position of a drone whose personal best value is the global
    best. *)
Theorem swarm_of_a_run s :
  reachable s →
  (simRef s = None ↔ stepCountRef s ≤ 10) ∧
  ∀ sw, simRef s = Some sw →
    num_drones sw = 20%nat ∧ length (positions sw) = 20%nat ∧
    length (velocities sw) = 20%nat ∧ length (pbest_values sw) = 20%nat ∧
    length (water_left sw) = 20%nat ∧
    (∀ i v, pbest_values sw !! i = Some v → num_ltb v (gbest_value sw) = false) ∧
    ∃ i, pbest_values sw !! i = Some (gbest_value sw) ∧
         pbest_positions sw !! i = Some (gbest_position sw).
Proof.
  intros Hs. pose proof (reachable_sim_inv s Hs) as (env & _ & _ & _ & _ & Hnone & Hsw).
  split; [done|]. intros sw Hsim. rewrite Hsim in Hsw.
  destruct Hsw as ((Hl1 & Hl2 & _ & Hl4 & Hl5 & _) & _).
  destruct (reachable_fleet s Hs sw Hsim) as [Hn [Hall Hex]].
  rewrite Hn in *. done.
Qed.


(** X15. The constructor of [DroneSwarm] on a grid of [height] rows of
    [width] cells.  It returns exactly when [num_drones] is positive: for no
    drone, [indexOf] yields -1 and spreading [pbest_positions[-1]] throws.
    It consumes four draws per drone: drone [i] gets its position from the
    draws [2 i] and [2 i + 1], scaled by [width - 1] and [height - 1], and
    its velocity from the draws [2 n + 2 i] and [2 n + 2 i + 1], mapped to
    [[-1.5, 1.5)].  The personal bests are the positions and their fitness;
    the global best is that of the first drone of least fitness; every tank
    is full and every timer 0. *)
Theorem new_DroneSwarm_builds env n g :
  grid_ok env →
  (is_Some (new_DroneSwarm env n g) ↔ (0 < n)%nat) ∧
  ∀ sw g', new_DroneSwarm env n g = Some (sw, g') →
    g' = mkRng (draws g) (cursor g + 4 * n) ∧
    num_drones sw = n ∧
    (∀ i, (i < n)%nat →
       positions sw !! i
       = Some (draws g (cursor g + 2 * i)%nat * inject_Z (width env - 1),
               draws g (cursor g + 2 * i + 1)%nat * inject_Z (height env - 1))%Q ∧
       velocities sw !! i
       = Some ((draws g (cursor g + 2 * n + 2 * i)%nat - 0.5) * 3,
               (draws g (cursor g + 2 * n + 2 * i + 1)%nat - 0.5) * 3)%Q) ∧
    pbest_positions sw = positions sw ∧
    mapM (fitness env) (positions sw) = Some (pbest_values sw) ∧
    (∀ i v, pbest_values sw !! i = Some v → num_ltb v (gbest_value sw) = false) ∧
    (∃ i, positions sw !! i = Some (gbest_position sw) ∧
          pbest_values sw !! i = Some (gbest_value sw) ∧
          ∀ j v, (j < i)%nat → pbest_values sw !! j = Some v →
                 num_ltb (gbest_value sw) v = true) ∧
    water_left sw = replicate n MAX_WATER_CAPACITY ∧
    refill_timers sw = replicate n 0 ∧
    (omega sw, phi_p sw, phi_g sw) = (0.7, 1.5, 1.5)%Q.
Proof.
  intros Hok. split.
  - split.
    + destruct n as [|n]; [|lia]. intros [[sw g'] Hrun]. by cbn in Hrun.
    + intros Hn. destruct (new_DroneSwarm_total env n g Hok Hn) as (sw & g' & -> & _).
      by eexists.
  - intros sw g' Hrun.
    destruct (new_DroneSwarm_effect env n g sw g' Hrun)
      as (Hg & Hn & Hpos & Hpb & Hval & [Hall _] & Hfirst & Hw & Ht & Hpar).
    done.
Qed.

(** X16. The constructor of [Environment] fills the grid row by row with
    one draw per cell: the cell [(x, y)] is a forest cell whose elevation is
    100 times the draw [y * width + x] after the generator's position.
    Nothing burns, the wind is [[1, 0]], and reading outside the grid yields
    nothing.  A width or height that is not positive gives an empty grid. *)
Theorem new_Environment_layout w h g :
  let env := (new_Environment w h g).1 in
  width env = w ∧ height env = h ∧ wind env = (1, 0) ∧ active_fires env = [] ∧
  grid_ok env ∧
  (new_Environment w h g).2
    = mkRng (draws g) (cursor g + Z.to_nat h * Z.to_nat w) ∧
  ∀ x y,
    cell_at env x y =
      if in_bounds env x y
      then Some (new_Cell
                   (draws g (cursor g + Z.to_nat y * Z.to_nat w + Z.to_nat x)%nat * 100))
      else None.
Proof.
  pose proof (new_Environment_blank w h g) as ((Hok & Haf & _) & Hw & Hh).
  pose proof (new_grid_lookup (Z.to_nat h) (Z.to_nat w) g) as (Hg & _ & Hlook).
  cbv zeta. split; [done|]. split; [done|].
  unfold new_Environment in *. destruct (new_grid _ _ g) as [rows g1].
  cbn [fst snd] in *. split; [done|]. split; [done|]. split; [done|]. split; [done|].
  intros x y. destruct (in_bounds _ x y) eqn:Hb.
  - destruct_bounds Hb. cbn in *. unfold cell_at. cbn [grid].
    replace (0 <=? x) with true by (symmetry; apply Z.leb_le; lia).
    replace (0 <=? y) with true by (symmetry; apply Z.leb_le; lia).
    cbn [andb]. apply Hlook; lia.
  - destruct (cell_at _ x y) as [c|] eqn:Hc; [|done].
    apply cell_at_Some_in_bounds in Hc; [congruence|done].
Qed.

(** X17. [ignite] is idempotent.  It changes no cell but [(x, y)], and the
    Active Fire Set is as before or has [(x, y)] appended; a second call
    with the same coordinates changes nothing. *)
Theorem ignite_twice x y env env' :
  ignite x y env = Some env' →
  ignite x y env' = Some env' ∧
  (∀ a b, (a, b) ≠ (x, y) → cell_at env' a b = cell_at env a b) ∧
  (active_fires env' = active_fires env ∨
   active_fires env' = active_fires env ++ [(x, y)] ∧
   ∃ c, cell_at env x y = Some c ∧ ignitable c = true ∧
        cell_at env' x y = Some (lit 3 c)).
Proof.
  intros Hrun. pose proof Hrun as Hrun'.
  apply ignite_cases in Hrun
    as [(-> & _)|(c & Hb & Hc & Hi & Hlit & Hother & Haf & Hw & Hh & _)].
  { split; [done|]. split; [done|]. by left. }
  split; [|split; [done|]].
  - unfold ignite. unfold in_bounds in *. rewrite Hw, Hh, Hb, Hlit.
    cbn [mbind option_bind]. by rewrite ignitable_lit.
  - right. split; [done|]. by exists c.
Qed.

(** X18. A cell that [extinguish_fire_at] has put out is settled: a second
    call on it returns [false] and changes nothing, and [ignite] does not
    light it again.  The clock is advanced only when both a requester and a
    clock are passed. *)
Theorem extinguished_is_settled x y p t env env' t' :
  extinguish_fire_at x y p t env = Some (true, env', t') →
  (∀ p2 t2, extinguish_fire_at x y p2 t2 env' = Some (false, env', t2)) ∧
  ignite x y env' = Some env' ∧
  (p = None ∨ t = None → t' = t).
Proof.
  intros [(? & _)|(_ & c & Hb & Hc & Hf & Ht & Hw & Hh & _ & Hcell & _)]%extinguish_fire_at_cases;
    [done|].
  assert (Hb' : in_bounds env' x y = true) by (unfold in_bounds in *; by rewrite Hw, Hh).
  split; [|split].
  - intros p2 t2. apply extinguish_fire_at_idle. right. by eexists.
  - unfold ignite. rewrite Hb', Hcell. done.
  - intros [-> | ->]; rewrite Ht; [by destruct t|done].
Qed.

(** X19. The probability that [spread_fire] compares the draw with lies in
    [[0.005, 0.4]] whatever the elevations, grows with the elevation of the
    neighbour, and is not below what it would be without the wind bonus. *)
Theorem ignition_probability_bounds env cell ncell dx dy :
  (0.005 <= ignition_probability env cell ncell dx dy <= 0.4)%Q ∧
  (∀ ncell', (elevation ncell <= elevation ncell')%Q →
     (ignition_probability env cell ncell dx dy
      <= ignition_probability env cell ncell' dx dy)%Q) ∧
  (Qmin (Qmax (0.05 + (elevation ncell - elevation cell) * 0.003) 0.005) 0.4
   <= ignition_probability env cell ncell dx dy)%Q.
Proof.
  unfold ignition_probability. cbv zeta. split; [split|split].
  - apply Q.min_glb; [apply Q.le_max_r|done].
  - apply Q.le_min_r.
  - intros ncell' Hle. apply Q.min_le_compat_r, Q.max_le_compat_r.
    destruct ((dx =? (wind env).1) && (dy =? (wind env).2)); lra.
  - apply Q.min_le_compat_r, Q.max_le_compat_r.
    destruct ((dx =? (wind env).1) && (dy =? (wind env).2)); lra.
Qed.

(** X20. The "Efficiency" of the page lies between 0 and 100 for every
    environment: [count_trees] returns two counts of disjoint sets of cells,
    neither negative and together at most the number of cells.  The value is
    0 when no cell is counted and 100 when no cell is counted as burnt. *)
Theorem efficiency_range env extCount elapsed :
  let st := updateStats env extCount elapsed in
  0 ≤ stats_saved st ∧ 0 ≤ stats_burnt st ∧
  stats_saved st + stats_burnt st ≤ Z.of_nat (length (cells env)) ∧
  (0 <= efficiency st <= 100)%Q ∧
  (stats_saved st + stats_burnt st = 0 → efficiency st = 0%Q) ∧
  (0 < stats_saved st → stats_burnt st = 0 → (efficiency st == 100)%Q).
Proof.
  cbv zeta. unfold updateStats, efficiency. rewrite count_trees_cells.
  cbn [stats_saved stats_burnt].
  set (a := length (filter (λ c, tree c = true) (cells env))).
  set (b := length (filter (λ c, tree c = false ∧ burnt c = true) (cells env))).
  assert (Hsum : (a + b ≤ length (cells env))%nat).
  { subst a b. induction (cells env) as [|c l IH]; [done|].
    rewrite !filter_cons. cbn [length].
    repeat case_decide; cbn [length]; try lia. exfalso. intuition congruence. }
  split; [lia|]. split; [lia|]. split; [lia|].
  destruct (Z.ltb_spec 0 (Z.of_nat a + Z.of_nat b)) as [Hpos|Hzero].
  - assert (Hq : (0 < inject_Z (Z.of_nat a + Z.of_nat b))%Q).
    { change 0%Q with (inject_Z 0). rewrite <- Zlt_Qlt. lia. }
    assert (Ha : (0 <= inject_Z (Z.of_nat a))%Q).
    { change 0%Q with (inject_Z 0). rewrite <- Zle_Qle. lia. }
    assert (Hab : (inject_Z (Z.of_nat a) <= inject_Z (Z.of_nat a + Z.of_nat b))%Q).
    { rewrite <- Zle_Qle. lia. }
    split; [split|split].
    + apply Qmult_le_0_compat; [|done]. apply Qle_shift_div_l; [done|].
      by rewrite Qmult_0_l.
    + apply (Qle_trans _ (1 * 100)); [|by vm_compute].
      apply Qmult_le_compat_r; [|done]. apply Qle_shift_div_r; [done|].
      by rewrite Qmult_1_l.
    + lia.
    + intros _ Hb. rewrite Hb, Z.add_0_r. field.
      intros H0. rewrite Hb, Z.add_0_r, H0 in Hq. by apply Qlt_irrefl in Hq.
  - split; [done|]. split; [done|]. lia.
Qed.

(** X21. On a grid of [height] rows of [width] cells the attraction matrix
    is returned, with one row per row of the grid and one entry per cell.
    The entry of a cell is 5 exactly if the cell burns, 4 exactly if it is
    burnt and does not burn, 3 exactly if it is water and neither burns nor
    is burnt, and 0 otherwise. *)
Theorem attraction_matrix_marks env :
  grid_ok env →
  ∃ m, get_attraction_matrix env = Some m ∧
       length m = Z.to_nat (height env) ∧
       Forall (λ row, length row = Z.to_nat (width env)) m ∧
       ∀ x y c, cell_at env x y = Some c →
         ∃ v, m !! Z.to_nat y ≫= (λ row, row !! Z.to_nat x) = Some v ∧
              (v = 5 ↔ fire c = true) ∧
              (v = 4 ↔ fire c = false ∧ burnt c = true) ∧
              (v = 3 ↔ fire c = false ∧ burnt c = false ∧ water c = true) ∧
              (v = 0 ↔ fire c = false ∧ burnt c = false ∧ water c = false).
Proof.
  intros Hok. destruct (get_attraction_matrix_total env Hok) as (m & Hm & _).
  exists m. split; [done|].
  destruct (get_attraction_matrix_lookup env m Hm) as (Hlen & Hrows & Hlook).
  split; [done|]. split; [done|]. intros x y c Hc.
  destruct (Hlook x y) as (c' & Hc' & ->); [by eapply cell_at_Some_in_bounds|].
  replace c' with c by congruence. exists (attraction c). split; [done|].
  unfold attraction. destruct (fire c), (burnt c), (water c); intuition congruence.
Qed.

(** X22. In one tick of [step_sim], fire reaches only the cells next to it:
    a cell that burns after the tick burnt before it, or was ignitable and
    touches a cell that burnt with a cooldown of at most 1, or was ignitable
    and the tick is one of those (every 15th) that may light a random
    cell. *)
Theorem tick_lights_neighbours w pp pg s s' env env' x y :
  reachable s → step_sim w pp pg s = Some s' →
  envRef s = Some env → envRef s' = Some env' →
  burning_at env' (x, y) = true →
  burning_at env (x, y) = true ∨
  ∃ c, cell_at env x y = Some c ∧ ignitable c = true ∧
       ((∃ src, adjacent (x, y) src ∧ hot env src) ∨
        Z.rem (stepCountRef s) 15 = 0).
Proof.
  intros Hs Hstep Henv Henv' (c3 & Hc3 & Hf3)%burning_at_Some. cbn in Hc3.
  pose proof (reachable_sim_inv s Hs) as (env0 & Henv0 & Hinv & _).
  replace env0 with env in * by congruence. clear Henv0.
  destruct (step_sim_stages w pp pg s env s' Henv Hstep)
    as (env1 & g1 & sim & time & g2 & env2 & sim2 & time2 & total2 & g3 & env3 & g4
        & H1 & H2 & H3 & H4 & ->).
  cbn in Henv'. injection Henv' as ->.
  destruct (spread_fire_inv env (sim_rng s) Hinv)
    as (env1' & g1' & Hrun1 & _ & _ & _ & _ & Hter).
  rewrite H1 in Hrun1. injection Hrun1 as <- <-.
  assert (Hcell2 : ∀ c2, cell_at env2 x y = Some c2 →
            (fire c2 = true ∨ ignitable c2 = true) →
            ∃ c, cell_at env x y = Some c ∧ cell_at env1 x y = Some c2 ∧
                    spread_outcome env (x, y) c c2).
  { intros c2 Hc2 Hlive. unfold swarm_tick in H3. destruct sim as [swarm|].
    - destruct (step env1 _ time g2) as [r|] eqn:Hr; [|done]. cbn in H3.
      injection H3 as <- _ _ _ _.
      destruct (step_quench _ _ _ _ _ Hr) as [(_ & _ & _ & Hcells & _) _].
      rewrite Hcells in Hc2. specialize (Hter x y).
      destruct (cell_at env x y) as [c|] eqn:Hc.
      2:{ destruct (cell_at env1 x y); [done|]. by case_decide. }
      destruct (spread_fire_cells env (sim_rng s) env1 g1) with (x := x) (y := y) (c := c)
        as (c1 & Hc1 & Hout); [apply Hinv|done|done|].
      rewrite Hc1 in Hc2. case_decide.
      + injection Hc2 as <-. by destruct Hlive.
      + injection Hc2 as <-. by exists c.
    - injection H3 as <- _ _ _ _. specialize (Hter x y).
      destruct (cell_at env x y) as [c|] eqn:Hc.
      2:{ by rewrite Hc2 in Hter. }
      destruct (spread_fire_cells env (sim_rng s) env1 g1) with (x := x) (y := y) (c := c)
        as (c1 & Hc1 & Hout); [apply Hinv|done|done|].
      exists c. replace c2 with c1 by congruence. done. }
  assert (Hburn2 : burning_at env2 (x, y) = true →
            burning_at env (x, y) = true ∨
            ∃ c, cell_at env x y = Some c ∧ ignitable c = true ∧
                 ((∃ src, adjacent (x, y) src ∧ hot env src) ∨
                  Z.rem (stepCountRef s) 15 = 0)).
  { intros (c2 & Hc2 & Hf2)%burning_at_Some. cbn in Hc2.
    destruct (Hcell2 c2 Hc2) as (c & Hc & _ & Hout); [by left|].
    unfold spread_outcome in Hout. destruct (fire c) eqn:Hf.
    - left. apply burning_at_Some. by exists c.
    - destruct Hout as [->|(Hi & _ & src & Hadj & Hhot)]; [congruence|].
      right. exists c. split; [done|]. split; [done|]. left. by exists src. }
  unfold random_ignition in H4.
  destruct (Z.rem (stepCountRef s) 15 =? 0) eqn:Hrem.
  2:{ injection H4 as <- _. apply Hburn2, burning_at_Some. by exists c3. }
  apply Z.eqb_eq in Hrem. destruct (random g3) as [r g5].
  destruct (Qltb r 0.3).
  2:{ injection H4 as <- _. apply Hburn2, burning_at_Some. by exists c3. }
  destruct (random_int _ 0 g5) as [x0 g6]. destruct (random_int _ 0 g6) as [y0 g7].
  destruct (ignite x0 y0 env2) as [env4|] eqn:Hig; [|done]. cbn in H4.
  injection H4 as <- _.
  apply ignite_cases in Hig as [(-> & _)|(c2 & _ & Hc2 & Hi2 & Hlit & Hother & _)].
  { apply Hburn2, burning_at_Some. by exists c3. }
  destruct (decide ((x, y) = (x0, y0))) as [[= <- <-]|Hne].
  - destruct (Hcell2 c2 Hc2) as (c & Hc & _ & Hout); [by right|].
    unfold spread_outcome in Hout. destruct (fire c) eqn:Hf.
    + destruct Hout as [-> | ->]; unfold ignitable in Hi2; cbn in Hi2;
        rewrite ?Hf in Hi2; destruct (tree c); cbn in Hi2; done.
    + destruct Hout as [->|(_ & -> & _)].
      * right. exists c. split; [done|]. split; [done|]. by right.
      * by rewrite ignitable_lit in Hi2.
  - rewrite Hother in Hc3 by done. apply Hburn2, burning_at_Some. by exists c3.
Qed.

(** X23. With draws in [[0, 1)], every state of a run has between 1 and 87
    water cells: [add_water_blobs] walks two or three blobs of 15 to 29
    steps, each starting inside the grid, and nothing after it adds or
    removes water. *)
Theorem water_cells_of_a_run g w pp pg n s env :
  unit_draws g → ticks g w pp pg n = Some s → envRef s = Some env →
  (1 ≤ count_water env ≤ 87)%nat.
Proof.
  intros Hg Hs Henv.
  destruct (ticks_count_water g w pp pg n s env Hs Henv) as (s0 & env0 & Hs0 & Henv0 & ->).
  by eapply initSim_count_water.
Qed.

(** X24. With draws in [[0, 1)], [initSim] returns a state with at most
    five fires, all in the middle third of the grid ([13 <= x <= 26],
    [6 <= y <= 12]); each of them burns with cooldown 3 and is no water
    cell.  There is no swarm yet, and the tick count, the clock and the
    total of extinguished fires are 0. *)
Theorem initSim_first_fires g :
  unit_draws g →
  ∃ s env, initSim g = Some s ∧ envRef s = Some env ∧
    simRef s = None ∧ stepCountRef s = 0 ∧ totalExtinguishedRef s = 0 ∧
    simTimeRef s = Some 0%Q ∧
    (length (active_fires env) ≤ 5)%nat ∧
    ∀ x y, (x, y) ∈ active_fires env →
      13 ≤ x ≤ 26 ∧ 6 ≤ y ≤ 12 ∧
      ∃ c, cell_at env x y = Some c ∧ fire c = true ∧ fire_cooldown c = 3 ∧
           water c = false.
Proof.
  intros Hg. destruct (initSim_total g) as (s & Hs & env & Henv & Hinv & _).
  exists s, env. split; [done|]. split; [done|].
  destruct (initSim_refs g s Hs) as (Hsim & Hcount & Htotal & Htime).
  split; [done|]. split; [done|]. split; [done|]. split; [done|].
  revert Hs. unfold initSim.
  pose proof (new_Environment_blank 40 20 g) as (Hblank & Hw & Hh).
  pose proof (new_Environment_rng 40 20 g) as Hg0.
  destruct (new_Environment 40 20 g) as [env0 g0]. cbn [fst snd] in *.
  assert (Hdraws : unit_draws g0) by (by subst g0).
  destruct (add_water_blobs_blank 3 env0 g0 Hblank) as (env1 & g1 & H1 & Hblank1 & Hw1 & Hh1).
  rewrite H1. cbn [mbind option_bind].
  assert (Hd1 : unit_draws g1).
  { apply add_water_blobs_count in H1 as (Hd & _); [|done|lia|lia].
    intros k. rewrite Hd. apply Hdraws. }
  destruct (ignite_random 5 (env1, g1)) as [[env2 g2]|] eqn:H2; [|done].
  cbn [mbind option_bind]. intros [= <-]. cbn in Henv. injection Henv as <-.
  destruct Hblank1 as (Hok1 & Haf1 & Hcells1).
  apply ignite_random_fires in H2 as [(l & Hl & Hlen & Hall) Hnew];
    [|done|congruence|congruence|].
  2:{ intros x y c Hc Hf. apply Hcells1 in Hc as (? & _). congruence. }
  rewrite Haf1 in Hl. cbn in Hl. rewrite Hl. split; [done|].
  intros x y Hin. rewrite Forall_forall in Hall.
  destruct (Hall _ Hin) as [Hx Hy]. cbn in Hx, Hy. split; [done|]. split; [done|].
  destruct Hinv as (_ & [_ Hfires] & Hdry).
  rewrite <- Hl in Hin. apply Hfires, burning_at_Some in Hin as (c & Hc & Hf).
  cbn in Hc. exists c. split; [done|]. split; [done|]. split; [by eapply Hnew|].
  destruct (water c) eqn:Hwc; [|done]. destruct (Hdry x y c Hc Hwc) as (_ & ? & _).
  congruence.
Qed.

End Host.

(** ** Concrete instances *)

Lemma extinguish_not_burning_witness :
  extinguish_fire_at sqrt_approx 1 0 (Some (0, 0)) (Some 0%Q) steep_env
    = Some (false, steep_env, Some 0%Q) ∧
  extinguish_fire_at sqrt_approx 2 0 (Some (0, 0)) (Some 0%Q) steep_env
    = Some (false, steep_env, Some 0%Q).
Proof.
  split.
  - apply (extinguish_not_burning sqrt_approx 1 0 (Some (0, 0)) (Some 0%Q) steep_env).
    right. exists (new_Cell 97). split; reflexivity.
  - apply (extinguish_not_burning sqrt_approx 2 0 (Some (0, 0)) (Some 0%Q) steep_env).
    left. reflexivity.
Defined.

Lemma extinguish_burning_witness :
  ∃ env' t',
    extinguish_fire_at sqrt_approx 0 0 (Some (0, 0)) (Some 7%Q) steep_env
      = Some (true, env', Some t') ∧
    active_fires env' = [] ∧ (t' == 47)%Q.
Proof.
  destruct (extinguish_burning sqrt_approx 0 0 (0, 0) 7%Q steep_env
              (mkCell true true false false 2 0 false))
    as (env' & t' & Hrun & _ & _ & _ & _ & Ht); [reflexivity..|].
  exists env', t'. split; [exact Hrun|]. split.
  - vm_compute in Hrun. injection Hrun as <- _. reflexivity.
  - rewrite Ht; reflexivity.
Defined.

Lemma ignition_draw_witness :
  ∃ st', try_spread 0 0 1 0 (mkSpread steep_env [] [] (constant_draws 0.39)) = Some st' ∧
         burning_at (sp_env st') (1, 0) = true ∧
         new_fires st' = [(1, 0)].
Proof.
  destruct (ignition_draw 0 0 1 0 (mkSpread steep_env [] [] (constant_draws 0.39))
              (mkCell true true false false 2 0 false) (new_Cell 97))
    as (st' & Hrun & _ & Hiff & Hlt & _); [done|reflexivity..|].
  exists st'. split; [exact Hrun|]. split.
  - apply Hiff. reflexivity.
  - apply Hlt. reflexivity.
Defined.

(** C1 as stated fails: with the neighbour 95 higher and downwind, clamping
    first and adding the bonus afterwards gives 0.415, above the draw 0.41,
    yet [spread_fire] does not ignite the neighbour, because the code compares
    the draw with [clamp(0.335 + 0.08)] = 0.4. *)
Lemma bonus_is_clamped :
  Qltb 0.41 (clamp_then_bonus steep_env (mkCell true true false false 2 0 false)
                              (new_Cell 97) 1 0) = true ∧
  ∃ env' g', spread_fire steep_env (constant_draws 0.41) = Some (env', g') ∧
             cursor g' = 2%nat ∧
             burning_at env' (1, 0) = false ∧
             active_fires env' = [(0, 0)].
Proof.
  split; [reflexivity|].
  eexists _, _. split; [vm_compute; reflexivity|]. repeat split.
Qed.

Lemma scout_step_returns :
  is_Some (step sqrt_approx scout_env scout_swarm (Some 0%Q) (constant_draws 0.5)).
Proof. vm_compute. by eexists. Qed.

Lemma gbest_value_non_increasing_witness :
  ∃ r, step sqrt_approx scout_env scout_swarm (Some 0%Q) (constant_draws 0.5) = Some r ∧
       (gbest_value (st_swarm r) = Fin 2 ∨
        num_ltb (gbest_value (st_swarm r)) (Fin 2) = true).
Proof.
  destruct scout_step_returns as [r Hrun]. exists r. split; [exact Hrun|].
  exact (proj1 (gbest_value_non_increasing sqrt_approx) scout_env scout_swarm
           (Some 0%Q) (constant_draws 0.5) r Hrun).
Defined.

Lemma extinguish_calls_use_moved_position_witness :
  ∃ r sw1,
    step sqrt_approx scout_env scout_swarm (Some 0%Q) (constant_draws 0.5) = Some r ∧
    positions (st_swarm r) = positions sw1 ∧
    ∀ c, c ∈ st_calls r →
      (call_drone c < 1)%nat ∧
      ∃ p, positions sw1 !! call_drone c = Some p ∧
           call_drone_pos c = (Qfloor p.1, Qfloor p.2).
Proof.
  destruct scout_step_returns as [r Hrun].
  destruct (extinguish_calls_use_moved_position sqrt_approx scout_env scout_swarm
              (Some 0%Q) (constant_draws 0.5) r Hrun) as (sw1 & _ & Hpos & Hcalls).
  exists r, sw1. split; [exact Hrun|]. split; [exact Hpos|exact Hcalls].
Defined.

Lemma scout_water_ok : water_ok scout_swarm.
Proof.
  intros [|i] w t; [|done]. intros [= <-] [= <-].
  unfold MAX_WATER_CAPACITY, REFILL_TIME. lia.
Qed.

Lemma water_left_step_witness :
  ∃ r, step sqrt_approx scout_env scout_swarm (Some 0%Q) (constant_draws 0.5) = Some r ∧
       water_ok (st_swarm r).
Proof.
  destruct scout_step_returns as [r Hrun]. exists r. split; [exact Hrun|].
  exact (proj1 (proj1 (proj2 (water_left_step sqrt_approx)) scout_env scout_swarm
                  (Some 0%Q) (constant_draws 0.5) r scout_water_ok Hrun)).
Defined.

(** C2 as stated fails: the drone starts the tick at [(0.5, 0.5)], whose floor
    is [(0, 0)]; the first loop moves it to [(2.5, 0.5)], and all nine calls
    of its scan are passed [(2, 0)].  The burning cell [(2, 0)] is put out with
    travel time 0, so the clock reads 40 and not 42. *)
Lemma requester_is_not_the_position_before_the_move :
  ∃ r, step sqrt_approx scout_env scout_swarm (Some 0%Q) (constant_draws 0.5) = Some r ∧
       positions scout_swarm !! 0%nat = Some (0.5, 0.5)%Q ∧
       water_left scout_swarm !! 0%nat = Some 3 ∧
       length (st_calls r) = 9%nat ∧
       Forall (λ c, call_drone c = 0%nat ∧ call_drone_pos c = (2, 0) ∧
                    call_drone_pos c ≠ (Qfloor 0.5, Qfloor 0.5)) (st_calls r) ∧
       (∃ t, st_time r = Some t ∧ (t == 40)%Q) ∧
       water_left (st_swarm r) = [2].
Proof.
  eexists. split; [vm_compute; reflexivity|]. cbn [st_calls st_time st_swarm water_left].
  split; [done|]. split; [done|]. split; [done|].
  split; [repeat constructor; discriminate|].
  split; [eexists; split; [reflexivity|reflexivity]|done].
Qed.

Lemma natural_burnout_keeps_tree_witness :
  (∃ st' c',
     spread_from (0, 0) (mkSpread steep_env [] [] (constant_draws 0.01)) = Some st' ∧
     cell_at (sp_env st') 0 0 = Some c' ∧
     tree c' = true ∧ fire c' = false ∧ burnt c' = true ∧
     extinguished_by_drone c' = false ∧
     count_trees (sp_env st') = (2, 0)) ∧
  (∃ env' t' c',
     extinguish_fire_at sqrt_approx 0 0 (Some (1, 0)) (Some 0%Q) steep_env
       = Some (true, env', t') ∧
     cell_at env' 0 0 = Some c' ∧
     tree c' = false ∧ fire c' = false ∧ burnt c' = true ∧
     extinguished_by_drone c' = true ∧
     count_trees env' = (1, 1)).
Proof.
  exact (natural_burnout_keeps_tree sqrt_approx 0 0 steep_env [] [] (constant_draws 0.01)
           (mkCell true true false false 2 0 false) (Some (1, 0)) (Some 0%Q)
           eq_refl eq_refl eq_refl eq_refl eq_refl).
Defined.

(** Five ticks after [initSim] with every draw 0.5: the fire lit at [(19, 9)]
    still burns and has not spread. *)
Lemma five_ticks :
  ∃ s env,
    ticks sqrt_approx (constant_draws 0.5) 0.7 1.5 1.5 5 = Some s ∧
    envRef s = Some env ∧
    active_fires env = [(19, 9)] ∧ count_burning env = 1%nat.
Proof. vm_compute. eexists _, _. repeat split. Qed.

Lemma active_fires_consistent_witness :
  ∃ s env,
    ticks sqrt_approx (constant_draws 0.5) 0.7 1.5 1.5 5 = Some s ∧
    envRef s = Some env ∧
    active_fires env = [(19, 9)] ∧ count_burning env = 1%nat ∧
    NoDup (active_fires env) ∧ length (active_fires env) = count_burning env.
Proof.
  destruct five_ticks as (s & env & Hs & Henv & Hfires & Hcount).
  exists s, env. split; [exact Hs|]. split; [exact Henv|].
  split; [exact Hfires|]. split; [exact Hcount|].
  destruct (active_fires_consistent sqrt_approx s env
              (ticks_reachable sqrt_approx _ _ _ _ _ s Hs) Henv) as (Hnd & Hlen & _).
  split; [exact Hnd|exact Hlen].
Defined.

(** Twelve ticks after [initSim] with every draw 0.5: the swarm has put the
    fire out, and the cell [(20, 10)] next to it is water. *)
Lemma twelve_ticks :
  ∃ s env c,
    ticks sqrt_approx (constant_draws 0.5) 0.7 1.5 1.5 12 = Some s ∧
    envRef s = Some env ∧ active_fires env = [] ∧
    totalExtinguishedRef s = 1 ∧
    cell_at env 20 10 = Some c ∧ water c = true.
Proof. vm_compute. eexists _, _, _. repeat split. Qed.

Lemma twelve_ticks_swarm :
  ∃ s env sw,
    ticks sqrt_approx (constant_draws 0.5) 0.7 1.5 1.5 12 = Some s ∧
    envRef s = Some env ∧ simRef s = Some sw ∧ length (positions sw) = 20%nat.
Proof. vm_compute. eexists _, _, _. repeat split. Qed.

Lemma water_never_burns_witness :
  ∃ s env c,
    ticks sqrt_approx (constant_draws 0.5) 0.7 1.5 1.5 12 = Some s ∧
    envRef s = Some env ∧ cell_at env 20 10 = Some c ∧ water c = true ∧
    fire c = false ∧ tree c = false ∧ burnt c = false.
Proof.
  destruct twelve_ticks as (s & env & c & Hs & Henv & _ & _ & Hc & Hw).
  exists s, env, c. split; [exact Hs|]. split; [exact Henv|].
  split; [exact Hc|]. split; [exact Hw|].
  exact (proj1 (water_never_burns sqrt_approx s env
                  (ticks_reachable sqrt_approx _ _ _ _ _ s Hs) Henv) 20 10 c Hc Hw).
Defined.

Lemma positions_stay_in_bounds_witness :
  (∀ sw g', new_DroneSwarm sqrt_approx scout_env 3 (constant_draws 0.5) = Some (sw, g') →
     ∀ i p, positions sw !! i = Some p →
       in_range scout_env p ∧
       out_of_bounds scout_env (Qfloor p.1) (Qfloor p.2) = false) ∧
  (∃ r, step sqrt_approx scout_env scout_swarm (Some 0%Q) (constant_draws 0.5) = Some r ∧
     ∀ i p, positions (st_swarm r) !! i = Some p →
       in_range scout_env p ∧
       out_of_bounds scout_env (Qfloor p.1) (Qfloor p.2) = false) ∧
  (∃ s env sw,
     ticks sqrt_approx (constant_draws 0.5) 0.7 1.5 1.5 12 = Some s ∧
     envRef s = Some env ∧ simRef s = Some sw ∧ length (positions sw) = 20%nat ∧
     ∀ i p, positions sw !! i = Some p →
       in_range env p ∧ out_of_bounds env (Qfloor p.1) (Qfloor p.2) = false).
Proof.
  assert (Hw : 1 ≤ width scout_env) by (cbn; lia).
  assert (Hh : 1 ≤ height scout_env) by (cbn; lia).
  destruct (positions_stay_in_bounds sqrt_approx) as [Hticks Hparts].
  destruct (Hparts scout_env Hw Hh) as [Hnew Hstep].
  split; [|split].
  - intros sw g'. apply Hnew. intros k. cbn. split; [discriminate|reflexivity].
  - destruct scout_step_returns as [r Hrun]. exists r. split; [exact Hrun|].
    apply (Hstep scout_swarm (Some 0%Q) (constant_draws 0.5) r eq_refl Hrun).
  - destruct twelve_ticks_swarm as (s & env & sw & Hs & Henv & Hsw & Hlen).
    exists s, env, sw. split; [exact Hs|]. split; [exact Henv|].
    split; [exact Hsw|]. split; [exact Hlen|].
    exact (Hticks s env sw (ticks_reachable sqrt_approx _ _ _ _ _ s Hs) Henv Hsw).
Defined.


(** ** Concrete instances of the further properties *)

Ltac each_coord :=
  match goal with
  | |- Forall _ (coords ?env) =>
      let l := eval vm_compute in (coords env) in change (coords env) with l
  end;
  repeat match goal with
         | |- Forall _ (_ :: _) => apply Forall_cons; split
         | |- Forall _ [] => apply Forall_nil_2
         end;
  cbv beta; intros ? Hcell; vm_compute in Hcell; injection Hcell as <-.

Lemma scout_env_inv : env_inv scout_env.
Proof.
  assert (Hok : grid_ok scout_env) by (split; [done|repeat constructor]).
  split; [done|]. split; [split|].
  - apply NoDup_singleton.
  - intros [a b]. split; [by intros ->%list_elem_of_singleton|].
    intros (c & Hc & Hf)%burning_at_Some. cbn [fst snd] in Hc. revert a b c Hc Hf.
    apply (cells_by_coords scout_env
             (λ a b c, fire c = true → (a, b) ∈ active_fires scout_env) Hok).
    each_coord; try discriminate. intros _. by apply list_elem_of_singleton.
  - unfold water_dry.
    apply (cells_by_coords scout_env
             (λ _ _ c, water c = true →
                tree c = false ∧ fire c = false ∧ burnt c = false) Hok).
    each_coord; discriminate.
Qed.

(** Five ticks after [initSim] with every draw 0.5: the cell [(19, 9)] burns,
    and [spread_fire] leaves it burning. *)
Lemma five_ticks_fire :
  ∃ s env c env' g',
    ticks sqrt_approx (constant_draws 0.5) 0.7 1.5 1.5 5 = Some s ∧
    envRef s = Some env ∧ cell_at env 19 9 = Some c ∧ fire c = true ∧
    spread_fire env (sim_rng s) = Some (env', g') ∧
    burning_at env' (19, 9) = true.
Proof.
  eexists _, _, _, _, _. split; [vm_compute; reflexivity|].
  split; [reflexivity|]. split; [vm_compute; reflexivity|]. split; [reflexivity|].
  split; [vm_compute; reflexivity|]. vm_compute. reflexivity.
Qed.

(** Ticks 10 and 11 of that run: the swarm is deployed in tick 10 and puts
    the fire at [(19, 9)] out; in tick 11 nothing burns. *)
Lemma ticks_ten_to_twelve :
  ∃ s10 s11 s12 env10 env11 c,
    ticks sqrt_approx (constant_draws 0.5) 0.7 1.5 1.5 10 = Some s10 ∧
    ticks sqrt_approx (constant_draws 0.5) 0.7 1.5 1.5 11 = Some s11 ∧
    ticks sqrt_approx (constant_draws 0.5) 0.7 1.5 1.5 12 = Some s12 ∧
    envRef s10 = Some env10 ∧ envRef s11 = Some env11 ∧
    cell_at env10 19 9 = Some c ∧ fire c = true ∧
    active_fires env11 = [] ∧ stepCountRef s11 = 11.
Proof.
  eexists _, _, _, _, _, _. split; [vm_compute; reflexivity|].
  split; [vm_compute; reflexivity|]. split; [vm_compute; reflexivity|].
  split; [reflexivity|]. split; [reflexivity|]. split; [vm_compute; reflexivity|].
  split; [reflexivity|]. split; [reflexivity|]. reflexivity.
Qed.

Lemma display_shows_phase_witness :
  ∃ s env c p,
    ticks sqrt_approx (constant_draws 0.5) 0.7 1.5 1.5 12 = Some s ∧
    envRef s = Some env ∧ cell_at env 20 10 = Some c ∧ water c = true ∧
    phase_of c = Some p ∧ display c = glyph p ∧ display c ≠ " ".
Proof.
  destruct twelve_ticks as (s & env & c & Hs & Henv & _ & _ & Hc & Hw).
  destruct (display_shows_phase sqrt_approx s env 20 10 c
              (ticks_reachable sqrt_approx _ _ _ _ _ s Hs) Henv Hc) as (p & Hp & Hd & Hb).
  exists s, env, c, p. repeat split; assumption.
Defined.

Lemma cooldown_fits_phase_witness :
  ∃ s env c,
    ticks sqrt_approx (constant_draws 0.5) 0.7 1.5 1.5 5 = Some s ∧
    envRef s = Some env ∧ cell_at env 19 9 = Some c ∧ fire c = true ∧
    1 ≤ fire_cooldown c ≤ 3.
Proof.
  destruct five_ticks_fire as (s & env & c & _ & _ & Hs & Henv & Hc & Hf & _).
  exists s, env, c. split; [exact Hs|]. split; [exact Henv|]. split; [exact Hc|].
  split; [exact Hf|].
  exact (proj1 (cooldown_fits_phase sqrt_approx s env 19 9 c
                  (ticks_reachable sqrt_approx _ _ _ _ _ s Hs) Henv Hc) Hf).
Defined.

Lemma phases_go_one_way_witness :
  ∃ s s' env env' c c' p p',
    ticks sqrt_approx (constant_draws 0.5) 0.7 1.5 1.5 10 = Some s ∧
    step_sim sqrt_approx 0.7 1.5 1.5 s = Some s' ∧
    envRef s = Some env ∧ envRef s' = Some env' ∧
    cell_at env 19 9 = Some c ∧ fire c = true ∧
    cell_at env' 19 9 = Some c' ∧ elevation c' = elevation c ∧
    phase_of c = Some p ∧ phase_of c' = Some p' ∧ phase_step p p' = true.
Proof.
  destruct ticks_ten_to_twelve
    as (s & s' & _ & env & env' & c & Hs & Hs' & _ & Henv & Henv' & Hc & Hf & _).
  pose proof (ticks_succ sqrt_approx _ _ _ _ _ s s' Hs Hs') as Hrun.
  destruct (phases_go_one_way sqrt_approx 0.7 1.5 1.5 s s' env env' 19 9 c
              (ticks_reachable sqrt_approx _ _ _ _ _ s Hs) Hrun Henv Henv' Hc)
    as (c' & p & p' & Hc' & He & Hp & Hp' & Hstep).
  exists s, s', env, env', c, c', p, p'. repeat split; assumption.
Defined.

Lemma spread_fire_cell_by_cell_witness :
  ∃ env' g',
    spread_fire scout_env (constant_draws 0.5) = Some (env', g') ∧
    width env' = 4 ∧ height env' = 3 ∧ wind env' = (1, 0) ∧
    ∃ c', cell_at env' 2 0 = Some c' ∧
          (c' = burnt_out (mkCell true true false false 50 3 false) ∨
           c' = kept_burning (mkCell true true false false 50 3 false)).
Proof.
  destruct (spread_fire_cell_by_cell scout_env (constant_draws 0.5) scout_env_inv)
    as (env' & g' & Hrun & Hw & Hh & Hwind & Hcells).
  exists env', g'. split; [exact Hrun|]. split; [exact Hw|]. split; [exact Hh|].
  split; [exact Hwind|].
  exact (Hcells 2 0 (mkCell true true false false 50 3 false) eq_refl).
Defined.

Lemma fire_spreads_to_neighbours_witness :
  ∃ s env env' g',
    ticks sqrt_approx (constant_draws 0.5) 0.7 1.5 1.5 5 = Some s ∧
    envRef s = Some env ∧
    spread_fire env (sim_rng s) = Some (env', g') ∧
    burning_at env' (19, 9) = true ∧
    (burning_at env (19, 9) = true ∨
     ∃ c src, cell_at env 19 9 = Some c ∧ ignitable c = true ∧
              adjacent (19, 9) src ∧ hot env src).
Proof.
  destruct five_ticks_fire as (s & env & c & env' & g' & Hs & Henv & _ & _ & Hrun & Hb).
  exists s, env, env', g'. split; [exact Hs|]. split; [exact Henv|].
  split; [exact Hrun|]. split; [exact Hb|].
  destruct (reachable_sim_inv sqrt_approx s (ticks_reachable sqrt_approx _ _ _ _ _ s Hs))
    as (env0 & Henv0 & Hinv & _).
  rewrite Henv in Henv0. injection Henv0 as <-.
  exact (fire_spreads_to_neighbours env (sim_rng s) env' g' 19 9 Hinv Hrun Hb).
Defined.

Lemma stats_of_a_run_witness :
  ∃ s env st,
    ticks sqrt_approx (constant_draws 0.5) 0.7 1.5 1.5 12 = Some s ∧
    envRef s = Some env ∧ shown_stats s = Some st ∧
    stats_burnt st = stats_extinguished st ∧
    stats_saved st + stats_burnt st + Z.of_nat (count_water env) = 800 ∧
    stats_fires st = Z.of_nat (count_burning env) ∧
    0 ≤ stats_burnt st.
Proof.
  destruct twelve_ticks as (s & _ & _ & Hs & _).
  destruct (stats_of_a_run sqrt_approx s (ticks_reachable sqrt_approx _ _ _ _ _ s Hs))
    as (env & st & H).
  exists s, env, st. split; [exact Hs|exact H].
Defined.

Lemma step_puts_out_what_it_counts_witness :
  ∃ r, step sqrt_approx scout_env scout_swarm (Some 0%Q) (constant_draws 0.5) = Some r ∧
       st_extinguished r = Z.of_nat (length (quenched (st_calls r))) ∧
       Z.of_nat (count_burning (st_env r))
         = Z.of_nat (count_burning scout_env) - st_extinguished r.
Proof.
  destruct scout_step_returns as [r Hrun]. exists r. split; [exact Hrun|].
  destruct (step_puts_out_what_it_counts sqrt_approx scout_env scout_swarm (Some 0%Q)
              (constant_draws 0.5) r scout_env_inv Hrun) as (H1 & _ & _ & _ & _ & _ & H2).
  split; [exact H1|exact H2].
Defined.

Lemma step_charges_the_clock_witness :
  ∃ r t', step sqrt_approx scout_env scout_swarm (Some 0%Q) (constant_draws 0.5) = Some r ∧
          st_time r = Some t' ∧ (t' == 0 + charged sqrt_approx (st_calls r))%Q.
Proof.
  destruct scout_step_returns as [r Hrun].
  destruct (step_charges_the_clock sqrt_approx scout_env scout_swarm (Some 0%Q)
              (constant_draws 0.5) r Hrun) as [(t' & Ht & Heq) _].
  exists r, t'. split; [exact Hrun|]. split; [exact Ht|exact Heq].
Defined.

Lemma quiet_tick_witness :
  ∃ s s' env,
    ticks sqrt_approx (constant_draws 0.5) 0.7 1.5 1.5 11 = Some s ∧
    step_sim sqrt_approx 0.7 1.5 1.5 s = Some s' ∧
    envRef s = Some env ∧ active_fires env = [] ∧
    envRef s' = Some env ∧
    totalExtinguishedRef s' = totalExtinguishedRef s ∧
    simTimeRef s' = simTimeRef s ∧
    stepCountRef s' = stepCountRef s + 1.
Proof.
  destruct ticks_ten_to_twelve
    as (_ & s & s' & _ & env & _ & _ & Hs & Hs' & _ & Henv & _ & _ & Hnone & Hcount).
  pose proof (ticks_succ sqrt_approx _ _ _ _ _ s s' Hs Hs') as Hrun.
  exists s, s', env. split; [exact Hs|]. split; [exact Hrun|]. split; [exact Henv|].
  split; [exact Hnone|].
  apply (quiet_tick sqrt_approx 0.7 1.5 1.5 s s' env
           (ticks_reachable sqrt_approx _ _ _ _ _ s Hs) Henv Hnone); [|exact Hrun].
  rewrite Hcount. discriminate.
Defined.

Lemma fitness_by_cell_witness :
  ∃ c f,
    cell_at scout_env 0 0 = Some c ∧
    fitness sqrt_approx scout_env (0.5, 0.5)%Q = Some f ∧
    if fire c then ∃ d, nearest sqrt_approx scout_env 3 0 0 d ∧ f = num_add (Fin (-100)) d
    else if burnt c then f = Fin 1000
    else if water c then f = Fin (-10)
    else ∃ d, nearest sqrt_approx scout_env 5 0 0 d ∧
              f = match d with Infinity => Fin 100 | Fin q => Fin q end.
Proof.
  exact (fitness_by_cell sqrt_approx scout_env 0.5 0.5 (proj1 scout_env_inv)).
Defined.

Lemma step_moves_every_drone_witness :
  ∃ r v pb p,
    step sqrt_approx scout_env scout_swarm (Some 0%Q) (constant_draws 0.5) = Some r ∧
    st_rng r = mkRng (draws (constant_draws 0.5)) 2 ∧
    velocities scout_swarm !! 0%nat = Some v ∧
    pbest_positions scout_swarm !! 0%nat = Some pb ∧
    positions scout_swarm !! 0%nat = Some p ∧
    velocities (st_swarm r) !! 0%nat = Some (new_velocity scout_swarm 0.5 0.5 v pb p) ∧
    positions (st_swarm r) !! 0%nat
      = Some (new_position scout_env p (new_velocity scout_swarm 0.5 0.5 v pb p)).
Proof.
  destruct scout_step_returns as [r Hrun].
  destruct (step_moves_every_drone sqrt_approx scout_env scout_swarm (Some 0%Q)
              (constant_draws 0.5) r Hrun) as [Hg Hall].
  destruct (Hall 0%nat Nat.lt_0_1) as (v & pb & p & Hv & Hpb & Hp & Hv' & Hp').
  exists r, v, pb, p. split; [exact Hrun|]. split; [exact Hg|]. split; [exact Hv|].
  split; [exact Hpb|]. split; [exact Hp|]. split; [exact Hv'|exact Hp'].
Defined.

Lemma step_updates_personal_bests_witness :
  ∃ r p f pbv pb,
    step sqrt_approx scout_env scout_swarm (Some 0%Q) (constant_draws 0.5) = Some r ∧
    positions (st_swarm r) !! 0%nat = Some p ∧
    fitness sqrt_approx scout_env p = Some f ∧
    pbest_values scout_swarm !! 0%nat = Some pbv ∧
    pbest_positions scout_swarm !! 0%nat = Some pb ∧
    pbest_values (st_swarm r) !! 0%nat = Some (if num_ltb f pbv then f else pbv) ∧
    pbest_positions (st_swarm r) !! 0%nat = Some (if num_ltb f pbv then p else pb).
Proof.
  destruct scout_step_returns as [r Hrun].
  destruct (step_updates_personal_bests sqrt_approx scout_env scout_swarm (Some 0%Q)
              (constant_draws 0.5) r Hrun 0%nat Nat.lt_0_1) as (p & f & pbv & pb & H).
  exists r, p, f, pbv, pb. split; [exact Hrun|exact H].
Defined.

Lemma swarm_of_a_run_witness :
  ∃ s sw i,
    ticks sqrt_approx (constant_draws 0.5) 0.7 1.5 1.5 12 = Some s ∧
    simRef s = Some sw ∧ num_drones sw = 20%nat ∧
    pbest_values sw !! i = Some (gbest_value sw) ∧
    pbest_positions sw !! i = Some (gbest_position sw).
Proof.
  destruct twelve_ticks_swarm as (s & _ & sw & Hs & _ & Hsw & _).
  destruct (swarm_of_a_run sqrt_approx s (ticks_reachable sqrt_approx _ _ _ _ _ s Hs))
    as [_ Hall].
  destruct (Hall sw Hsw) as (Hn & _ & _ & _ & _ & _ & i & Hv & Hp).
  exists s, sw, i. split; [exact Hs|]. split; [exact Hsw|]. split; [exact Hn|].
  split; [exact Hv|exact Hp].
Defined.


Lemma new_DroneSwarm_builds_witness :
  is_Some (new_DroneSwarm sqrt_approx scout_env 1 (constant_draws 0.5)) ↔ (0 < 1)%nat.
Proof.
  exact (proj1 (new_DroneSwarm_builds sqrt_approx scout_env 1 (constant_draws 0.5)
                  (proj1 scout_env_inv))).
Defined.

Lemma scout_ignite : ∃ env', ignite 0 0 scout_env = Some env'.
Proof. eexists. vm_compute. reflexivity. Qed.

Lemma ignite_twice_witness :
  ∃ env', ignite 0 0 scout_env = Some env' ∧ ignite 0 0 env' = Some env'.
Proof.
  destruct scout_ignite as [env' Hrun]. exists env'. split; [exact Hrun|].
  exact (proj1 (ignite_twice 0 0 scout_env env' Hrun)).
Defined.

Lemma scout_extinguish :
  ∃ env' t', extinguish_fire_at sqrt_approx 2 0 None None scout_env = Some (true, env', t').
Proof. eexists _, _. vm_compute. reflexivity. Qed.

Lemma extinguished_is_settled_witness :
  ∃ env' t',
    extinguish_fire_at sqrt_approx 2 0 None None scout_env = Some (true, env', t') ∧
    extinguish_fire_at sqrt_approx 2 0 (Some (1, 0)) (Some 0%Q) env'
      = Some (false, env', Some 0%Q) ∧
    ignite 2 0 env' = Some env' ∧ t' = None.
Proof.
  destruct scout_extinguish as (env' & t' & Hrun).
  destruct (extinguished_is_settled sqrt_approx 2 0 None None scout_env env' t' Hrun)
    as (Hagain & Hlit & Hclock).
  exists env', t'. split; [exact Hrun|]. split; [exact (Hagain (Some (1, 0)) (Some 0%Q))|].
  split; [exact Hlit|]. apply Hclock. left. reflexivity.
Defined.

Lemma attraction_matrix_marks_witness :
  ∃ m, get_attraction_matrix scout_env = Some m ∧
       length m = 3%nat ∧
       ∃ v, m !! 0%nat ≫= (λ row, row !! 2%nat) = Some v ∧ v = 5.
Proof.
  destruct (attraction_matrix_marks scout_env (proj1 scout_env_inv))
    as (m & Hm & Hlen & _ & Hcells).
  destruct (Hcells 2 0 (mkCell true true false false 50 3 false) eq_refl)
    as (v & Hv & Hfive & _).
  exists m. split; [exact Hm|]. split; [exact Hlen|]. exists v. split; [exact Hv|].
  apply Hfive. reflexivity.
Defined.

(** Ticks 5 and 6 of the run with every draw 0.5: the cell [(19, 9)] still
    burns after tick 6. *)
Lemma ticks_five_six :
  ∃ s5 s6 env5 env6,
    ticks sqrt_approx (constant_draws 0.5) 0.7 1.5 1.5 5 = Some s5 ∧
    ticks sqrt_approx (constant_draws 0.5) 0.7 1.5 1.5 6 = Some s6 ∧
    envRef s5 = Some env5 ∧ envRef s6 = Some env6 ∧
    burning_at env6 (19, 9) = true.
Proof.
  eexists _, _, _, _. split; [vm_compute; reflexivity|].
  split; [vm_compute; reflexivity|]. split; [reflexivity|]. split; [reflexivity|].
  vm_compute. reflexivity.
Qed.

Lemma tick_lights_neighbours_witness :
  ∃ s s' env env',
    ticks sqrt_approx (constant_draws 0.5) 0.7 1.5 1.5 5 = Some s ∧
    step_sim sqrt_approx 0.7 1.5 1.5 s = Some s' ∧
    envRef s = Some env ∧ envRef s' = Some env' ∧
    burning_at env' (19, 9) = true ∧
    (burning_at env (19, 9) = true ∨
     ∃ c, cell_at env 19 9 = Some c ∧ ignitable c = true ∧
          ((∃ src, adjacent (19, 9) src ∧ hot env src) ∨
           Z.rem (stepCountRef s) 15 = 0)).
Proof.
  destruct ticks_five_six as (s & s' & env & env' & Hs & Hs' & Henv & Henv' & Hb).
  pose proof (ticks_succ sqrt_approx _ _ _ _ _ s s' Hs Hs') as Hrun.
  exists s, s', env, env'. split; [exact Hs|]. split; [exact Hrun|].
  split; [exact Henv|]. split; [exact Henv'|]. split; [exact Hb|].
  exact (tick_lights_neighbours sqrt_approx 0.7 1.5 1.5 s s' env env' 19 9
           (ticks_reachable sqrt_approx _ _ _ _ _ s Hs) Hrun Henv Henv' Hb).
Defined.

Lemma half_draws : unit_draws (constant_draws 0.5).
Proof. intros k. split; [discriminate|reflexivity]. Qed.

Lemma water_cells_of_a_run_witness :
  ∃ s env,
    ticks sqrt_approx (constant_draws 0.5) 0.7 1.5 1.5 12 = Some s ∧
    envRef s = Some env ∧ (1 ≤ count_water env ≤ 87)%nat.
Proof.
  destruct twelve_ticks as (s & env & _ & Hs & Henv & _).
  exists s, env. split; [exact Hs|]. split; [exact Henv|].
  exact (water_cells_of_a_run sqrt_approx (constant_draws 0.5) 0.7 1.5 1.5 12 s env
           half_draws Hs Henv).
Defined.

Lemma initSim_first_fires_witness :
  ∃ s env,
    initSim (constant_draws 0.5) = Some s ∧ envRef s = Some env ∧
    simRef s = None ∧ stepCountRef s = 0 ∧ totalExtinguishedRef s = 0 ∧
    simTimeRef s = Some 0%Q ∧
    (length (active_fires env) ≤ 5)%nat ∧
    ∀ x y, (x, y) ∈ active_fires env →
      13 ≤ x ≤ 26 ∧ 6 ≤ y ≤ 12 ∧
      ∃ c, cell_at env x y = Some c ∧ fire c = true ∧ fire_cooldown c = 3 ∧
           water c = false.
Proof.
  exact (initSim_first_fires (constant_draws 0.5) half_draws).
Defined.
